(** * EVM chain-state provider: a shallow embedding of
      [providers/chain-state/evm/api/csp.ts] and [erc20Transform.ts]

    The development follows the methods of [BaseEVMStateProvider] the
    specification talks about: the fee estimator ([getFee]), the token
    transfer stage of the enrichment pipeline
    ([Erc20RelatedFilterTransform._transform]), the confirmation count of
    [getTransaction] and [streamTransactions], the wallet aggregator
    ([getWalletBalance]), [broadcastTransaction] and [updateWallet].

    Conventions.
    - Where only the order of numbers matters (the samples and quartiles
      of the fee estimator, block heights and block numbers), a
      JavaScript number is an exact rational or [NaN] (module [JS]).
    - Where the result depends on how a number is rounded (the balances
      [getWalletBalance] adds up, the fee rate [getFee] computes from
      the quartile median), a JavaScript number is an IEEE-754 binary64
      value with the operations of [SpecFloat] (module [Float64]).
    - A promise is modelled by its settlement: [Resolved v] or
      [Rejected e].
    - The document store and the remote node are collaborators of the
      class: their answers are parameters of the sections below, or an
      explicit store that is threaded through the calls. *)

From Stdlib Require Import List ZArith QArith Qround Qminmax Qabs Bool String Lia Lqa Arith Sorted
  Permutation SpecFloat.
Import ListNotations.

Local Open Scope Q_scope.

(** ** JavaScript values used by the provider *)

Module JS.

(** A number: [NaN] or an exact rational. *)
Inductive number : Type :=
| NaN
| Num (q : Q).

(** A settled promise. *)
Inductive promise (E A : Type) : Type :=
| Resolved (a : A)
| Rejected (e : E).
Arguments Resolved {E A} a.
Arguments Rejected {E A} e.

(** [ToBoolean] on numbers: [NaN], [+0] and [-0] are falsy. *)
Definition truthy (x : number) : bool :=
  match x with
  | NaN => false
  | Num q => negb (Qeq_bool q 0)
  end.

(** [a || b] on numbers. *)
Definition or_else (a b : number) : number :=
  if truthy a then a else b.

(** [Math.min(a, b)]: [NaN] as soon as one argument is. *)
Definition Math_min (a b : number) : number :=
  match a, b with
  | Num x, Num y => Num (Qmin x y)
  | _, _ => NaN
  end.

Definition sub (a b : number) : number :=
  match a, b with
  | Num x, Num y => Num (x - y)
  | _, _ => NaN
  end.

Definition add (a b : number) : number :=
  match a, b with
  | Num x, Num y => Num (x + y)
  | _, _ => NaN
  end.

Definition mul (a b : number) : number :=
  match a, b with
  | Num x, Num y => Num (x * y)
  | _, _ => NaN
  end.

Definition div (a b : number) : number :=
  match a, b with
  | Num x, Num y => if Qeq_bool y 0 then NaN else Num (x / y)
  | _, _ => NaN
  end.

(** [x > 0]; false on [NaN]. *)
Definition is_positive (x : number) : bool :=
  match x with
  | NaN => false
  | Num q => negb (Qle_bool q 0)
  end.

(** [Number(x.toFixed(2))].  [toFixed] prints ["NaN"] for [NaN] and the
    plain decimal expansion of [x] at and above [10^21]; below, with
    the sign set apart, it prints [n / 100] for the integer [n] that
    makes [n / 100 - x] closest to zero, the larger [n] when two are
    equally close. *)
Definition toFixed2 (x : number) : number :=
  match x with
  | NaN => NaN
  | Num q =>
      if Qle_bool 1000000000000000000000 (Qabs q) then Num q
      else
        let n := Qfloor (Qabs q * 100 + (1 # 2)) in
        if Qle_bool 0 q then Num (inject_Z n / 100)
        else Num (- (inject_Z n / 100))
  end.

(** [Array.prototype.sort(compare)] as a stable insertion sort: [a]
    goes after [b] when [compare(a, b) > 0]. *)
Section Sort.
Context {A : Type} (compare : A -> A -> number).

Fixpoint insert (x : A) (l : list A) : list A :=
  match l with
  | [] => [x]
  | y :: l' =>
      if is_positive (compare x y) then y :: insert x l' else x :: l
  end.

Definition sort (l : list A) : list A := fold_right insert [] l.
End Sort.

(** Equality and order of numbers as values: [NaN] is only related to
    itself by [num_eq], and to nothing by [num_le]. *)
Definition num_eq (a b : number) : Prop :=
  match a, b with
  | NaN, NaN => True
  | Num x, Num y => x == y
  | _, _ => False
  end.


(** The numbers proper, and the rational a number stands for. *)
Definition is_num (x : number) : Prop :=
  match x with
  | NaN => False
  | Num _ => True
  end.

Definition val (x : number) : Q :=
  match x with
  | NaN => 0
  | Num q => q
  end.



End JS.

Import JS.

(** ** The fee estimator *)

Module Fee.

(** Modelled from the spec: [StatsUtil.getNthQuartileMedian] lives in
    [utils/stats], which is not part of the sources at hand.  The
    specification says of it: "partition into 4 quartiles; compute the
    median of the selected quartile".  The four quartiles are taken as
    the four consecutive runs of [floor(length / 4)] samples, and the
    median of a run is its middle sample, or the mean of the two middle
    samples of a run of even length.  An empty run has no median
    ([NaN]); so has a quartile index other than 1, 2, 3 or 4, about
    which the specification is silent. *)
Definition median (run : list number) : number :=
  let len := List.length run in
  match len with
  | O => NaN
  | _ =>
      if Nat.even len
      then div (add (nth (len / 2 - 1) run NaN) (nth (len / 2) run NaN)) (Num 2)
      else nth (len / 2) run NaN
  end.

(** Modelled from the spec: the quartile number [k + 1] of an array that
    is sorted already, as the run of [floor(length / 4)] samples that
    starts at the index [k * floor(length / 4)]. *)
Definition quartile (array : list number) (k : nat) : list number :=
  let quartileLength := (List.length array / 4)%nat in
  firstn quartileLength (skipn (k * quartileLength) array).

(** Modelled from the spec: [StatsUtil.getNthQuartileMedian(array, n)],
    "the median of the selected quartile", for [n] among 1, 2, 3 and 4. *)
Definition getNthQuartileMedian (array : list number) (n : number) : number :=
  match n with
  | NaN => NaN
  | Num q =>
      if Qeq_bool q 1 then median (quartile array 0)
      else if Qeq_bool q 2 then median (quartile array 1)
      else if Qeq_bool q 3 then median (quartile array 2)
      else if Qeq_bool q 4 then median (quartile array 3)
      else NaN
  end.

(** [let { network, target = 4 } = params]: the default applies to a
    [target] that is [undefined] ([None]) only. *)
Definition target_of (param : option number) : number :=
  match param with
  | None => Num 4
  | Some t => t
  end.

(** [Math.min(target, 4) || 1] *)
Definition whichQuartile (target : number) : number :=
  or_else (Math_min target (Num 4)) (Num 1).

(** The quartile [getFee] uses for the [target] found in [params]. *)
Definition selectedQuartile (param : option number) : number :=
  whichQuartile (target_of param).

(** [(a, b) => b - a] *)
Definition descending (a b : number) : number := sub b a.

(** [txs.map(tx => Number(tx.gasPrice)).filter(gasPrice => gasPrice)
       .sort((a, b) => b - a)]; a transaction is given by the number
    its [gasPrice] converts to. *)
Definition blockGasPrices (txs : list number) : list number :=
  sort descending (filter truthy txs).

(** Lines 134-136: from the quartile median to the fee rate, over the
    exact rationals; [Float64.medianToFeerate] below reads the same
    lines over doubles. *)
Definition feerateOfMedian (quartileMedian : number) : number :=
  let roundedGwei := toFixed2 (div quartileMedian (Num 1000000000)) in
  let gwei := or_else roundedGwei (Num 0) in
  mul gwei (Num 1000000000).

Record FeeEstimate : Type := { feerate : number; blocks : number }.

(** The refresh function [getFee] hands to the cache, on the
    transactions the query returned. *)
Definition getFee (param : option number) (txs : list number) : FeeEstimate :=
  let target := target_of param in
  let quartileMedian :=
    getNthQuartileMedian (blockGasPrices txs) (whichQuartile target) in
  {| feerate := feerateOfMedian quartileMedian; blocks := target |}.

(** The rounding the specification describes: the median cut down to a
    whole number of hundredths of a gwei ([10^7] base units). *)
Definition truncatedFeerate (quartileMedian : Q) : Q :=
  inject_Z (Qfloor (quartileMedian / 10000000)) * 10000000.

End Fee.

Import Fee.

(** ** Numbers as IEEE-754 doubles *)

Module Float64.

(** The binary64 format: 53 bits of precision, exponents below 1024. *)
Definition prec : Z := 53.
Definition emax : Z := 1024.

(** A JavaScript number, with its sign, mantissa and exponent, the two
    zeros, the two infinities and [NaN]. *)
Definition double : Type := spec_float.

(** The number [0]. *)
Definition zero : double := S754_zero false.

(** The number an integer literal stands for: the double nearest to it. *)
Definition of_Z (z : Z) : double := binary_normalize prec emax z 0 false.

(** [x + y], [x * y] and [x / y], each rounded to the nearest double,
    to the even one of two that are equally near. *)
Definition add (x y : double) : double := SFadd prec emax x y.
Definition mul (x y : double) : double := SFmul prec emax x y.
Definition div (x y : double) : double := SFdiv prec emax x y.

(** The rational a finite double stands for; [0] for the others. *)
Definition value (x : double) : Q :=
  match x with
  | S754_finite s m e =>
      let v := inject_Z (Z.pos m) * Qpower 2 e in
      if s then - v else v
  | _ => 0
  end.

(** [ToBoolean]: [NaN], [+0] and [-0] are falsy. *)
Definition truthy (x : double) : bool :=
  match x with
  | S754_zero _ | S754_nan => false
  | _ => true
  end.

(** [a || b] *)
Definition or_else (a b : double) : double := if truthy a then a else b.

(** The strings [toFixed(2)] returns: a sign and the decimal expansion
    of [n / 100] with two decimals, or the string of a number as
    [ToString] prints it. *)
Inductive Fixed : Type :=
| Hundredths (negative : bool) (n : Z)
| Literal (x : double).

(** [x.toFixed(2)].  A number that is not finite is printed by
    [ToString].  Otherwise the sign of a negative [x] is set apart; at
    and above [10^21] the number is printed by [ToString]; below, the
    digits are those of the integer [n] for which [n / 100 - x] is as
    close to zero as possible, the larger [n] when there are two. *)
Definition toFixed2 (x : double) : Fixed :=
  match x with
  | S754_zero _ => Hundredths false 0
  | S754_finite s _ _ =>
      if Qle_bool 1000000000000000000000 (Qabs (value x)) then Literal x
      else Hundredths s (Qfloor (Qabs (value x) * 100 + (1 # 2)))
  | _ => Literal x
  end.

(** The double nearest to the fraction [p / q], with the sign given. *)
Definition nearest (negative : bool) (p q : positive) : double :=
  let '(mz, ez, lz) := SFdiv_core_binary prec emax (Z.pos p) 0 (Z.pos q) 0 in
  binary_round_aux prec emax negative mz ez lz.

(** [Number(s)] on the strings of [toFixed2]: the double nearest to the
    decimal, a zero of the same sign for ["0.00"] and ["-0.00"], and
    the number itself for a string of [ToString], which reads back as
    the number it was printed from.  (For a decimal of more than twenty
    significant digits the language lets an engine round the decimal to
    twenty digits first; the nearest double is what V8 returns.) *)
Definition Number (s : Fixed) : double :=
  match s with
  | Literal x => x
  | Hundredths negative (Z.pos n) => nearest negative n 100
  | Hundredths negative _ => S754_zero negative
  end.

(** [1e9] *)
Definition giga : double := of_Z 1000000000.

(** Lines 134-136 of [getFee], from the quartile median to the fee
    rate:
    [roundedGwei = (quartileMedian / 1e9).toFixed(2)],
    [gwei = Number(roundedGwei) || 0], [feerate = gwei * 1e9]. *)
Definition medianToFeerate (quartileMedian : double) : double :=
  let roundedGwei := toFixed2 (div quartileMedian giga) in
  let gwei := or_else (Number roundedGwei) zero in
  mul gwei giga.

(** The sum of an array of numbers as a [reduce] from [0] adds it up:
    from the left, every partial sum rounded to a double. *)
Definition sum (l : list double) : double := fold_left add l zero.

End Float64.

(** ** The token transfer stage of the enrichment pipeline *)

Module Effect.
(** An entry of [tx.effects]; [contractAddress] is an optional
    property. *)
Record t : Type := {
  contractAddress : option string;
  from : string;
  to : string;
  amount : string
}.
End Effect.

Module Erc20.

Section Transform.
(** [Other] gathers the properties of a transaction record that the
    stage does not read; [Number] is the conversion of an effect's
    amount, a string, to a number. *)
Variable Other : Type.
Variable Number : string -> number.

(** [MongoBound<IEVMTransactionInProcess>], the record the stage
    receives. *)
Record Transaction : Type := {
  from : string;
  to : string;
  value : number;
  effects : option (list Effect.t);
  other : Other
}.

(** [IEVMTransactionTransformed], the record the stage pushes:
    [initialFrom] is an optional property. *)
Record Transformed : Type := {
  t_from : string;
  t_to : string;
  t_value : number;
  t_effects : option (list Effect.t);
  t_other : Other;
  initialFrom : option string
}.

(** [Object.assign({}, tx)]: every property of [tx], by reference. *)
Definition assign (tx : Transaction) : Transformed :=
  {| t_from := from tx; t_to := to tx; t_value := value tx;
     t_effects := effects tx; t_other := other tx; initialFrom := None |}.

Definition set_value (v : number) (x : Transformed) : Transformed :=
  {| t_from := t_from x; t_to := t_to x; t_value := v;
     t_effects := t_effects x; t_other := t_other x;
     initialFrom := initialFrom x |}.

Definition set_to (a : string) (x : Transformed) : Transformed :=
  {| t_from := t_from x; t_to := a; t_value := t_value x;
     t_effects := t_effects x; t_other := t_other x;
     initialFrom := initialFrom x |}.

Definition set_from (a : string) (x : Transformed) : Transformed :=
  {| t_from := a; t_to := t_to x; t_value := t_value x;
     t_effects := t_effects x; t_other := t_other x;
     initialFrom := initialFrom x |}.

Definition set_initialFrom (a : string) (x : Transformed) : Transformed :=
  {| t_from := t_from x; t_to := t_to x; t_value := t_value x;
     t_effects := t_effects x; t_other := t_other x;
     initialFrom := Some a |}.

(** [effect.contractAddress === this.tokenAddress] *)
Definition isTokenRelated (tokenAddress : string) (effect : Effect.t) : bool :=
  match Effect.contractAddress effect with
  | Some c => String.eqb c tokenAddress
  | None => false
  end.

(** The body of the [for] loop, up to the [push]. *)
Definition transferOf (tx : Transaction) (internalTx : Effect.t) : Transformed :=
  let _tx := assign tx in
  let _tx := set_value (Number (Effect.amount internalTx)) _tx in
  let _tx := set_to (Effect.to internalTx) _tx in
  let _tx := set_from (Effect.from internalTx) _tx in
  if negb (String.eqb (Effect.from internalTx) (from tx))
  then set_initialFrom (from tx) _tx
  else _tx.

(** [this.push(_tx)] on the readable side of the stream. *)
Definition push (readable : list Transformed) (_tx : Transformed) :
  list Transformed :=
  readable ++ [_tx].

(** [_transform(tx, _, done)]: the readable side after the call. *)
Definition _transform (tokenAddress : string) (tx : Transaction)
  (readable : list Transformed) : list Transformed :=
  match effects tx with
  | Some txEffects =>
      if (0 <? List.length txEffects)%nat then
        let tokenRelatedInternalTxs :=
          filter (isTokenRelated tokenAddress) txEffects in
        fold_left (fun r internalTx => push r (transferOf tx internalTx))
                  tokenRelatedInternalTxs readable
      else readable
  | None => readable
  end.

(** What the specification asks of an emitted record [out], for the
    transaction [tx] and its effect [e]. *)
Definition TransferRecord (tx : Transaction) (e : Effect.t) (out : Transformed) :
  Prop :=
  t_value out = Number (Effect.amount e)
  /\ t_to out = Effect.to e
  /\ t_from out = Effect.from e
  /\ t_effects out = effects tx
  /\ t_other out = other tx
  /\ (Effect.from e <> from tx -> initialFrom out = Some (from tx))
  /\ (Effect.from e = from tx -> initialFrom out = None).

(** [Emitted T tx es outs]: [outs] holds one record per effect of [es]
    whose contract address is [T], in the order of [es], and nothing
    else. *)
Inductive Emitted (T : string) (tx : Transaction) :
  list Effect.t -> list Transformed -> Prop :=
| Emitted_nil : Emitted T tx [] []
| Emitted_match e es out outs :
    Effect.contractAddress e = Some T ->
    TransferRecord tx e out ->
    Emitted T tx es outs ->
    Emitted T tx (e :: es) (out :: outs)
| Emitted_skip e es outs :
    Effect.contractAddress e <> Some T ->
    Emitted T tx es outs ->
    Emitted T tx (e :: es) outs.

(** The effects of a record, none when the property is missing. *)
Definition effectsOf (tx : Transaction) : list Effect.t :=
  match effects tx with
  | Some es => es
  | None => []
  end.

End Transform.

Arguments from {Other} _.
Arguments to {Other} _.
Arguments value {Other} _.
Arguments effects {Other} _.
Arguments other {Other} _.
Arguments t_from {Other} _.
Arguments t_to {Other} _.
Arguments t_value {Other} _.
Arguments t_effects {Other} _.
Arguments t_other {Other} _.
Arguments initialFrom {Other} _.
Arguments _transform {Other} Number tokenAddress tx readable.
Arguments transferOf {Other} Number tx internalTx.
Arguments TransferRecord {Other} Number tx e out.
Arguments Emitted {Other} Number T tx _ _.
Arguments effectsOf {Other} tx.

End Erc20.

(** ** Values, errors and asynchronous computations *)

Module Async.

(** The values a loosely typed parameter may hold. *)
Inductive value : Type :=
| Undefined
| Null
| Bool (b : bool)
| Numeric (n : number)
| Str (s : string).

(** [typeof v === 'string'] *)
Definition typeof_string (v : value) : bool :=
  match v with
  | Str _ => true
  | _ => false
  end.

(** [!s] for a property that holds a string when it is there: a missing
    property and the empty string are falsy. *)
Definition not_string (s : option string) : bool :=
  match s with
  | None => true
  | Some EmptyString => true
  | Some _ => false
  end.

(** An error object: its message and, for the errors of the document
    store, its numeric [code]. *)
Record error : Type := { message : string; code : option Z }.

(** [new Error(message)] *)
Definition Error (msg : string) : error := {| message := msg; code := None |}.

(** [err.code !== c] *)
Definition code_is_not (err : error) (c : Z) : bool :=
  match code err with
  | Some c' => negb (c' =? c)%Z
  | None => true
  end.

(** An asynchronous computation over a state [S]: it settles and leaves
    the state changed. *)
Definition async (S A : Type) : Type := S -> promise error A * S.

Definition ret {S A : Type} (a : A) : async S A :=
  fun s => (Resolved a, s).

Definition throw {S A : Type} (e : error) : async S A :=
  fun s => (Rejected e, s).

(** [await c] followed by [k]. *)
Definition bind {S A B : Type} (c : async S A) (k : A -> async S B) : async S B :=
  fun s =>
    match c s with
    | (Resolved a, s') => k a s'
    | (Rejected e, s') => (Rejected e, s')
    end.

(** [try { c } catch (err) { handler(err) }] *)
Definition try_catch {S A : Type} (c : async S A) (handler : error -> async S A) :
  async S A :=
  fun s =>
    match c s with
    | (Resolved a, s') => (Resolved a, s')
    | (Rejected e, s') => handler e s'
    end.

(** [for (const x of xs) { body(x) }], with an [await] in the body. *)
Fixpoint for_of {S A : Type} (xs : list A) (body : A -> async S unit) :
  async S unit :=
  match xs with
  | [] => ret tt
  | x :: xs' => bind (body x) (fun _ => for_of xs' body)
  end.

(** ASCII [toLowerCase]. *)
Definition lower_ascii (c : Ascii.ascii) : Ascii.ascii :=
  let n := Ascii.nat_of_ascii c in
  if ((65 <=? n) && (n <=? 90))%nat then Ascii.ascii_of_nat (n + 32) else c.

Fixpoint toLowerCase (s : string) : string :=
  match s with
  | EmptyString => EmptyString
  | String c s' => String (lower_ascii c) (toLowerCase s')
  end.

End Async.

Import Async.

Declare Scope async_scope.
Delimit Scope async_scope with async.
Notation "x <- c ;; k" := (bind c (fun x => k))
  (at level 61, c at next level, right associativity) : async_scope.
Notation "c ;;; k" := (bind c (fun _ => k))
  (at level 61, right associativity) : async_scope.

(** ** Transactions by id and by block *)

Module Transactions.

(** A transaction receipt, as far as the provider reads it. *)
Record Receipt : Type := { gasUsed : number }.

Section Provider.
(** [Store] is the state of the document store and of the remote node;
    [Other] the properties of a transaction record the provider does not
    read; [JSONTx] the record [_apiTransform] produces; [Block] the
    record of a block. *)
Variables Store Other JSONTx Block : Type.

Record Tx : Type := {
  _id : string;
  txid : string;
  tx_network : string;
  blockHeight : option Z;
  gasPrice : number;
  receipt : option Receipt;
  fee : option number;
  effects : option (list Effect.t);
  other : Other
}.

(** What the provider writes: the console and the stores. *)
Record World : Type := { console : list error; store : Store }.

Definition on_store {A : Type} (c : async Store A) : async World A :=
  fun w =>
    let (r, s) := c (store w) in
    (r, {| console := console w; store := s |}).

(** [console.error(err)] *)
Definition console_error (err : error) : async World unit :=
  fun w => (Resolved tt, {| console := console w ++ [err]; store := store w |}).

(** The collaborators: the block and transaction collections, the
    remote node, and the functions of [EVMTransactionStorage] and
    [Storage] that shape and stream records. *)
Variable height : Block -> Z.
Variable getLocalTip : option string -> option string -> async Store (option Block).
Variable getReceipt : string -> string -> async Store (option Receipt).
Variable updateOne : string -> Receipt -> number -> async Store unit.
Variable getEffects : Tx -> list Effect.t.
Variable _apiTransform : Tx -> JSONTx.

Record StreamTransactionParams : Type := {
  chain : option string;
  network : option string;
  txId : value
}.

Record TxQuery : Type := { q_chain : string; q_network : string; q_txid : string }.

Variable findOne : TxQuery -> async Store (option Tx).

(** [{ ...convertedTx, confirmations }] *)
Record ApiTx : Type := { convertedTx : JSONTx; confirmations : Z }.

Definition set_receipt (r : Receipt) (f : number) (tx : Tx) : Tx :=
  {| _id := _id tx; txid := txid tx; tx_network := tx_network tx;
     blockHeight := blockHeight tx; gasPrice := gasPrice tx;
     receipt := Some r; fee := Some f; effects := effects tx;
     other := other tx |}.

Definition set_effects (es : list Effect.t) (tx : Tx) : Tx :=
  {| _id := _id tx; txid := txid tx; tx_network := tx_network tx;
     blockHeight := blockHeight tx; gasPrice := gasPrice tx;
     receipt := receipt tx; fee := fee tx; effects := Some es;
     other := other tx |}.

Definition populateReceipt (tx : Tx) : async Store Tx :=
  match receipt tx with
  | Some _ => ret tx
  | None =>
      (r <- getReceipt (tx_network tx) (txid tx) ;;
       match r with
       | Some r =>
           let fee := mul (gasUsed r) (gasPrice tx) in
           updateOne (_id tx) r fee ;;;
           ret (set_receipt r fee tx)
       | None => ret tx
       end)%async
  end.

Definition populateEffects (tx : Tx) : Tx :=
  match effects tx with
  | None | Some [] => set_effects (getEffects tx) tx
  | Some _ => tx
  end.

(** [tip ? tip.height : 0] *)
Definition tipHeightOf (tip : option Block) : Z :=
  match tip with
  | Some b => height b
  | None => 0
  end.

(** Lines 211-214 of [getTransaction]: [found.blockHeight] must be
    truthy and at least 0. *)
Definition confirmationsOfFound (tipHeight : Z) (found : Tx) : Z :=
  match blockHeight found with
  | Some h =>
      if negb (h =? 0)%Z && (0 <=? h)%Z then (tipHeight - h + 1)%Z else 0%Z
  | None => 0%Z
  end.

(** [typeof txId !== 'string' || !chain || !network] *)
Definition missingRequired (params : StreamTransactionParams) : bool :=
  negb (typeof_string (txId params))
  || not_string (chain params) || not_string (network params).

(** The three required parameters, when the test above lets the call
    through. *)
Definition required (params : StreamTransactionParams) :
  option (string * string * string) :=
  if missingRequired params then None
  else
    match chain params, network params, txId params with
    | Some chain, Some network, Str txId => Some (chain, network, txId)
    | _, _, _ => None
    end.

Definition getTransaction (params : StreamTransactionParams) :
  async World (option ApiTx) :=
  try_catch
    (match required params with
     | None => throw (Error "Missing required param")
     | Some (chain', network', txId') =>
         (let network' := toLowerCase network' in
          let query :=
            {| q_chain := chain'; q_network := network'; q_txid := txId' |} in
          tip <- on_store (getLocalTip (chain params) (network params)) ;;
          let tipHeight := tipHeightOf tip in
          found <- on_store (findOne query) ;;
          match found with
          | Some found =>
              let confirmations := confirmationsOfFound tipHeight found in
              found <- on_store (populateReceipt found) ;;
              let found := populateEffects found in
              let convertedTx := _apiTransform found in
              ret (Some {| convertedTx := convertedTx;
                           confirmations := confirmations |})
          | None => ret None
          end)%async
     end)
    (fun err => (console_error err ;;; ret None)%async).

(** *** [streamTransactions] *)

Record StreamTransactionsArgs : Type := {
  blockHash : option string;
  a_blockHeight : option value
}.

Record StreamTransactionsParams : Type := {
  s_chain : option string;
  s_network : option string;
  args : StreamTransactionsArgs
}.

Record StreamQuery : Type := {
  sq_chain : string;
  sq_network : string;
  sq_blockHeight : option number;
  sq_blockHash : option string
}.

Variable Number : value -> number.
Variable JSON_stringify : ApiTx -> string.
Variable apiStreamingFind :
  StreamQuery -> StreamTransactionsArgs -> (Tx -> string) -> async Store unit.

(** Lines 295-298 of [streamTransactions]: [t.blockHeight] must be
    defined and at least 0. *)
Definition confirmationsOfStreamed (tipHeight : Z) (t : Tx) : Z :=
  match blockHeight t with
  | Some h => if (0 <=? h)%Z then (tipHeight - h + 1)%Z else 0%Z
  | None => 0%Z
  end.

(** The function [streamTransactions] hands to [apiStreamingFind]; its
    back-fill of the effects is the body of [populateEffects]. *)
Definition streamedJSON (tipHeight : Z) (t : Tx) : string :=
  let confirmations := confirmationsOfStreamed tipHeight t in
  let t := populateEffects t in
  let convertedTx := _apiTransform t in
  JSON_stringify {| convertedTx := convertedTx; confirmations := confirmations |}.

Definition streamTransactions (params : StreamTransactionsParams) :
  async World unit :=
  match s_chain params, s_network params with
  | Some chain, Some network =>
      if not_string (Some chain) || not_string (Some network)
      then throw (Error "Missing chain or network")
      else
        (let query :=
           {| sq_chain := chain; sq_network := toLowerCase network;
              sq_blockHeight := option_map Number (a_blockHeight (args params));
              sq_blockHash := blockHash (args params) |} in
         tip <- on_store (getLocalTip (s_chain params) (s_network params)) ;;
         let tipHeight := tipHeightOf tip in
         on_store (apiStreamingFind query (args params) (streamedJSON tipHeight)))%async
  | _, _ => throw (Error "Missing chain or network")
  end.

End Provider.

Arguments blockHeight {Other} _.
Arguments confirmationsOfFound {Other} tipHeight found.
Arguments confirmationsOfStreamed {Other} tipHeight t.
Arguments Build_Tx {Other}.
Arguments console {Store} _.
Arguments store {Store} _.
Arguments Build_World {Store}.

End Transactions.

(** ** The wallet aggregator *)

Module Wallet.

Record Balance : Type := {
  confirmed : Float64.double;
  unconfirmed : Float64.double;
  balance : Float64.double
}.

(** A promise that has been issued, with the instant at which it
    settles. *)
Record Issued (A : Type) : Type := {
  settledAt : nat;
  outcome : promise error A
}.
Arguments settledAt {A} _.
Arguments outcome {A} _.

(** The rejection [Promise.all] sees first: the earliest one, and among
    rejections of the same instant the one of the promise that comes
    first in the array. *)
Fixpoint firstRejection {A : Type} (ps : list (Issued A)) : option (nat * error) :=
  match ps with
  | [] => None
  | p :: ps' =>
      match outcome p, firstRejection ps' with
      | Rejected e, Some (t, e') =>
          if (settledAt p <=? t)%nat then Some (settledAt p, e) else Some (t, e')
      | Rejected e, None => Some (settledAt p, e)
      | Resolved _, r => r
      end
  end.

Fixpoint fulfilled {A : Type} (ps : list (Issued A)) : list A :=
  match ps with
  | [] => []
  | p :: ps' =>
      match outcome p with
      | Resolved a => a :: fulfilled ps'
      | Rejected _ => fulfilled ps'
      end
  end.

(** [await Promise.all(ps)]: the values in the order of [ps], or the
    first rejection. *)
Definition Promise_all {A : Type} (ps : list (Issued A)) : promise error (list A) :=
  match firstRejection ps with
  | Some (_, e) => Rejected e
  | None => Resolved (fulfilled ps)
  end.

Section Aggregator.
(** [ObjectID] is the type of a wallet id and [Args] the type of
    [params.args]; [chain] is [this.chain]. *)
Variables ObjectID Args : Type.
Variable chain : string.

Record WalletAddress : Type := { address : string }.

Record GetWalletBalanceParams : Type := {
  network : string;
  wallet_id : option ObjectID;
  args : Args
}.

Record GetBalanceForAddressParams : Type := {
  b_chain : string;
  b_network : string;
  b_address : string;
  b_args : Args
}.

(** The collaborators: the wallet address collection and the balance
    reader.  A balance lookup is issued at once and settles later. *)
Variable getWalletAddresses : ObjectID -> promise error (list WalletAddress).
Variable getBalanceForAddress : GetBalanceForAddressParams -> Issued Balance.

(** The balances [getBalanceForAddress] builds from the number it has
    read (lines 158-159 and 162-163):
    [{ confirmed: numberBalance, unconfirmed: 0, balance: numberBalance }]. *)
Definition balancesOf (numberBalance : Float64.double) : Balance :=
  {| confirmed := numberBalance; unconfirmed := Float64.zero;
     balance := numberBalance |}.

(** The callback of [reduce]; [Number] is the identity on the numbers
    the balance reader returns. *)
Definition addBalance (prev cur : Balance) : Balance :=
  {| unconfirmed := Float64.add (unconfirmed prev) (unconfirmed cur);
     confirmed := Float64.add (confirmed prev) (confirmed cur);
     balance := Float64.add (balance prev) (balance cur) |}.

Definition lookupFor (params : GetWalletBalanceParams) (a : WalletAddress) :
  Issued Balance :=
  getBalanceForAddress
    {| b_chain := chain; b_network := network params;
       b_address := address a; b_args := args params |}.

Definition getWalletBalance (params : GetWalletBalanceParams) :
  promise error Balance :=
  match wallet_id params with
  | None =>
      Rejected (Error "Wallet balance can only be retrieved for wallets with the _id property")
  | Some id =>
      match getWalletAddresses id with
      | Rejected e => Rejected e
      | Resolved addresses =>
          let addressBalancePromises := map (lookupFor params) addresses in
          match Promise_all addressBalancePromises with
          | Rejected e => Rejected e
          | Resolved addressBalances =>
              Resolved
                (fold_left addBalance addressBalances
                   {| unconfirmed := Float64.zero; confirmed := Float64.zero;
                      balance := Float64.zero |})
          end
      end
  end.

End Aggregator.

Arguments network {ObjectID Args} _.
Arguments wallet_id {ObjectID Args} _.
Arguments args {ObjectID Args} _.
Arguments lookupFor {ObjectID Args} chain getBalanceForAddress params a.
Arguments getWalletBalance {ObjectID Args} chain getWalletAddresses
  getBalanceForAddress params.

End Wallet.

(** ** Broadcasting *)

Module Broadcast.

(** [rawTx]: a string or an array of strings. *)
Inductive RawTx : Type :=
| One (tx : string)
| Many (txs : list string).

(** The result: a transaction id or an array of ids. *)
Inductive TxIds : Type :=
| Id (txid : string)
| Ids (txids : list string).

Record BroadcastTransactionParams : Type := {
  network : string;
  rawTx : RawTx
}.

Section Provider.
(** [Node] is the state of the remote node and of the connections to
    it.  [sendSignedTransaction web3 tx] settles like the promise that
    is built around the call: with the transaction hash, or with the
    error of the node. *)
Variables Node Web3 : Type.
Variable getWeb3 : string -> async Node Web3.
Variable sendSignedTransaction : Web3 -> string -> async Node string.

(** The [for] loop: [txids] grows by one id per raw transaction. *)
Fixpoint sendAll (web3 : Web3) (rawTxs txids : list string) :
  async Node (list string) :=
  match rawTxs with
  | [] => ret txids
  | tx :: rawTxs' =>
      (txid <- sendSignedTransaction web3 tx ;;
       sendAll web3 rawTxs' (txids ++ [txid]))%async
  end.

Definition broadcastTransaction (params : BroadcastTransactionParams) :
  async Node TxIds :=
  (web3 <- getWeb3 (network params) ;;
   let rawTxs :=
     match rawTx params with
     | One tx => [tx]
     | Many txs => txs
     end in
   txids <- sendAll web3 rawTxs [] ;;
   ret (match txids with
        | [txid] => Id txid
        | _ => Ids txids
        end))%async.

(** [Sent web3 n txs ids n']: from the state [n], the node accepts the
    raw transactions [txs] one after the other, answers the ids [ids],
    in this order, and is left in the state [n']. *)
Inductive Sent (web3 : Web3) : Node -> list string -> list string -> Node -> Prop :=
| Sent_nil n : Sent web3 n [] [] n
| Sent_cons n tx txid n' txs ids n'' :
    sendSignedTransaction web3 tx n = (Resolved txid, n') ->
    Sent web3 n' txs ids n'' ->
    Sent web3 n (tx :: txs) (txid :: ids) n''.

End Provider.

Arguments broadcastTransaction {Node Web3} getWeb3 sendSignedTransaction params.
Arguments sendAll {Node Web3} sendSignedTransaction web3 rawTxs txids.
Arguments Sent {Node Web3} sendSignedTransaction web3 _ _ _ _.

End Broadcast.

(** ** Registration of wallet addresses *)

Module Registration.

(** A wallet id, by its hexadecimal string. *)
Abbreviation ObjectID := string.

(** A document of the wallet address collection. *)
Record WalletAddress : Type := {
  wa_chain : string;
  wa_network : string;
  wa_wallet : ObjectID;
  wa_address : string;
  processed : bool
}.

(** A document of the transaction collection, as a query sees it: the
    values found at a dotted path (several of them when the path goes
    through an array), and its [wallets] array. *)
Record Transaction : Type := {
  at_path : string -> list string;
  wallets : list ObjectID
}.

Record Store : Type := {
  walletAddresses : list WalletAddress;
  transactions : list Transaction
}.

(** [{ path: v }] and [{ path: { $in: vs } }] *)
Inductive Condition : Type :=
| Is (path : string) (v : string)
| OneOf (path : string) (vs : list string).

(** [{ $or: [ { condition, ... }, ... ] }] *)
Definition Query : Type := list (list Condition).

Definition holds (c : Condition) (d : Transaction) : bool :=
  match c with
  | Is path v => existsb (String.eqb v) (at_path d path)
  | OneOf path vs => existsb (fun x => existsb (String.eqb x) vs) (at_path d path)
  end.

Definition matches (q : Query) (d : Transaction) : bool :=
  existsb (forallb (fun c => holds c d)) q.

(** [$addToSet] on an array: the value is appended unless the array
    holds it. *)
Definition addToSet (id : ObjectID) (ws : list ObjectID) : list ObjectID :=
  if existsb (String.eqb id) ws then ws else ws ++ [id].

Definition set_wallets (ws : list ObjectID) (d : Transaction) : Transaction :=
  {| at_path := at_path d; wallets := ws |}.

(** One document under [updateMany(q, { $addToSet: { wallets: id } })]. *)
Definition tag (q : Query) (id : ObjectID) (d : Transaction) : Transaction :=
  if matches q d then set_wallets (addToSet id (wallets d)) d else d.

Definition updateMany_addToSet (q : Query) (id : ObjectID) : async Store unit :=
  fun s =>
    (Resolved tt,
     {| walletAddresses := walletAddresses s;
        transactions := map (tag q id) (transactions s) |}).

(** One document under [updateMany({ chain, network, address: { $in:
    batch }, wallet }, { $set: { processed: true } })]. *)
Definition markProcessed (chain network : string) (batch : list string)
  (id : ObjectID) (w : WalletAddress) : WalletAddress :=
  if String.eqb (wa_chain w) chain && String.eqb (wa_network w) network
     && existsb (String.eqb (wa_address w)) batch && String.eqb (wa_wallet w) id
  then {| wa_chain := wa_chain w; wa_network := wa_network w;
          wa_wallet := wa_wallet w; wa_address := wa_address w;
          processed := true |}
  else w.

Definition updateMany_processed (chain network : string) (batch : list string)
  (id : ObjectID) : async Store unit :=
  fun s =>
    (Resolved tt,
     {| walletAddresses := map (markProcessed chain network batch id) (walletAddresses s);
        transactions := transactions s |}).

Definition on_walletAddresses {A : Type} (c : async (list WalletAddress) A) :
  async Store A :=
  fun s =>
    let (r, c') := c (walletAddresses s) in
    (r, {| walletAddresses := c'; transactions := transactions s |}).

Record UpdateWalletParams : Type := {
  chain : string;
  network : string;
  wallet_id : ObjectID;
  addresses : list string
}.

(** The [insertOne] operations of a batch. *)
Definition walletAddressInserts (params : UpdateWalletParams)
  (addressBatch : list string) : list WalletAddress :=
  map (fun address =>
         {| wa_chain := chain params; wa_network := network params;
            wa_wallet := wallet_id params; wa_address := address;
            processed := false |})
      addressBatch.

(** The filter of the transactions a batch of addresses takes part in. *)
Definition relatedTransactions (params : UpdateWalletParams)
  (addressBatch : list string) : Query :=
  let chain := Is "chain" (chain params) in
  let network := Is "network" (network params) in
  let addressBatchLC := map toLowerCase addressBatch in
  [ [chain; network; OneOf "from" addressBatch];
    [chain; network; OneOf "to" addressBatch];
    [chain; network; OneOf "internal.action.to" addressBatchLC];
    [chain; network; OneOf "calls.to" addressBatchLC];
    [chain; network;
     Is "calls.abiType.type" "ERC20";
     OneOf "calls.abiType.name" ["transfer"; "transferFrom"]%string;
     Is "calls.abiType.params.type" "address";
     OneOf "calls.abiType.params.value" addressBatchLC];
    [OneOf "effects.to" addressBatchLC];
    [OneOf "effects.from" addressBatchLC] ].

(** A transaction document after the [updateMany] of every batch. *)
Definition tagAll (params : UpdateWalletParams) (batches : list (list string))
  (d : Transaction) : Transaction :=
  fold_left (fun d b => tag (relatedTransactions params b) (wallet_id params) d)
            batches d.

Section UpdateWallet.
(** [partition] is the function of [utils/partition]; [bulkWrite] is the
    ordered bulk write of the wallet address collection. *)
Variable partition : list string -> nat -> list (list string).
Variable bulkWrite : list WalletAddress -> async (list WalletAddress) unit.

(** The body of the loop over the batches. *)
Definition registerBatch (params : UpdateWalletParams)
  (addressBatch : list string) : async Store unit :=
  (try_catch
     (on_walletAddresses (bulkWrite (walletAddressInserts params addressBatch)))
     (fun err => if code_is_not err 11000 then throw err else ret tt) ;;;
   updateMany_addToSet (relatedTransactions params addressBatch) (wallet_id params) ;;;
   updateMany_processed (chain params) (network params) addressBatch
     (wallet_id params))%async.

Definition updateWallet (params : UpdateWalletParams) : async Store unit :=
  let addressBatches := partition (addresses params) 500 in
  for_of addressBatches (registerBatch params).

(** The store once the two [updateMany] calls of a batch have gone
    through, [collection] being the wallet addresses its bulk write has
    left behind. *)
Definition batchDone (params : UpdateWalletParams) (addressBatch : list string)
  (collection : list WalletAddress) (s : Store) : Store :=
  {| walletAddresses :=
       map (markProcessed (chain params) (network params) addressBatch
              (wallet_id params))
           collection;
     transactions :=
       map (tag (relatedTransactions params addressBatch) (wallet_id params))
           (transactions s) |}.

(** [Registered params s batches s']: starting from the store [s], the
    bulk write of each of [batches] in turn has gone through or has
    failed with the code 11000, and [s'] is the store behind the last
    of them. *)
Inductive Registered (params : UpdateWalletParams) :
  Store -> list (list string) -> Store -> Prop :=
| Registered_none (s : Store) : Registered params s [] s
| Registered_batch (s : Store) (addressBatch : list string)
    (written : promise error unit) (collection : list WalletAddress)
    (batches : list (list string)) (s' : Store) :
    bulkWrite (walletAddressInserts params addressBatch) (walletAddresses s)
    = (written, collection) ->
    (forall err, written = Rejected err -> code err = Some 11000%Z) ->
    Registered params (batchDone params addressBatch collection s) batches s' ->
    Registered params s (addressBatch :: batches) s'.

End UpdateWallet.

(** The error of the document store for a write that breaks a unique
    index. *)
Definition duplicateKey : error :=
  {| message := "E11000 duplicate key error collection"; code := Some 11000%Z |}.

(** Modelled from the spec: the key of the unique index, by which two
    documents are the same registration of an address. *)
Definition sameKey (a b : WalletAddress) : bool :=
  String.eqb (wa_chain a) (wa_chain b) && String.eqb (wa_network a) (wa_network b)
  && String.eqb (wa_wallet a) (wa_wallet b)
  && String.eqb (wa_address a) (wa_address b).

(** Modelled from the spec: the collection of wallet addresses and its
    index are declared in [models/walletAddress], which is not part of
    the sources at hand.  The specification speaks of "bulk idempotent
    upserts for wallet-address registration (duplicate-key outcomes are
    treated as success, not failure)": a wallet holds an address of a
    chain and network once, and the ordered bulk write stops with the
    duplicate key error at the first document that is already there. *)
Fixpoint uniqueBulkWrite (docs : list WalletAddress) :
  async (list WalletAddress) unit :=
  match docs with
  | [] => ret tt
  | d :: docs' =>
      fun collection =>
        if existsb (sameKey d) collection
        then (Rejected duplicateKey, collection)
        else uniqueBulkWrite docs' (collection ++ [d])
  end.

End Registration.

(** ** Blocks *)

Module Blocks.

Section Provider.
(** [Store] is the state of the document store; [Other] the properties
    of a block record the provider does not read; [JSONBlock] the record
    [EVMBlockStorage._apiTransform] produces; [Params] the parameters of
    the call; [BlockQuery], [Sort], [Options] and [Cursor] belong to the
    block collection. *)
Variables Store Other JSONBlock Params BlockQuery Sort Options Cursor : Type.

(** [IEVMBlock] *)
Record Block : Type := { height : Z; other : Other }.

(** The collaborators: [getBlocksQuery] of the provider this one
    extends, the cursor of the block collection, the local tip and the
    shaping of a block. *)
Variable getBlocksQuery : Params -> BlockQuery * Options.
Variable options_sort : Options -> option Sort.
Variable find : BlockQuery -> Options -> Cursor.
Variable sort : Sort -> Cursor -> Cursor.
Variable toArray : Cursor -> async Store (list Block).
Variable getLocalTip : Params -> async Store (option Block).
Variable _apiTransform : Block -> JSONBlock.

(** [{ ...convertedBlock, confirmations }] *)
Record ApiBlock : Type := { convertedBlock : JSONBlock; confirmations : Z }.

(** [blockTransform]: [b.height] must be truthy and at least 0. *)
Definition blockTransform (tipHeight : Z) (b : Block) : ApiBlock :=
  let confirmations :=
    if negb (height b =? 0)%Z && (0 <=? height b)%Z
    then (tipHeight - height b + 1)%Z
    else 0%Z in
  {| convertedBlock := _apiTransform b; confirmations := confirmations |}.

Definition getBlocks (params : Params) : async Store (list ApiBlock) :=
  let (query, options) := getBlocksQuery params in
  let cursor := find query options in
  let cursor :=
    match options_sort options with
    | Some by_ => sort by_ cursor
    | None => cursor
    end in
  (blocks <- toArray cursor ;;
   tip <- getLocalTip params ;;
   let tipHeight := match tip with Some b => height b | None => 0%Z end in
   ret (map (blockTransform tipHeight) blocks))%async.

End Provider.

Arguments height {Other} _.
Arguments convertedBlock {JSONBlock} _.
Arguments confirmations {JSONBlock} _.

End Blocks.

(** ** The token stage over a stream of records *)

Module Pipeline.

(** The readable side of the stage after the records [txs] have been
    written to it, one after the other: the stream calls [_transform]
    for a record when the call for the record before has called
    [done]. *)
Definition writeAll {Other : Type} (Number : string -> number)
  (tokenAddress : string) (txs : list (Erc20.Transaction Other))
  (readable : list (Erc20.Transformed Other)) : list (Erc20.Transformed Other) :=
  fold_left (fun r tx => Erc20._transform Number tokenAddress tx r) txs readable.

End Pipeline.

(** ** The transactions of a wallet *)

Module WalletQuery.

(** [args] of [getWalletTransactionQuery]: every property is optional.
    Block heights are integers and dates are strings. *)
Record StreamWalletTransactionsArgs : Type := {
  startBlock : option Z;
  endBlock : option Z;
  startDate : option string;
  endDate : option string;
  includeMempool : option bool;
  includeInvalidTxs : option bool
}.

(** [{ $gte?, $lte? }] on [blockHeight] *)
Record BlockRange : Type := { gte : option Z; lte : option Z }.

(** A clause of [$or]: [{ blockHeight: h }] or
    [{ blockHeight: blockRangeQuery }]. *)
Inductive Clause : Type :=
| HeightIs (h : Z)
| HeightIn (r : BlockRange).

(** [{ $gte?, $lt? }] on [blockTimeNormalized], dates by their time
    value. *)
Record TimeRange : Type := { t_gte : option Z; t_lt : option Z }.

(** The query: [chain], [network], [wallets] and ['wallets.0'] are always
    there; [blockHeight: { $gt: h }], [$or] and [blockTimeNormalized] are
    optional. *)
Record Query : Type := {
  chain : string;
  network : string;
  wallets : string;
  wallets_0_exists : bool;
  blockHeight_gt : option Z;
  or : option (list Clause);
  blockTimeNormalized : option TimeRange
}.

(** Truthiness of an optional number, string and boolean. *)
Definition truthyZ (x : option Z) : bool :=
  match x with
  | Some z => negb (z =? 0)%Z
  | None => false
  end.

Definition truthyString (x : option string) : bool :=
  match x with
  | Some s => negb (String.eqb s "")
  | None => false
  end.

Definition truthyBool (x : option bool) : bool :=
  match x with
  | Some b => b
  | None => false
  end.

Section Provider.
(** [pending] is [SpentHeightIndicators.pending]; [getTime s] is
    [new Date(s).getTime()], [None] for an invalid date. *)
Variable pending : Z.
Variable getTime : string -> option Z.

(** The value [Number(x)] of a truthy optional number. *)
Definition numberOf (x : option Z) : Z :=
  match x with
  | Some z => z
  | None => 0
  end.

(** The [if (args.startDate)] block. *)
Definition withStartDate (args : StreamWalletTransactionsArgs)
  (time : option TimeRange) : option TimeRange :=
  if truthyString (startDate args) then
    match startDate args with
    | Some s =>
        if truthyZ (getTime s)
        then Some {| t_gte := getTime s; t_lt := None |}
        else time
    | None => time
    end
  else time.

(** The [if (args.endDate)] block. *)
Definition withEndDate (args : StreamWalletTransactionsArgs)
  (time : option TimeRange) : option TimeRange :=
  if truthyString (endDate args) then
    match endDate args with
    | Some s =>
        if truthyZ (getTime s)
        then
          let range :=
            match time with
            | Some r => r
            | None => {| t_gte := None; t_lt := None |}
            end in
          Some {| t_gte := t_gte range; t_lt := getTime s |}
        else time
    | None => time
    end
  else time.

Definition getWalletTransactionQuery (chain network wallet_id : string)
  (args : option StreamWalletTransactionsArgs) : Query :=
  let query :=
    {| chain := chain; network := network; wallets := wallet_id;
       wallets_0_exists := true; blockHeight_gt := Some (-3)%Z;
       or := None; blockTimeNormalized := None |} in
  match args with
  | None => query
  | Some args =>
      let query :=
        if truthyZ (startBlock args) || truthyZ (endBlock args) then
          let mempool :=
            if truthyBool (includeMempool args) then [HeightIs pending] else [] in
          let blockRangeQuery :=
            {| gte := if truthyZ (startBlock args)
                      then Some (numberOf (startBlock args)) else None;
               lte := if truthyZ (endBlock args)
                      then Some (numberOf (endBlock args)) else None |} in
          {| chain := chain; network := network; wallets := wallet_id;
             wallets_0_exists := true; blockHeight_gt := blockHeight_gt query;
             or := Some (mempool ++ [HeightIn blockRangeQuery]);
             blockTimeNormalized := None |}
        else
          {| chain := chain; network := network; wallets := wallet_id;
             wallets_0_exists := true; blockHeight_gt := blockHeight_gt query;
             or := None;
             blockTimeNormalized := withEndDate args (withStartDate args None) |} in
      if truthyBool (includeInvalidTxs args)
      then {| chain := WalletQuery.chain query; network := WalletQuery.network query;
              wallets := wallets query; wallets_0_exists := wallets_0_exists query;
              blockHeight_gt := None; or := or query;
              blockTimeNormalized := blockTimeNormalized query |}
      else query
  end.

End Provider.

(** A transaction document, as the query reads it. *)
Record Document : Type := {
  d_chain : string;
  d_network : string;
  d_wallets : list string;
  d_blockHeight : Z;
  d_blockTimeNormalized : Z
}.

Definition inRange (r : BlockRange) (h : Z) : bool :=
  match gte r with Some a => (a <=? h)%Z | None => true end
  && match lte r with Some b => (h <=? b)%Z | None => true end.

Definition holds (c : Clause) (d : Document) : bool :=
  match c with
  | HeightIs h => (d_blockHeight d =? h)%Z
  | HeightIn r => inRange r (d_blockHeight d)
  end.

Definition inTime (r : TimeRange) (t : Z) : bool :=
  match t_gte r with Some a => (a <=? t)%Z | None => true end
  && match t_lt r with Some b => (t <? b)%Z | None => true end.

(** The documents the store finds for a query. *)
Definition matches (q : Query) (d : Document) : bool :=
  String.eqb (d_chain d) (chain q)
  && String.eqb (d_network d) (network q)
  && existsb (String.eqb (wallets q)) (d_wallets d)
  && (if wallets_0_exists q
      then negb (Nat.eqb (List.length (d_wallets d)) 0)
      else Nat.eqb (List.length (d_wallets d)) 0)
  && match blockHeight_gt q with
     | Some h => (h <? d_blockHeight d)%Z
     | None => true
     end
  && match or q with
     | Some clauses => existsb (fun c => holds c d) clauses
     | None => true
     end
  && match blockTimeNormalized q with
     | Some r => inTime r (d_blockTimeNormalized d)
     | None => true
     end.

End WalletQuery.

(** The dates of [args] that reach the query, by their time value: a
    date is taken up when it is a non-empty string whose time value is a
    number other than 0. *)
Definition takenUp (getTime : string -> option Z) (date : option string) :
  option Z :=
  match date with
  | Some s =>
      if WalletQuery.truthyString (Some s) && WalletQuery.truthyZ (getTime s)
      then getTime s
      else None
  | None => None
  end.

(** ** Token transfers *)

Module Event.
(** [ERC20Transfer]: a [Transfer] event of a token contract, with its
    [returnValues] as a map from names to values. *)
Record t : Type := {
  blockHash : string;
  blockNumber : number;
  transactionHash : string;
  transactionIndex : number;
  returnValues : string -> option string
}.
End Event.

Module TokenTransfers.

(** The record [convertTokenTransfer] returns. *)
Record Transfer : Type := {
  blockHash : string;
  blockNumber : number;
  transactionHash : string;
  transactionIndex : number;
  hash : string;
  from : option string;
  to : option string;
  value : option string
}.

Definition convertTokenTransfer (transfer : Event.t) : Transfer :=
  {| blockHash := Event.blockHash transfer;
     blockNumber := Event.blockNumber transfer;
     transactionHash := Event.transactionHash transfer;
     transactionIndex := Event.transactionIndex transfer;
     hash := Event.transactionHash transfer;
     from := Event.returnValues transfer "_from";
     to := Event.returnValues transfer "_to";
     value := Event.returnValues transfer "_value" |}.

Definition convertTokenTransfers (tokenTransfers : list Event.t) : list Transfer :=
  map convertTokenTransfer tokenTransfers.

(** [new TypeError(message)], as [reduce] throws it. *)
Definition TypeError (msg : string) : error := {| message := msg; code := None |}.

(** [toBlock]: a block number or ['latest']. *)
Inductive ToBlock : Type :=
| Latest
| UpTo (n : Z).

(** [filter]: [{ _from: address }] or [{ _to: address }]. *)
Inductive Party : Type :=
| Sender (address : string)
| Recipient (address : string).

Record EventOptions : Type := {
  filter : Party;
  fromBlock : Z;
  toBlock : ToBlock
}.

(** [await Promise.all([a, b])] *)
Definition Promise_all2 {A B : Type} (a : Wallet.Issued A) (b : Wallet.Issued B) :
  promise error (A * B) :=
  match Wallet.outcome a, Wallet.outcome b with
  | Resolved x, Resolved y => Resolved (x, y)
  | Rejected e, Resolved _ => Rejected e
  | Resolved _, Rejected e => Rejected e
  | Rejected e, Rejected e' =>
      if (Wallet.settledAt a <=? Wallet.settledAt b)%nat
      then Rejected e else Rejected e'
  end.

Section Provider.
(** [Token] is a contract object and [ObjectID] the type of a wallet
    id.  The collaborators: [erc20For], which opens the contract, the
    [getPastEvents] of the contract, the wallet address collection, and
    [settles], the instant at which the transfers of an address are
    there. *)
Variables Token ObjectID : Type.
Variable erc20For : string -> string -> promise error Token.
Variable getPastEvents : Token -> EventOptions -> Wallet.Issued (list Event.t).
Variable getWalletAddresses : ObjectID -> promise error (list Wallet.WalletAddress).
Variable settles : string -> nat.

(** [args.startBlock || 0] and [args.endBlock || 'latest'], for the
    [args] of a call, [{}] when they are missing. *)
Definition fromBlockOf (args : option WalletQuery.StreamWalletTransactionsArgs) : Z :=
  match args with
  | Some a =>
      if WalletQuery.truthyZ (WalletQuery.startBlock a)
      then WalletQuery.numberOf (WalletQuery.startBlock a) else 0%Z
  | None => 0%Z
  end.

Definition toBlockOf (args : option WalletQuery.StreamWalletTransactionsArgs) :
  ToBlock :=
  match args with
  | Some a =>
      if WalletQuery.truthyZ (WalletQuery.endBlock a)
      then UpTo (WalletQuery.numberOf (WalletQuery.endBlock a)) else Latest
  | None => Latest
  end.

Definition getErc20Transfers (network address tokenAddress : string)
  (args : option WalletQuery.StreamWalletTransactionsArgs) :
  promise error (list Transfer) :=
  match erc20For network tokenAddress with
  | Rejected e => Rejected e
  | Resolved token =>
      match
        Promise_all2
          (getPastEvents token
             {| filter := Sender address; fromBlock := fromBlockOf args;
                toBlock := toBlockOf args |})
          (getPastEvents token
             {| filter := Recipient address; fromBlock := fromBlockOf args;
                toBlock := toBlockOf args |})
      with
      | Rejected e => Rejected e
      | Resolved (sent, received) =>
          Resolved (convertTokenTransfers (sent ++ received))
      end
  end.

(** [(tx1, tx2) => tx1.blockNumber! - tx2.blockNumber!] *)
Definition byBlockNumber (tx1 tx2 : Transfer) : number :=
  sub (blockNumber tx1) (blockNumber tx2).

(** [batches.reduce((agg, batch) => agg.concat(batch))]: without an
    initial value, [reduce] throws on an empty array. *)
Definition concatBatches (batches : list (list Transfer)) :
  promise error (list Transfer) :=
  match batches with
  | [] => Rejected (TypeError "Reduce of empty array with no initial value")
  | batch :: batches' =>
      Resolved (fold_left (fun agg batch => agg ++ batch) batches' batch)
  end.

Definition getWalletTokenTransactions (network : string) (walletId : ObjectID)
  (tokenAddress : string) (args : WalletQuery.StreamWalletTransactionsArgs) :
  promise error (list Transfer) :=
  match getWalletAddresses walletId with
  | Rejected e => Rejected e
  | Resolved addresses =>
      let allTokenQueries :=
        map (fun walletAddress =>
               {| Wallet.settledAt := settles (Wallet.address walletAddress);
                  Wallet.outcome :=
                    getErc20Transfers network (Wallet.address walletAddress)
                      tokenAddress (Some args) |})
            addresses in
      match Wallet.Promise_all allTokenQueries with
      | Rejected e => Rejected e
      | Resolved batches =>
          match concatBatches batches with
          | Rejected e => Rejected e
          | Resolved txs => Resolved (sort byBlockNumber txs)
          end
      end
  end.

End Provider.

End TokenTransfers.

(** ** Connections to the remote node *)

Module Connection.

Section Provider.
(** [Handle] is a connection, [{ rpc, web3 }]; [Provider] the
    configuration of an endpoint; [Node] the state of the remote nodes. *)
Variables Handle Provider Node : Type.

(** [BaseEVMStateProvider.rpcs]: by chain, then by network. *)
Definition Rpcs : Type := string -> option (string -> option Handle).

(** [rpcs[chain] && rpcs[chain][network]] *)
Definition cached (rpcs : Rpcs) (chain network : string) : option Handle :=
  match rpcs chain with
  | Some byNetwork => byNetwork network
  | None => None
  end.

(** [rpcs[chain][network] = handle], and [rpcs[chain] = { [network]:
    handle }] when the chain has no entry. *)
Definition store (rpcs : Rpcs) (chain network : string) (handle : Handle) : Rpcs :=
  fun c =>
    if String.eqb c chain then
      Some (fun n =>
              if String.eqb n network then Some handle
              else match rpcs chain with
                   | Some byNetwork => byNetwork n
                   | None => None
                   end)
    else rpcs c.

(** [delete rpcs[chain][network]], for a chain that has an entry. *)
Definition delete (rpcs : Rpcs) (chain network : string) : Rpcs :=
  fun c =>
    if String.eqb c chain then
      match rpcs chain with
      | Some byNetwork =>
          Some (fun n => if String.eqb n network then None else byNetwork n)
      | None => None
      end
    else rpcs c.

(** [this.config[network]]: [provider] and [providers] are optional. *)
Record NetworkConfig : Type := {
  provider : option Provider;
  providers : option (list Provider)
}.

(** The state the method works on: the connections, the remote nodes and
    the lines written by [logger.info]. *)
Record World : Type := {
  rpcs : Rpcs;
  node : Node;
  info : list string
}.

(** [chain] is [this.chain], [config] is [this.config] and [threadId] is
    [worker.threadId].  [getBlockNumber] is the probe of a connection;
    [newRpc providerConfig chain] is
    [new CryptoRpc({ ...providerConfig, chain, currencyConfig: {} }, {})
       .get(chain)]. *)
Variable chain : string.
Variable config : string -> option NetworkConfig.
Variable threadId : nat.
Variable getBlockNumber : Handle -> async Node nat.
Variable newRpc : option Provider -> string -> async Node Handle.

Definition on_node {A : Type} (c : async Node A) : async World A :=
  fun w =>
    let (r, n) := c (node w) in
    (r, {| rpcs := rpcs w; node := n; info := info w |}).

Definition set_rpcs (f : Rpcs -> Rpcs) : async World unit :=
  fun w => (Resolved tt, {| rpcs := f (rpcs w); node := node w; info := info w |}).

Definition logger_info (line : string) : async World unit :=
  fun w => (Resolved tt, {| rpcs := rpcs w; node := node w; info := info w ++ [line] |}).

Definition get_rpcs : async World Rpcs :=
  fun w => (Resolved (rpcs w), w).

(** [this.config[network].provider ||
     this.config[network].providers![providerIdx]], with
    [providerIdx = worker.threadId % (providers || []).length]: a
    missing [config[network]] and a missing [providers] behind a missing
    [provider] throw; an index that is not a number finds nothing. *)
Definition providerConfigOf (network : string) : promise error (option Provider) :=
  match config network with
  | None =>
      Rejected (TokenTransfers.TypeError "Cannot read properties of undefined (reading 'providers')")
  | Some c =>
      match provider c with
      | Some p => Resolved (Some p)
      | None =>
          match providers c with
          | None =>
              Rejected (TokenTransfers.TypeError "Cannot read properties of undefined")
          | Some ps =>
              match ps with
              | [] => Resolved None
              | _ => Resolved (nth_error ps (threadId mod List.length ps))
              end
          end
      end
  end.

Definition getWeb3 (network : string) : async World (option Handle) :=
  (try_catch
     (r <- get_rpcs ;;
      match cached r chain network with
      | Some handle => on_node (getBlockNumber handle) ;;; ret tt
      | None => ret tt
      end)
     (fun e => set_rpcs (fun r => delete r chain network)) ;;;
   r <- get_rpcs ;;
   match cached r chain network with
   | Some _ => ret tt
   | None =>
       logger_info ("Making a new connection for " ++ chain ++ ":" ++ network) ;;;
       match providerConfigOf network with
       | Rejected e => throw e
       | Resolved providerConfig =>
           rpc <- on_node (newRpc providerConfig chain) ;;
           set_rpcs (fun r => store r chain network rpc)
       end
   end ;;;
   r <- get_rpcs ;;
   ret (cached r chain network))%async.

End Provider.

Arguments rpcs {Handle Node} _.
Arguments node {Handle Node} _.
Arguments info {Handle Node} _.
Arguments cached {Handle} rpcs chain network.
Arguments provider {Provider} _.
Arguments providers {Provider} _.

End Connection.

(** ** Gas estimation *)

Module GasEstimate.

(** The [data] of a multisend call. *)
Record MultisendData : Type := {
  method : string;
  tokenAddress : string;
  addresses : string;
  amounts : string
}.

(** [params.data]: missing, a string, or an object whose [type] is
    ['MULTISEND']. *)
Inductive Data : Type :=
| NoData
| Hex (s : string)
| Multisend (m : MultisendData).

(** [if (data)] *)
Definition truthyData (data : Data) : bool :=
  match data with
  | NoData => false
  | Hex s => negb (String.eqb s "")
  | Multisend _ => true
  end.

(** The answer of the node to [eth_estimateGas]. *)
Record Response : Type := {
  result : option string;
  error_ : option error
}.

(** What the callback of [provider.send] receives: [err], or [data]. *)
Inductive Sent : Type :=
| Failed (err : error)
| Answered (data : Response).

(** The reason of a rejection: an error, or the answer of the node
    itself when it holds neither a result nor an error. *)
Inductive Reason : Type :=
| Thrown (e : error)
| NoResult (data : Response).

(** How the promise of [estimateGas] settles. *)
Inductive Outcome : Type :=
| Resolve (gas : number)
| Reject (reason : Reason).

Section Provider.
(** [V] is the type of [params.value]; [Web3], [Contract] and [Method]
    are objects of the web3 library; [Decoded] is a decoded array
    parameter; [Node] is the state of the remote node. *)
Variables V Web3 Contract Method Decoded Node : Type.

Record Params : Type := {
  network : string;
  value : V;
  from : option string;
  data : Data;
  to : option string
}.

(** What [EVMTransactionStorage.abiDecode] returns. *)
Record DecodedCall : Type := {
  d_type : string;
  d_name : string;
  d_params : list V
}.

(** The options of [method.estimateGas]. *)
Record CallOptions : Type := {
  c_from : option string;
  c_value : option V
}.

(** The transaction object of the [eth_estimateGas] request, and the id
    of the request. *)
Record Request : Type := {
  r_data : Data;
  r_to : option string;
  r_from : option string;
  r_value : option string;
  r_id : string
}.

(** The collaborators.  [now] is [Date.now()], printed. *)
Variable getWeb3 : string -> async Node Web3.
Variable abiDecode : Data -> promise error (option DecodedCall).
Variable getMultisendContract : string -> option string -> async Node Contract.
Variable decodeParameter : Web3 -> string -> string -> promise error Decoded.
Variable sendErc20 : Contract -> string -> Decoded -> Decoded -> option Method.
Variable sendEth : Contract -> Decoded -> Decoded -> option Method.
Variable estimateGasOf : Method -> CallOptions -> async Node number.
Variable toHex : Web3 -> V -> promise error string.
Variable send : Web3 -> Request -> Node -> Sent * Node.
Variable Number : string -> number.
Variable now : string.

(** [dataDecoded && dataDecoded.type === 'INVOICE' &&
     dataDecoded.name === 'pay'] *)
Definition isInvoicePay (dataDecoded : option DecodedCall) : bool :=
  match dataDecoded with
  | Some d => String.eqb (d_type d) "INVOICE" && String.eqb (d_name d) "pay"
  | None => false
  end.

(** The callback of [provider.send]. *)
Definition settle (sent : Sent) : Outcome :=
  match sent with
  | Failed err => Reject (Thrown err)
  | Answered data =>
      if WalletQuery.truthyString (result data) then
        match result data with
        | Some r => Resolve (Number r)
        | None => Reject (NoResult data)
        end
      else
        match error_ data with
        | Some e => Reject (Thrown e)
        | None => Reject (NoResult data)
        end
  end.

(** Lines 516-544: the request for a plain estimate. *)
Definition request (web3 : Web3) (params : Params) (value : V) (n : Node) :
  Outcome * Node :=
  match
    if truthyData (data params)
    then match toHex web3 value with
         | Resolved hex => Resolved (Some hex)
         | Rejected e => Rejected e
         end
    else Resolved None
  with
  | Rejected e => (Reject (Thrown e), n)
  | Resolved _value =>
      let opts :=
        {| r_data := data params;
           r_to := option_map toLowerCase (to params);
           r_from := option_map toLowerCase (from params);
           r_value := _value;
           r_id := "bitcore-" ++ now |} in
      let (sent, n') := send web3 opts n in
      (settle sent, n')
  end.

(** [resolve(Number(gasLimit))] for a [gasLimit] that may be
    [undefined]. *)
Definition gasLimitOf (gasLimit : option number) : number :=
  match gasLimit with
  | Some g => g
  | None => NaN
  end.

(** Lines 492-513: the estimate of a multisend call. *)
Definition multisend (web3 : Web3) (params : Params) (m : MultisendData)
  (n : Node) : Outcome * Node :=
  match getMultisendContract (network params) (to params) n with
  | (Rejected e, n1) => (Reject (Thrown e), n1)
  | (Resolved contract, n1) =>
      match decodeParameter web3 "address[]" (addresses m) with
      | Rejected e => (Reject (Thrown e), n1)
      | Resolved addresses =>
          match decodeParameter web3 "uint256[]" (amounts m) with
          | Rejected e => (Reject (Thrown e), n1)
          | Resolved amounts =>
              let estimate (method : option Method) (options : CallOptions) :=
                match method with
                | Some method =>
                    match estimateGasOf method options n1 with
                    | (Resolved gas, n2) => (Resolve (gasLimitOf (Some gas)), n2)
                    | (Rejected e, n2) => (Reject (Thrown e), n2)
                    end
                | None => (Resolve (gasLimitOf None), n1)
                end in
              if String.eqb (method m) "sendErc20" then
                estimate (sendErc20 contract (tokenAddress m) addresses amounts)
                         {| c_from := from params; c_value := None |}
              else if String.eqb (method m) "sendEth" then
                estimate (sendEth contract addresses amounts)
                         {| c_from := from params; c_value := Some (value params) |}
              else (Resolve (gasLimitOf None), n1)
          end
      end
  end.

Definition estimateGas (params : Params) (n : Node) : Outcome * Node :=
  match getWeb3 (network params) n with
  | (Rejected e, n1) => (Reject (Thrown e), n1)
  | (Resolved web3, n1) =>
      match abiDecode (data params) with
      | Rejected e => (Reject (Thrown e), n1)
      | Resolved dataDecoded =>
          if isInvoicePay dataDecoded then
            match dataDecoded with
            | Some {| d_params := value :: _ |} => request web3 params value n1
            | _ =>
                (Reject (Thrown (TokenTransfers.TypeError
                                   "Cannot read properties of undefined (reading 'value')")),
                 n1)
            end
          else
            match data params with
            | Multisend m => multisend web3 params m n1
            | _ => request web3 params (value params) n1
            end
      end
  end.

End Provider.

End GasEstimate.

(** ** The transactions of an address *)

Module AddressStream.

(** [args]: [limit] and [tokenAddress], beside the block range that
    [getErc20Transfers] reads. *)
Record Args : Type := {
  limit : option Z;
  tokenAddress : option string;
  range : WalletQuery.StreamWalletTransactionsArgs
}.

Record Params : Type := {
  chain : string;
  network : string;
  address : string;
  args : Args
}.

(** What the method itself writes to [res]: [res.json(tokenTransfers)]
    or [res.status(500).send(e)]. *)
Inductive Answer : Type :=
| Json (tokenTransfers : list TokenTransfers.Transfer)
| Status500 (e : error).

(** The answers written to [res], and the calls of
    [Storage.apiStreamingFind] that were started: the method does not
    wait for them. *)
Record World : Type := {
  response : list Answer;
  started : list (Registration.Query * option Z)
}.

(** The query of the branch without a token address. *)
Definition addressQuery (chain network address : string) : Registration.Query :=
  let chain := Registration.Is "chain" chain in
  let network := Registration.Is "network" network in
  [ [chain; network; Registration.Is "from" address];
    [chain; network; Registration.Is "to" address];
    [chain; network; Registration.Is "internal.action.to" address];
    [chain; network; Registration.Is "effects.to" address] ].

Section Provider.
Variable Token : Type.
Variable erc20For : string -> string -> promise error Token.
Variable getPastEvents :
  Token -> TokenTransfers.EventOptions -> Wallet.Issued (list Event.t).

Definition streamAddressTransactions (params : Params) : async World unit :=
  fun w =>
    match tokenAddress (args params) with
    | Some (String c s as tokenAddress) =>
        match
          TokenTransfers.getErc20Transfers Token erc20For getPastEvents
            (network params) (address params) tokenAddress
            (Some (range (args params)))
        with
        | Resolved tokenTransfers =>
            (Resolved tt,
             {| response := response w ++ [Json tokenTransfers];
                started := started w |})
        | Rejected e =>
            (Resolved tt,
             {| response := response w ++ [Status500 e]; started := started w |})
        end
    | _ =>
        let query := addressQuery (chain params) (network params) (address params) in
        (Resolved tt,
         {| response := response w;
            started := started w ++ [(query, limit (args params))] |})
    end.

End Provider.

End AddressStream.

(** * Properties *)

(** ** The fee estimator *)

(** *** Which quartile [getFee] reads *)

Lemma Qeq_bool_false (x y : Q) : ~ x == y -> Qeq_bool x y = false.
Proof.
  intros H. destruct (Qeq_bool x y) eqn:E; [|reflexivity].
  apply Qeq_bool_eq in E. contradiction.
Qed.

Lemma Qmin_4_nonzero (q : Q) : ~ q == 0 -> ~ Qmin q 4 == 0.
Proof.
  intros Hq H. destruct (Q.min_spec q 4) as [[_ E]|[_ E]]; rewrite E in H.
  - contradiction.
  - discriminate H.
Qed.

(** C1, the claim as stated fails: an [undefined] target selects
    quartile 4, not quartile 1. *)
Lemma selectedQuartile_undefined_is_not_1 :
  ~ num_eq (selectedQuartile None) (Num 1).
Proof. vm_compute. discriminate. Qed.

(** C1, amended: the quartile [getFee] reads is [min(target, 4)] for
    every target that is a number other than 0; it is 1 when the target
    is 0 or [NaN]; an [undefined] target takes the default 4 of the
    parameter, so that the quartile is 4.  The fee rate is computed from
    the median of that quartile. *)
Theorem selectedQuartile_cases (param : option number) (txs : list number) :
  match param with
  | None => selectedQuartile param = Num 4
  | Some NaN => selectedQuartile param = Num 1
  | Some (Num t) =>
      if Qeq_bool t 0 then selectedQuartile param = Num 1
      else selectedQuartile param = Num (Qmin t 4)
  end
  /\ feerate (getFee param txs)
     = feerateOfMedian
         (getNthQuartileMedian (blockGasPrices txs) (selectedQuartile param)).
Proof.
  split; [|reflexivity].
  destruct param as [[|t]|]; try reflexivity.
  unfold selectedQuartile, whichQuartile, or_else; simpl.
  destruct (Qeq_bool t 0) eqn:Ht.
  - apply Qeq_bool_eq in Ht.
    assert (E : Qmin t 4 == 0).
    { destruct (Q.min_spec t 4) as [[_ E]|[H _]]; [now rewrite E|].
      rewrite Ht in H. apply Qle_bool_iff in H. discriminate H. }
    apply Qeq_eq_bool in E. now rewrite E.
  - apply Qeq_bool_neq in Ht. apply Qmin_4_nonzero in Ht.
    now rewrite (Qeq_bool_false _ _ Ht).
Qed.

(** *** Rounding of the quartile median *)

(** The quartile median of four samples of 1.236 gwei is 1.236 gwei, and
    [getFee] answers 1.24 gwei for the target 1. *)
Example getFee_of_four_equal_samples :
  let txs := [Num 1236000000; Num 1236000000; Num 1236000000; Num 1236000000] in
  getNthQuartileMedian (blockGasPrices txs) (selectedQuartile (Some (Num 1)))
  = Num 1236000000
  /\ num_eq (feerate (getFee (Some (Num 1)) txs)) (Num 1240000000).
Proof. split; vm_compute; reflexivity. Qed.

(** Below [10^21], [toFixed(2)] prints the hundredths nearest to the
    number, the larger ones in magnitude when two are equally near. *)
Lemma toFixed2_nearest (x : Float64.double) (s : bool) (m : positive) (e : Z) :
  x = S754_finite s m e ->
  Qabs (Float64.value x) < 1000000000000000000000 ->
  exists n : Z,
    Float64.toFixed2 x = Float64.Hundredths s n
    /\ (0 <= n)%Z
    /\ inject_Z n - (1 # 2) <= Qabs (Float64.value x) * 100
    /\ Qabs (Float64.value x) * 100 < inject_Z n + (1 # 2).
Proof.
  intros Hx Hlt.
  exists (Qfloor (Qabs (Float64.value x) * 100 + (1 # 2))).
  pose proof (Qabs_nonneg (Float64.value x)) as H0.
  pose proof (Qfloor_le (Qabs (Float64.value x) * 100 + (1 # 2))) as Hle.
  pose proof (Qlt_floor (Qabs (Float64.value x) * 100 + (1 # 2))) as Hlt'.
  rewrite inject_Z_plus in Hlt'. change (inject_Z 1) with 1 in Hlt'.
  split; [|split; [|split]].
  - unfold Float64.toFixed2. rewrite Hx at 1.
    destruct (Qle_bool 1000000000000000000000 (Qabs (Float64.value x))) eqn:E;
      [|reflexivity].
    apply Qle_bool_iff in E. lra.
  - change 0%Z with (Qfloor 0). apply Qfloor_resp_le. lra.
  - lra.
  - lra.
Qed.

(** C7, the claim as stated fails: a quartile median of 1.236 gwei
    becomes the fee rate 1.24 gwei, whereas cutting it down to the
    hundredths digit gives 1.23 gwei. *)
Lemma feerate_is_not_truncated :
  Float64.medianToFeerate (Float64.of_Z 1236000000) = Float64.of_Z 1240000000
  /\ Float64.value (Float64.of_Z 1240000000) == 1240000000
  /\ truncatedFeerate 1236000000 == 1230000000
  /\ ~ Float64.value (Float64.medianToFeerate (Float64.of_Z 1236000000))
       == truncatedFeerate 1236000000.
Proof.
  repeat split; vm_compute; try reflexivity; discriminate.
Qed.

(** C7, amended.  Let [q] be the double [quartileMedian / 1e9].
    - When [q] is finite, not zero and below [10^21] in magnitude, the
      fee rate is the double product [gwei * 1e9], where [gwei] is
      [Number] of the decimal [n / 100] with the sign of [q] (or [0]
      when that is a zero) and [n] is the integer nearest to [100 * |q|],
      the larger one of two that are equally near: the median is rounded
      to a nearest hundredth of a gwei, not rounded down.
    - At and above [10^21] the fee rate is [q * 1e9].
    - When [q] is an infinity the fee rate is that infinity.
    - When [q] is [NaN] or a zero the fee rate is [0]. *)
Theorem feerate_rounds_to_nearest (quartileMedian : Float64.double) :
  let q := Float64.div quartileMedian Float64.giga in
  (forall s m e,
      q = S754_finite s m e ->
      Qabs (Float64.value q) < 1000000000000000000000 ->
      exists n : Z,
        (0 <= n)%Z
        /\ inject_Z n - (1 # 2) <= Qabs (Float64.value q) * 100
        /\ Qabs (Float64.value q) * 100 < inject_Z n + (1 # 2)
        /\ Float64.medianToFeerate quartileMedian
           = Float64.mul
               (Float64.or_else (Float64.Number (Float64.Hundredths s n))
                  Float64.zero)
               Float64.giga)
  /\ (forall s m e,
         q = S754_finite s m e ->
         1000000000000000000000 <= Qabs (Float64.value q) ->
         Float64.medianToFeerate quartileMedian = Float64.mul q Float64.giga)
  /\ (forall s, q = S754_infinity s -> Float64.medianToFeerate quartileMedian = q)
  /\ (Float64.truthy q = false ->
      Float64.medianToFeerate quartileMedian = Float64.zero).
Proof.
  intros q. unfold Float64.medianToFeerate. fold q.
  split; [|split; [|split]].
  - intros s m e Hq Hlt.
    destruct (toFixed2_nearest q s m e Hq Hlt) as (n & Hn & H0 & Hlo & Hhi).
    exists n. rewrite Hn. now repeat split.
  - intros s m e Hq Hge.
    assert (Hf : Float64.toFixed2 q = Float64.Literal q).
    { unfold Float64.toFixed2. rewrite Hq at 1.
      apply Qle_bool_iff in Hge. now rewrite Hge. }
    rewrite Hf. cbn [Float64.Number]. unfold Float64.or_else.
    rewrite Hq at 1. reflexivity.
  - intros s Hq. rewrite Hq. now destruct s.
  - intros Hq. destruct q as [s|s| |s m e]; try discriminate; reflexivity.
Qed.

(** C7 on the medians 1.236 gwei, [10^39], minus infinity and [NaN]. *)
Lemma feerate_rounds_to_nearest_witness :
  (exists n : Z,
      (0 <= n)%Z
      /\ inject_Z n - (1 # 2)
         <= Qabs (Float64.value
                    (Float64.div (Float64.of_Z 1236000000) Float64.giga)) * 100
      /\ Qabs (Float64.value
                 (Float64.div (Float64.of_Z 1236000000) Float64.giga)) * 100
         < inject_Z n + (1 # 2)
      /\ Float64.medianToFeerate (Float64.of_Z 1236000000)
         = Float64.mul
             (Float64.or_else (Float64.Number (Float64.Hundredths false n))
                Float64.zero)
             Float64.giga)
  /\ Float64.medianToFeerate (Float64.mul (Float64.of_Z (10 ^ 30)) Float64.giga)
     = Float64.mul
         (Float64.div (Float64.mul (Float64.of_Z (10 ^ 30)) Float64.giga)
            Float64.giga)
         Float64.giga
  /\ Float64.medianToFeerate (S754_infinity true) = S754_infinity true
  /\ Float64.medianToFeerate S754_nan = Float64.zero.
Proof.
  split; [|split; [|split]].
  - apply (proj1 (feerate_rounds_to_nearest (Float64.of_Z 1236000000))
             false 5566449139429933%positive (-52)%Z);
      vm_compute; reflexivity.
  - eapply (proj1 (proj2 (feerate_rounds_to_nearest
                            (Float64.mul (Float64.of_Z (10 ^ 30)) Float64.giga))));
      [vm_compute; reflexivity | vm_compute; discriminate].
  - apply (proj1 (proj2 (proj2 (feerate_rounds_to_nearest (S754_infinity true)))) true).
    reflexivity.
  - apply (proj2 (proj2 (proj2 (feerate_rounds_to_nearest S754_nan)))).
    reflexivity.
Defined.

(** The product by [1e9] is a double product: the median 1.07 gwei is
    a whole number of hundredths already, and the fee rate is
    [1070000000.0000001], one unit in the last place above it. *)
Example feerate_of_1070000000 :
  Float64.value (Float64.medianToFeerate (Float64.of_Z 1070000000))
  == 1070000000 + (1 # 8388608).
Proof. vm_compute. reflexivity. Qed.

(** The quotient by [1e9] is a double quotient: the double nearest to
    1.005 lies below it, and the median 1.005 gwei becomes the fee rate
    1.00 gwei. *)
Example feerate_of_1005000000 :
  Float64.value (Float64.div (Float64.of_Z 1005000000) Float64.giga) < 1005 # 1000
  /\ Float64.medianToFeerate (Float64.of_Z 1005000000) = Float64.of_Z 1000000000.
Proof. split; vm_compute; reflexivity. Qed.

(** *** The sorted samples *)














(** *** The quartiles of a sorted array *)






(** *** The fee rate grows with the quartile median *)












(** ** The token transfer stage *)

Section Erc20Facts.
Import Erc20.
Variable Other : Type.
Variable Number : string -> number.

Lemma isTokenRelated_true (T : string) (e : Effect.t) :
  isTokenRelated T e = true <-> Effect.contractAddress e = Some T.
Proof.
  unfold isTokenRelated. destruct (Effect.contractAddress e) as [c|].
  - rewrite String.eqb_eq. split; congruence.
  - split; discriminate.
Qed.

Lemma transferOf_record (tx : Transaction Other) (e : Effect.t) :
  TransferRecord Number tx e (transferOf Number tx e).
Proof.
  unfold TransferRecord, transferOf.
  destruct (String.eqb (Effect.from e) (from tx)) eqn:E; simpl;
    repeat split; try reflexivity; intros H.
  - apply String.eqb_eq in E. contradiction.
  - apply String.eqb_neq in E. contradiction.
Qed.

Lemma push_loop (tx : Transaction Other) (es : list Effect.t)
  (readable : list (Transformed Other)) :
  fold_left (fun r internalTx => push Other r (transferOf Number tx internalTx))
            es readable
  = readable ++ map (transferOf Number tx) es.
Proof.
  revert readable. induction es as [|e es IH]; intros readable; simpl.
  - now rewrite app_nil_r.
  - rewrite IH. unfold push. now rewrite <- app_assoc.
Qed.

Lemma filter_emitted (T : string) (tx : Transaction Other) (es : list Effect.t) :
  Emitted Number T tx es
          (map (transferOf Number tx) (filter (isTokenRelated T) es)).
Proof.
  induction es as [|e es IH]; simpl.
  - constructor.
  - destruct (isTokenRelated T e) eqn:E.
    + simpl. apply Emitted_match; [|apply transferOf_record|assumption].
      now apply isTokenRelated_true.
    + apply Emitted_skip; [|assumption].
      intros H. apply isTokenRelated_true in H. congruence.
Qed.

Lemma emitted_none (T : string) (tx : Transaction Other) (es : list Effect.t)
  (outs : list (Transformed Other)) :
  Emitted Number T tx es outs ->
  Forall (fun e => Effect.contractAddress e <> Some T) es -> outs = [].
Proof.
  induction 1 as [|e es out outs Hc _ _ _|e es outs _ _ IH]; intros Hall.
  - reflexivity.
  - inversion Hall; subst. contradiction.
  - inversion Hall; subst. now apply IH.
Qed.

Lemma emitted_length (T : string) (tx : Transaction Other) (es : list Effect.t)
  (outs : list (Transformed Other)) :
  Emitted Number T tx es outs ->
  List.length outs = List.length (filter (isTokenRelated T) es).
Proof.
  induction 1 as [|e es out outs Hc _ _ IH|e es outs Hc _ IH]; simpl.
  - reflexivity.
  - apply isTokenRelated_true in Hc. rewrite Hc. simpl. now rewrite IH.
  - destruct (isTokenRelated T e) eqn:E; [|assumption].
    apply isTokenRelated_true in E. contradiction.
Qed.

End Erc20Facts.

(** C2: for a record [tx] and the requested token address [T], the stage
    pushes, after what the readable side already holds, exactly one
    record per effect of [tx] whose contract address is [T], in the order
    of the effects: a copy of [tx] with [value], [to] and [from] taken
    from the effect, and with [initialFrom] set to the sender of [tx]
    exactly when the sender of the effect differs from it.  A record
    without an effect for [T] pushes nothing. *)
Theorem erc20_transform_emits (Other : Type) (Number : string -> number)
  (T : string) (tx : Erc20.Transaction Other)
  (readable : list (Erc20.Transformed Other)) :
  exists outs,
    Erc20._transform Number T tx readable = readable ++ outs
    /\ Erc20.Emitted Number T tx (Erc20.effectsOf tx) outs
    /\ List.length outs
       = List.length (filter (fun e => match Effect.contractAddress e with
                                       | Some c => String.eqb c T
                                       | None => false
                                       end) (Erc20.effectsOf tx))
    /\ (Forall (fun e => Effect.contractAddress e <> Some T) (Erc20.effectsOf tx)
        -> outs = []).
Proof.
  exists (map (Erc20.transferOf Number tx)
              (filter (Erc20.isTokenRelated T) (Erc20.effectsOf tx))).
  assert (He : Erc20.Emitted Number T tx (Erc20.effectsOf tx)
                 (map (Erc20.transferOf Number tx)
                      (filter (Erc20.isTokenRelated T) (Erc20.effectsOf tx))))
    by apply filter_emitted.
  split; [|split; [exact He|split]].
  - unfold Erc20._transform, Erc20.effectsOf.
    destruct (Erc20.effects tx) as [[|e es]|]; simpl.
    + now rewrite app_nil_r.
    + apply push_loop.
    + now rewrite app_nil_r.
  - now rewrite length_map.
  - intros Hall. exact (emitted_none _ _ _ _ _ _ He Hall).
Qed.

(** The example of the specification: of the two effects of a
    transaction sent by [A], the one of the token [T] is emitted, without
    [initialFrom]; with the sender [C] the record carries
    [initialFrom = C]. *)
Example erc20_transform_example :
  let Number (s : string) :=
    if String.eqb s "100" then Num 100 else if String.eqb s "5" then Num 5 else NaN in
  let txEffects :=
    [ {| Effect.contractAddress := Some "T"%string; Effect.from := "A"%string;
         Effect.to := "B"%string; Effect.amount := "100"%string |};
      {| Effect.contractAddress := Some "T2"%string; Effect.from := "A"%string;
         Effect.to := "B"%string; Effect.amount := "5"%string |} ] in
  let tx (sender : string) : Erc20.Transaction unit :=
    {| Erc20.from := sender; Erc20.to := "T"%string; Erc20.value := Num 0;
       Erc20.effects := Some txEffects; Erc20.other := tt |} in
  Erc20._transform Number "T" (tx "A"%string) []
  = [ {| Erc20.t_from := "A"%string; Erc20.t_to := "B"%string;
         Erc20.t_value := Num 100; Erc20.t_effects := Some txEffects;
         Erc20.t_other := tt; Erc20.initialFrom := None |} ]
  /\ Erc20._transform Number "T" (tx "C"%string) []
     = [ {| Erc20.t_from := "A"%string; Erc20.t_to := "B"%string;
            Erc20.t_value := Num 100; Erc20.t_effects := Some txEffects;
            Erc20.t_other := tt; Erc20.initialFrom := Some "C"%string |} ].
Proof. split; reflexivity. Qed.

(** ** Transactions by id and by block *)

Section TransactionFacts.
Import Transactions.
Variables Store Other JSONTx Block : Type.
Variable height : Block -> Z.
Variable getLocalTip : option string -> option string -> async Store (option Block).
Variable getReceipt : string -> string -> async Store (option Receipt).
Variable updateOne : string -> Receipt -> number -> async Store unit.
Variable getEffects : Tx Other -> list Effect.t.
Variable _apiTransform : Tx Other -> JSONTx.
Variable findOne : TxQuery -> async Store (option (Tx Other)).
Variable Number : value -> number.
Variable JSON_stringify : ApiTx JSONTx -> string.
Variable apiStreamingFind :
  StreamQuery -> StreamTransactionsArgs -> (Tx Other -> string) -> async Store unit.

Local Abbreviation getTransaction :=
  (getTransaction Store Other JSONTx Block height getLocalTip getReceipt
                  updateOne getEffects _apiTransform findOne).
Local Abbreviation streamTransactions :=
  (streamTransactions Store Other JSONTx Block height getLocalTip getEffects
                      _apiTransform Number JSON_stringify apiStreamingFind).

(** The confirmations of [streamTransactions] are those of the
    specification at every height. *)
Lemma streamTransactions_confirmations (tipHeight : Z) (t : Tx Other) :
  match blockHeight t with
  | Some h =>
      ((0 <= h)%Z -> confirmationsOfStreamed tipHeight t = (tipHeight - h + 1)%Z)
      /\ ((h < 0)%Z -> confirmationsOfStreamed tipHeight t = 0%Z)
  | None => confirmationsOfStreamed tipHeight t = 0%Z
  end.
Proof.
  unfold confirmationsOfStreamed. destruct (blockHeight t) as [h|]; [|reflexivity].
  destruct (Z.leb_spec 0 h); split; intros; (reflexivity || lia).
Qed.

(** Those of [getTransaction] are, at every height but 0. *)
Lemma getTransaction_confirmations (tipHeight : Z) (found : Tx Other) :
  match blockHeight found with
  | Some h =>
      ((0 < h)%Z -> confirmationsOfFound tipHeight found = (tipHeight - h + 1)%Z)
      /\ ((h <= 0)%Z -> confirmationsOfFound tipHeight found = 0%Z)
  | None => confirmationsOfFound tipHeight found = 0%Z
  end.
Proof.
  unfold confirmationsOfFound.
  destruct (blockHeight found) as [h|]; [|reflexivity].
  destruct (Z.eqb_spec h 0), (Z.leb_spec 0 h); simpl; split; intros;
    (reflexivity || lia).
Qed.

Lemma required_missing (params : StreamTransactionParams) :
  required params = None <-> missingRequired params = true.
Proof.
  unfold required, missingRequired.
  destruct (txId params) as [| |b|n|s], (chain params) as [c|],
    (network params) as [n'|]; simpl;
    try (split; [reflexivity|reflexivity]);
    try (rewrite ?orb_true_r; split; reflexivity).
  destruct c, n'; simpl; split; congruence.
Qed.

(** A call that misses a required parameter settles without a read of
    the stores: the error goes to the console, and the caller receives
    [undefined]. *)
Lemma getTransaction_missing (params : StreamTransactionParams)
  (w : World Store) :
  missingRequired params = true ->
  getTransaction params w
  = (Resolved None,
     {| console := console w ++ [Error "Missing required param"];
        store := store w |}).
Proof.
  intros H. apply required_missing in H.
  unfold Transactions.getTransaction, try_catch. now rewrite H.
Qed.

(** [streamTransactions] rejects such a call. *)
Lemma streamTransactions_missing (params : StreamTransactionsParams)
  (w : World Store) :
  not_string (s_chain params) || not_string (s_network params) = true ->
  streamTransactions params w = (Rejected (Error "Missing chain or network"), w).
Proof.
  unfold Transactions.streamTransactions.
  destruct (s_chain params) as [c|], (s_network params) as [n|]; intros H;
    try reflexivity.
  now rewrite H.
Qed.

(** What [getTransaction] returns for a record that is found. *)
Lemma getTransaction_found (params : StreamTransactionParams)
  (w : World Store) (c n id : string) (tip : option Block)
  (found found' : Tx Other) (s1 s2 s3 : Store) :
  required params = Some (c, n, id) ->
  getLocalTip (chain params) (network params) (store w) = (Resolved tip, s1) ->
  findOne {| q_chain := c; q_network := toLowerCase n; q_txid := id |} s1
  = (Resolved (Some found), s2) ->
  populateReceipt Store Other getReceipt updateOne found s2 = (Resolved found', s3) ->
  getTransaction params w
  = (Resolved
       (Some {| convertedTx := _apiTransform (populateEffects Other getEffects found');
                confirmations := confirmationsOfFound (tipHeightOf Block height tip) found |}),
     {| console := console w; store := s3 |}).
Proof.
  intros Hr Ht Hf Hp.
  unfold Transactions.getTransaction, try_catch, bind, on_store.
  rewrite Hr. simpl. rewrite Ht. simpl. rewrite Hf. simpl. rewrite Hp.
  reflexivity.
Qed.

End TransactionFacts.

(** C3, at the block height 0: with the tip at height 100,
    [getTransaction] answers 0 confirmations for a record of the block 0,
    where the claim asks for 101 and [streamTransactions] answers 101.
    At the height 95 both answer 6, and both answer 0 for a record
    without a height or with the height -1. *)
Theorem getTransaction_height_0_confirmations :
  let record (h : option Z) : Transactions.Tx unit :=
    {| Transactions._id := "1"%string; Transactions.txid := "0xaa"%string;
       Transactions.tx_network := "mainnet"%string; Transactions.blockHeight := h;
       Transactions.gasPrice := Num 1; Transactions.receipt := None;
       Transactions.fee := None; Transactions.effects := None;
       Transactions.other := tt |} in
  let getTransaction :=
    Transactions.getTransaction unit unit (Transactions.Tx unit) Z (fun b => b)
      (fun _ _ => ret (Some 100%Z)) (fun _ _ => ret None) (fun _ _ _ => ret tt)
      (fun _ => []) (fun t => t) (fun _ => ret (Some (record (Some 0%Z)))) in
  let params :=
    {| Transactions.chain := Some "ETH"%string; Transactions.network := Some "mainnet"%string;
       Transactions.txId := Str "0xaa"%string |} in
  let w := {| Transactions.console := []; Transactions.store := tt |} in
  (exists t,
     getTransaction params w
     = (Resolved (Some {| Transactions.convertedTx := t;
                          Transactions.confirmations := 0%Z |}), w))
  /\ Transactions.confirmationsOfFound 100 (record (Some 0%Z)) = 0%Z
  /\ Transactions.confirmationsOfStreamed 100 (record (Some 0%Z)) = 101%Z
  /\ Transactions.confirmationsOfFound 100 (record (Some 95%Z)) = 6%Z
  /\ Transactions.confirmationsOfStreamed 100 (record (Some 95%Z)) = 6%Z
  /\ Transactions.confirmationsOfFound 100 (record None) = 0%Z
  /\ Transactions.confirmationsOfStreamed 100 (record (Some (-1)%Z)) = 0%Z.
Proof.
  cbv zeta. split; [eexists; vm_compute; reflexivity|].
  repeat split; reflexivity.
Qed.

(** C8, at a call without a network: [getTransaction] throws the error
    "Missing required param" inside its own [try] block, whose [catch]
    writes it to the console; the call resolves to [undefined], where the
    claim asks for a failure.  No store is read.  [streamTransactions]
    rejects the same call with its validation error. *)
Theorem getTransaction_swallows_validation_error
  (Store Other JSONTx Block : Type) (height : Block -> Z)
  (getLocalTip : option string -> option string -> async Store (option Block))
  (getReceipt : string -> string -> async Store (option Transactions.Receipt))
  (updateOne : string -> Transactions.Receipt -> number -> async Store unit)
  (getEffects : Transactions.Tx Other -> list Effect.t)
  (_apiTransform : Transactions.Tx Other -> JSONTx)
  (findOne : Transactions.TxQuery -> async Store (option (Transactions.Tx Other)))
  (Number : value -> number)
  (JSON_stringify : Transactions.ApiTx JSONTx -> string)
  (apiStreamingFind :
     Transactions.StreamQuery -> Transactions.StreamTransactionsArgs ->
     (Transactions.Tx Other -> string) -> async Store unit)
  (w : Transactions.World Store) :
  Transactions.getTransaction Store Other JSONTx Block height getLocalTip
    getReceipt updateOne getEffects _apiTransform findOne
    {| Transactions.chain := Some "ETH"%string; Transactions.network := None;
       Transactions.txId := Str "0xaa"%string |} w
  = (Resolved None,
     {| Transactions.console :=
          Transactions.console w ++ [Error "Missing required param"];
        Transactions.store := Transactions.store w |})
  /\ Transactions.streamTransactions Store Other JSONTx Block height getLocalTip
       getEffects _apiTransform Number JSON_stringify apiStreamingFind
       {| Transactions.s_chain := Some "ETH"%string; Transactions.s_network := None;
          Transactions.args := {| Transactions.blockHash := None;
                                  Transactions.a_blockHeight := None |} |} w
     = (Rejected (Error "Missing chain or network"), w).
Proof.
  split.
  - now apply getTransaction_missing.
  - now apply streamTransactions_missing.
Qed.

(** ** The wallet aggregator *)

Section WalletFacts.
Import Wallet.

(** The [reduce] over the balances adds up each field on its own. *)
Lemma reduce_fields (bs : list Balance) (acc : Balance) :
  fold_left addBalance bs acc
  = {| confirmed := fold_left Float64.add (map confirmed bs) (confirmed acc);
       unconfirmed := fold_left Float64.add (map unconfirmed bs) (unconfirmed acc);
       balance := fold_left Float64.add (map balance bs) (balance acc) |}.
Proof.
  revert acc. induction bs as [|b bs IH]; intros acc.
  - now destruct acc.
  - cbn [fold_left map]. rewrite IH. reflexivity.
Qed.

Lemma all_fulfilled {A : Type} (ps : list (Issued A)) (vs : list A) :
  map outcome ps = map Resolved vs ->
  firstRejection ps = None /\ fulfilled ps = vs.
Proof.
  revert vs. induction ps as [|p ps IH]; intros [|v vs] H; simpl in *;
    try discriminate.
  - now split.
  - injection H as Hp Hps. destruct (IH vs Hps) as [Hf Hv].
    rewrite Hp, Hf, Hv. now split.
Qed.

(** The rejection [Promise.all] reports is the rejection of one of the
    promises, and none of them was rejected before. *)
Lemma firstRejection_some {A : Type} (ps : list (Issued A)) (t : nat) (e : error) :
  firstRejection ps = Some (t, e) ->
  (exists p, In p ps /\ outcome p = Rejected e /\ settledAt p = t)
  /\ (forall p e', In p ps -> outcome p = Rejected e' -> (t <= settledAt p)%nat).
Proof.
  revert t e. induction ps as [|p ps IH]; intros t e H; simpl in H.
  - discriminate.
  - destruct (outcome p) as [v|e0] eqn:Ep.
    + destruct (IH t e H) as [(q & Hq & Eq & Tq) Hmin]. split.
      * exists q. repeat split; [now right | assumption | assumption].
      * intros q' e' [<-|Hin] Hq'; [congruence | eauto].
    + destruct (firstRejection ps) as [[t1 e1]|] eqn:Er.
      * destruct (IH t1 e1 eq_refl) as [(q & Hq & Eq & Tq) Hmin].
        destruct (Nat.leb_spec (settledAt p) t1) as [Hle|Hlt];
          injection H as <- <-.
        -- split.
           ++ exists p. repeat split; [now left | assumption].
           ++ intros q' e' [<-|Hin] Hq'; [lia|].
              specialize (Hmin q' e' Hin Hq'). lia.
        -- split.
           ++ exists q. repeat split; [now right | assumption | assumption].
           ++ intros q' e' [<-|Hin] Hq'; [lia | eauto].
      * injection H as <- <-. split.
        -- exists p. repeat split; [now left | assumption].
        -- intros q' e' [<-|Hin] Hq'; [lia|].
           exfalso. clear IH. induction ps as [|r ps IHps]; [contradiction|].
           simpl in Er. destruct (outcome r) eqn:Eo.
           ++ destruct Hin as [<-|Hin]; [congruence | auto].
           ++ destruct (firstRejection ps) as [[? ?]|];
                [destruct (_ <=? _)%nat|]; discriminate.
Qed.

Lemma firstRejection_none {A : Type} (ps : list (Issued A)) (p : Issued A) (e : error) :
  In p ps -> outcome p = Rejected e -> firstRejection ps <> None.
Proof.
  induction ps as [|r ps IH]; intros Hin Hp; [contradiction|].
  simpl. destruct Hin as [<-|Hin].
  - rewrite Hp. destruct (firstRejection ps) as [[? ?]|];
      [destruct (_ <=? _)%nat|]; discriminate.
  - destruct (outcome r).
    + now apply IH.
    + destruct (firstRejection ps) as [[? ?]|];
        [destruct (_ <=? _)%nat|]; discriminate.
Qed.

End WalletFacts.



(** The sum is a sum of doubles, and a partial sum that is no double is
    rounded: for a wallet of three addresses that hold [10^18], [1] and
    [1], the balance is [10^18]. *)
Example getWalletBalance_rounds_partial_sums :
  let holding (z : Z) :=
    {| Wallet.confirmed := Float64.of_Z z; Wallet.unconfirmed := Float64.zero;
       Wallet.balance := Float64.of_Z z |} in
  let getWalletAddresses (_ : nat) : promise error (list Wallet.WalletAddress) :=
    Resolved [ {| Wallet.address := "0xa"%string |}; {| Wallet.address := "0xb"%string |};
               {| Wallet.address := "0xc"%string |} ] in
  let getBalanceForAddress (p : Wallet.GetBalanceForAddressParams unit) :=
    {| Wallet.settledAt := 1;
       Wallet.outcome :=
         Resolved (if String.eqb (Wallet.b_address unit p) "0xa"%string
                   then holding (10 ^ 18)%Z else holding 1%Z) |} in
  Wallet.getWalletBalance "ETH"%string getWalletAddresses getBalanceForAddress
    {| Wallet.network := "mainnet"%string; Wallet.wallet_id := Some 7%nat;
       Wallet.args := tt |}
  = Resolved (holding (10 ^ 18)%Z).
Proof. vm_compute. reflexivity. Qed.

(** The order of the addresses matters: [2^53], [1], [1] add up to
    [2^53], whereas [1], [1], [2^53] add up to [2^53 + 2]. *)
Example sum_depends_on_the_order :
  Float64.sum [Float64.of_Z (2 ^ 53); Float64.of_Z 1; Float64.of_Z 1]
  = Float64.of_Z (2 ^ 53)
  /\ Float64.sum [Float64.of_Z 1; Float64.of_Z 1; Float64.of_Z (2 ^ 53)]
     = Float64.of_Z (2 ^ 53 + 2)
  /\ Float64.of_Z (2 ^ 53) <> Float64.of_Z (2 ^ 53 + 2).
Proof. repeat split; vm_compute; try reflexivity; discriminate. Qed.

(** C5: as soon as the balance lookup of one address of the wallet is
    rejected, [getWalletBalance] is rejected, with the error of a lookup
    that was rejected (the first one to be): it resolves to no balance,
    and when a single lookup fails the error is the error of that
    lookup. *)
Theorem getWalletBalance_fails_with_lookup (ObjectID Args : Type) (chain : string)
  (getWalletAddresses : ObjectID -> promise error (list Wallet.WalletAddress))
  (getBalanceForAddress :
     Wallet.GetBalanceForAddressParams Args -> Wallet.Issued Wallet.Balance)
  (params : Wallet.GetWalletBalanceParams ObjectID Args)
  (id : ObjectID) (addresses : list Wallet.WalletAddress)
  (a : Wallet.WalletAddress) (e : error) :
  Wallet.wallet_id params = Some id ->
  getWalletAddresses id = Resolved addresses ->
  In a addresses ->
  Wallet.outcome (Wallet.lookupFor chain getBalanceForAddress params a)
  = Rejected e ->
  (exists a' e',
     In a' addresses
     /\ Wallet.outcome (Wallet.lookupFor chain getBalanceForAddress params a')
        = Rejected e'
     /\ Wallet.getWalletBalance chain getWalletAddresses getBalanceForAddress
          params = Rejected e')
  /\ ((forall a' e',
         In a' addresses ->
         Wallet.outcome (Wallet.lookupFor chain getBalanceForAddress params a')
         = Rejected e' -> e' = e) ->
      Wallet.getWalletBalance chain getWalletAddresses getBalanceForAddress
        params = Rejected e).
Proof.
  intros Hid Ha Hin Hrej.
  assert (Hex : exists a' e',
             In a' addresses
             /\ Wallet.outcome (Wallet.lookupFor chain getBalanceForAddress params a')
                = Rejected e'
             /\ Wallet.getWalletBalance chain getWalletAddresses
                  getBalanceForAddress params = Rejected e').
  { unfold Wallet.getWalletBalance. rewrite Hid, Ha.
    unfold Wallet.Promise_all.
    destruct (Wallet.firstRejection
                (map (Wallet.lookupFor chain getBalanceForAddress params) addresses))
      as [[t e']|] eqn:Er.
    - apply firstRejection_some in Er. destruct Er as [(p & Hp & Ep & _) _].
      apply in_map_iff in Hp. destruct Hp as (a' & <- & Ha').
      exists a', e'. now repeat split.
    - exfalso. revert Er. eapply firstRejection_none; [|exact Hrej].
      now apply in_map. }
  split; [exact Hex|].
  intros Honly. destruct Hex as (a' & e' & Ha' & He' & Hr).
  now rewrite <- (Honly a' e' Ha' He').
Qed.

Lemma getWalletBalance_fails_with_lookup_witness :
  let getWalletAddresses (_ : nat) : promise error (list Wallet.WalletAddress) :=
    Resolved [ {| Wallet.address := "0xa"%string |}; {| Wallet.address := "0xb"%string |} ] in
  let getBalanceForAddress (p : Wallet.GetBalanceForAddressParams unit) :=
    if String.eqb (Wallet.b_address unit p) "0xb"%string
    then {| Wallet.settledAt := 1%nat;
            Wallet.outcome := Rejected (Error "connection lost"%string) |}
    else {| Wallet.settledAt := 2%nat;
            Wallet.outcome :=
              Resolved {| Wallet.confirmed := Float64.of_Z 10;
                          Wallet.unconfirmed := Float64.zero;
                          Wallet.balance := Float64.of_Z 10 |} |} in
  Wallet.getWalletBalance "ETH"%string getWalletAddresses getBalanceForAddress
    {| Wallet.network := "mainnet"%string; Wallet.wallet_id := Some 7%nat;
       Wallet.args := tt |}
  = Rejected (Error "connection lost"%string).
Proof.
  intros getWalletAddresses getBalanceForAddress.
  refine (proj2 (getWalletBalance_fails_with_lookup nat unit "ETH"%string
                   getWalletAddresses getBalanceForAddress
                   {| Wallet.network := "mainnet"%string; Wallet.wallet_id := Some 7%nat;
                      Wallet.args := tt |}
                   7%nat
                   [ {| Wallet.address := "0xa"%string |}; {| Wallet.address := "0xb"%string |} ]
                   {| Wallet.address := "0xb"%string |} (Error "connection lost"%string)
                   eq_refl eq_refl _ eq_refl) _).
  - right. left. reflexivity.
  - intros a' e' [<-|[<-|[]]] H; vm_compute in H |- *; congruence.
Defined.

(** ** Broadcasting *)

Section BroadcastFacts.
Import Broadcast.
Variables Node Web3 : Type.
Variable getWeb3 : string -> async Node Web3.
Variable sendSignedTransaction : Web3 -> string -> async Node string.

(** The loop appends the ids of the node to [txids], in the order of the
    raw transactions. *)
Lemma sendAll_sent (web3 : Web3) (rawTxs ids : list string) (n n' : Node) :
  Sent sendSignedTransaction web3 n rawTxs ids n' ->
  forall txids,
    sendAll sendSignedTransaction web3 rawTxs txids n
    = (Resolved (txids ++ ids), n').
Proof.
  induction 1 as [n|n tx txid n1 txs ids n2 Hsend _ IH]; intros txids; simpl.
  - unfold ret. now rewrite app_nil_r.
  - unfold bind. rewrite Hsend, IH. now rewrite <- app_assoc.
Qed.

Lemma Sent_length (web3 : Web3) (rawTxs ids : list string) (n n' : Node) :
  Sent sendSignedTransaction web3 n rawTxs ids n' ->
  List.length ids = List.length rawTxs.
Proof. induction 1; simpl; congruence. Qed.

Lemma broadcast_sent (params : BroadcastTransactionParams) (web3 : Web3)
  (n n0 n1 : Node) (rawTxs ids : list string) :
  getWeb3 (network params) n = (Resolved web3, n0) ->
  match rawTx params with One tx => [tx] | Many txs => txs end = rawTxs ->
  Sent sendSignedTransaction web3 n0 rawTxs ids n1 ->
  broadcastTransaction getWeb3 sendSignedTransaction params n
  = (Resolved match ids with [txid] => Id txid | _ => Ids ids end, n1).
Proof.
  intros Hw Hr Hs. unfold broadcastTransaction, bind.
  rewrite Hw, Hr, (sendAll_sent _ _ _ _ _ Hs). reflexivity.
Qed.

End BroadcastFacts.

(** C10: when the node accepts every raw transaction, a call whose
    [rawTx] is an array of exactly one raw transaction resolves to the
    transaction id itself, as the call with the plain string does; a
    call with an array of two or more resolves to the array of the ids,
    in the order of the raw transactions. *)
Theorem broadcastTransaction_result_shape (Node Web3 : Type)
  (getWeb3 : string -> async Node Web3)
  (sendSignedTransaction : Web3 -> string -> async Node string)
  (network : string) (web3 : Web3) (n n0 : Node) :
  getWeb3 network n = (Resolved web3, n0) ->
  (forall tx txid n1,
      sendSignedTransaction web3 tx n0 = (Resolved txid, n1) ->
      Broadcast.broadcastTransaction getWeb3 sendSignedTransaction
        {| Broadcast.network := network; Broadcast.rawTx := Broadcast.Many [tx] |} n
      = (Resolved (Broadcast.Id txid), n1)
      /\ Broadcast.broadcastTransaction getWeb3 sendSignedTransaction
           {| Broadcast.network := network; Broadcast.rawTx := Broadcast.One tx |} n
         = (Resolved (Broadcast.Id txid), n1))
  /\ (forall txs ids n1,
        (2 <= List.length txs)%nat ->
        Broadcast.Sent sendSignedTransaction web3 n0 txs ids n1 ->
        Broadcast.broadcastTransaction getWeb3 sendSignedTransaction
          {| Broadcast.network := network; Broadcast.rawTx := Broadcast.Many txs |} n
        = (Resolved (Broadcast.Ids ids), n1)
        /\ List.length ids = List.length txs).
Proof.
  intros Hw. split.
  - intros tx txid n1 Hsend.
    assert (Hs : Broadcast.Sent sendSignedTransaction web3 n0 [tx] [txid] n1)
      by (econstructor; [exact Hsend | constructor]).
    split;
      now rewrite (broadcast_sent _ _ _ _ _ web3 n n0 n1 [tx] [txid]).
  - intros txs ids n1 Hlen Hs.
    pose proof (Sent_length _ _ _ _ _ _ _ _ Hs) as Hl.
    split; [|exact Hl].
    rewrite (broadcast_sent _ _ _ _ _ web3 n n0 n1 txs ids); try assumption;
      try reflexivity.
    destruct ids as [|i1 [|i2 ids]]; simpl in Hl; try reflexivity; lia.
Qed.

(** C10 on a node that answers the hash ["h:" ++ tx] to the raw
    transaction [tx]. *)
Lemma broadcastTransaction_result_shape_witness :
  let getWeb3 (_ : string) : async unit unit := ret tt in
  let sendSignedTransaction (_ : unit) (tx : string) : async unit string :=
    ret (String.append "h:"%string tx) in
  Broadcast.broadcastTransaction getWeb3 sendSignedTransaction
    {| Broadcast.network := "mainnet"%string; Broadcast.rawTx := Broadcast.Many ["0x01"%string] |} tt
  = (Resolved (Broadcast.Id "h:0x01"%string), tt)
  /\ Broadcast.broadcastTransaction getWeb3 sendSignedTransaction
       {| Broadcast.network := "mainnet"%string; Broadcast.rawTx := Broadcast.One "0x01"%string |} tt
     = (Resolved (Broadcast.Id "h:0x01"%string), tt)
  /\ Broadcast.broadcastTransaction getWeb3 sendSignedTransaction
       {| Broadcast.network := "mainnet"%string;
          Broadcast.rawTx := Broadcast.Many ["0x01"%string; "0x02"%string] |} tt
     = (Resolved (Broadcast.Ids ["h:0x01"%string; "h:0x02"%string]), tt).
Proof.
  intros getWeb3 sendSignedTransaction.
  destruct (broadcastTransaction_result_shape unit unit getWeb3
              sendSignedTransaction "mainnet"%string tt tt tt eq_refl) as [H1 H2].
  destruct (H1 "0x01"%string "h:0x01"%string tt eq_refl) as [Hmany Hone].
  destruct (H2 ["0x01"%string; "0x02"%string] ["h:0x01"%string; "h:0x02"%string] tt) as [Hids _].
  - simpl. lia.
  - repeat econstructor.
  - repeat split; assumption.
Defined.

(** ** Registration of wallet addresses *)

Section RegistrationFacts.
Import Registration.

Lemma set_wallets_same (d : Transaction) : set_wallets (wallets d) d = d.
Proof. now destruct d. Qed.

Lemma existsb_eqb_In (id : string) (ws : list string) :
  existsb (String.eqb id) ws = true <-> In id ws.
Proof.
  rewrite existsb_exists. split.
  - intros (x & Hx & E). apply String.eqb_eq in E. now subst.
  - intros H. exists id. split; [assumption | apply String.eqb_refl].
Qed.

Lemma matches_at_path (q : Query) (d d' : Transaction) :
  at_path d = at_path d' -> matches q d = matches q d'.
Proof.
  intros H. unfold matches, holds. now rewrite H.
Qed.

Lemma tag_at_path (q : Query) (id : ObjectID) (d : Transaction) :
  at_path (tag q id d) = at_path d.
Proof. unfold tag. now destruct (matches q d). Qed.

Lemma tag_keeps (q : Query) (id x : ObjectID) (d : Transaction) :
  In x (wallets d) -> In x (wallets (tag q id d)).
Proof.
  unfold tag, addToSet. destruct (matches q d); [|trivial].
  destruct (existsb (String.eqb id) (wallets d)); simpl; [trivial|].
  intros H. apply in_or_app. now left.
Qed.

Lemma tag_adds (q : Query) (id : ObjectID) (d : Transaction) :
  matches q d = true -> In id (wallets (tag q id d)).
Proof.
  unfold tag, addToSet. intros ->.
  destruct (existsb (String.eqb id) (wallets d)) eqn:E; simpl.
  - now apply existsb_eqb_In.
  - apply in_or_app. right. now left.
Qed.

Lemma tag_member (q : Query) (id : ObjectID) (d : Transaction) :
  In id (wallets d) -> tag q id d = d.
Proof.
  intros H. unfold tag, addToSet. apply existsb_eqb_In in H. rewrite H.
  rewrite set_wallets_same. now destruct (matches q d).
Qed.

(** [$addToSet] never leaves more than one copy of the wallet id in an
    array that held one at most. *)
Lemma tag_count (q : Query) (id : ObjectID) (d : Transaction) :
  (count_occ string_dec (wallets (tag q id d)) id
   <= Nat.max 1 (count_occ string_dec (wallets d) id))%nat.
Proof.
  unfold tag, addToSet. destruct (matches q d); [|lia].
  destruct (existsb (String.eqb id) (wallets d)) eqn:E;
    cbn [wallets set_wallets]; [lia|].
  rewrite count_occ_app. cbn [count_occ].
  destruct (string_dec id id) as [_|N]; [|contradiction].
  assert (Hn : ~ In id (wallets d)).
  { intros H. apply existsb_eqb_In in H. congruence. }
  apply (count_occ_not_In string_dec) in Hn. lia.
Qed.

Variable params : UpdateWalletParams.

Lemma tagAll_at_path (batches : list (list string)) (d : Transaction) :
  at_path (tagAll params batches d) = at_path d.
Proof.
  revert d. induction batches as [|b bs IH]; intros d; simpl; [reflexivity|].
  unfold tagAll in *. simpl. now rewrite IH, tag_at_path.
Qed.

Lemma tagAll_keeps (batches : list (list string)) (d : Transaction) (x : ObjectID) :
  In x (wallets d) -> In x (wallets (tagAll params batches d)).
Proof.
  revert d. induction batches as [|b bs IH]; intros d H; [assumption|].
  unfold tagAll in *. simpl. now apply IH, tag_keeps.
Qed.

Lemma tagAll_adds (batches : list (list string)) (d : Transaction)
  (b : list string) :
  In b batches -> matches (relatedTransactions params b) d = true ->
  In (wallet_id params) (wallets (tagAll params batches d)).
Proof.
  revert d. induction batches as [|b' bs IH]; intros d Hin Hm; [contradiction|].
  unfold tagAll in *. simpl. destruct Hin as [->|Hin].
  - apply (tagAll_keeps bs). now apply tag_adds.
  - apply IH; [assumption|].
    rewrite <- Hm. apply matches_at_path, tag_at_path.
Qed.

Lemma tagAll_fixed (batches : list (list string)) (d : Transaction) :
  (forall b, In b batches -> matches (relatedTransactions params b) d = true ->
             In (wallet_id params) (wallets d)) ->
  tagAll params batches d = d.
Proof.
  induction batches as [|b bs IH]; intros H; [reflexivity|].
  unfold tagAll in *. simpl.
  assert (E : tag (relatedTransactions params b) (wallet_id params) d = d).
  { unfold tag. destruct (matches (relatedTransactions params b) d) eqn:Em;
      [|reflexivity].
    fold (tag (relatedTransactions params b) (wallet_id params) d).
    assert (Hin : In (wallet_id params) (wallets d)) by (apply (H b); [now left|assumption]).
    pose proof (tag_member (relatedTransactions params b) _ d Hin) as Ht.
    unfold tag in Ht. now rewrite Em in Ht. }
  rewrite E. apply IH. intros b' Hb'. apply H. now right.
Qed.

Lemma tagAll_twice (batches : list (list string)) (d : Transaction) :
  tagAll params batches (tagAll params batches d) = tagAll params batches d.
Proof.
  apply tagAll_fixed. intros b Hb Hm.
  apply (tagAll_adds batches d b Hb).
  rewrite <- Hm. symmetry. apply matches_at_path, tagAll_at_path.
Qed.

Lemma tagAll_count (batches : list (list string)) (d : Transaction) :
  (count_occ string_dec (wallets (tagAll params batches d)) (wallet_id params)
   <= Nat.max 1 (count_occ string_dec (wallets d) (wallet_id params)))%nat.
Proof.
  revert d. induction batches as [|b bs IH]; intros d;
    [unfold tagAll; cbn [fold_left]; lia|].
  unfold tagAll in *. cbn [fold_left].
  specialize (IH (tag (relatedTransactions params b) (wallet_id params) d)).
  pose proof (tag_count (relatedTransactions params b) (wallet_id params) d).
  lia.
Qed.

Lemma uniqueBulkWrite_outcome (docs collection : list WalletAddress) :
  exists collection',
    uniqueBulkWrite docs collection = (Resolved tt, collection')
    \/ uniqueBulkWrite docs collection = (Rejected duplicateKey, collection').
Proof.
  revert collection. induction docs as [|d docs IH]; intros collection; simpl.
  - exists collection. now left.
  - destruct (existsb (sameKey d) collection).
    + exists collection. now right.
    + apply IH.
Qed.

(** With the unique index, a batch always goes through. *)
Lemma registerBatch_unique (b : list string) (s : Store) :
  exists collection,
    registerBatch uniqueBulkWrite params b s
    = (Resolved tt,
       {| walletAddresses := collection;
          transactions :=
            map (tag (relatedTransactions params b) (wallet_id params))
                (transactions s) |}).
Proof.
  unfold registerBatch, bind, try_catch, on_walletAddresses.
  destruct (uniqueBulkWrite_outcome (walletAddressInserts params b)
              (walletAddresses s)) as (c & [E|E]); rewrite E; simpl;
    eexists; reflexivity.
Qed.

Lemma batches_unique (batches : list (list string)) (s : Store) :
  exists collection,
    for_of batches (registerBatch uniqueBulkWrite params) s
    = (Resolved tt,
       {| walletAddresses := collection;
          transactions := map (tagAll params batches) (transactions s) |}).
Proof.
  revert s. induction batches as [|b bs IH]; intros s; simpl.
  - exists (walletAddresses s). unfold ret. destruct s; simpl.
    now rewrite map_id.
  - unfold bind. destruct (registerBatch_unique b s) as (c & ->).
    destruct (IH {| walletAddresses := c;
                    transactions :=
                      map (tag (relatedTransactions params b) (wallet_id params))
                          (transactions s) |}) as (c' & ->).
    exists c'. simpl. now rewrite map_map.
Qed.

End RegistrationFacts.

Lemma Forall2_map_r {A B : Type} (P : A -> B -> Prop) (f : A -> B) (l : list A) :
  (forall x, P x (f x)) -> Forall2 P l (map f l).
Proof. intros H. induction l; simpl; constructor; auto. Qed.

Lemma code_is_not_spec (e : error) (c : Z) :
  code_is_not e c = false <-> code e = Some c.
Proof.
  unfold code_is_not. destruct (code e) as [c'|]; [|split; discriminate].
  rewrite negb_false_iff, Z.eqb_eq. split; congruence.
Qed.

(** C9: with the unique index on the wallet addresses, [updateWallet]
    resolves, and so does the same call made again: the duplicate key
    error (code 11000) of the bulk write is dropped.  The second call
    leaves every transaction record as the first call left it, and no
    call brings the number of copies of the wallet id in a [wallets]
    array above one.  For any bulk write, an error with the code 11000
    lets the batch go on, and an error with another code, or without a
    code, rejects the batch and the call with that error. *)
Theorem updateWallet_duplicate_key_is_success
  (partition : list string -> nat -> list (list string))
  (params : Registration.UpdateWalletParams) (s : Registration.Store) :
  (exists s1 s2,
     Registration.updateWallet partition Registration.uniqueBulkWrite params s
     = (Resolved tt, s1)
     /\ Registration.updateWallet partition Registration.uniqueBulkWrite params s1
        = (Resolved tt, s2)
     /\ Registration.transactions s2 = Registration.transactions s1
     /\ Forall2
          (fun d d1 =>
             Registration.at_path d1 = Registration.at_path d
             /\ (count_occ string_dec (Registration.wallets d1)
                           (Registration.wallet_id params)
                 <= Nat.max 1 (count_occ string_dec (Registration.wallets d)
                                         (Registration.wallet_id params)))%nat)
          (Registration.transactions s) (Registration.transactions s1))
  /\ (forall bulkWrite batch e collection,
        bulkWrite (Registration.walletAddressInserts params batch)
                  (Registration.walletAddresses s)
        = (Rejected e, collection) ->
        (code e = Some 11000%Z ->
         fst (Registration.registerBatch bulkWrite params batch s) = Resolved tt)
        /\ (code e <> Some 11000%Z ->
            Registration.registerBatch bulkWrite params batch s
            = (Rejected e,
               {| Registration.walletAddresses := collection;
                  Registration.transactions := Registration.transactions s |})
            /\ forall rest,
                partition (Registration.addresses params) 500%nat = batch :: rest ->
                fst (Registration.updateWallet partition bulkWrite params s)
                = Rejected e)).
Proof.
  split.
  - unfold Registration.updateWallet.
    set (batches := partition (Registration.addresses params) 500%nat).
    destruct (batches_unique params batches s) as (c1 & E1).
    rewrite E1.
    destruct (batches_unique params batches
                {| Registration.walletAddresses := c1;
                   Registration.transactions :=
                     map (Registration.tagAll params batches)
                         (Registration.transactions s) |}) as (c2 & E2).
    do 2 eexists. split; [reflexivity|]. split; [exact E2|].
    cbn [Registration.transactions]. split.
    + rewrite map_map. apply map_ext. intros d. apply tagAll_twice.
    + apply Forall2_map_r. intros d. split.
      * apply tagAll_at_path.
      * apply tagAll_count.
  - intros bulkWrite batch e collection Hw.
    assert (Hdup : code_is_not e 11000 = true ->
              Registration.registerBatch bulkWrite params batch s
              = (Rejected e,
                 {| Registration.walletAddresses := collection;
                    Registration.transactions := Registration.transactions s |})).
    { intros Hc.
      unfold Registration.registerBatch, bind, try_catch,
        Registration.on_walletAddresses.
      rewrite Hw, Hc. reflexivity. }
    split.
    + intros Hc. apply code_is_not_spec in Hc.
      unfold Registration.registerBatch, bind, try_catch,
        Registration.on_walletAddresses.
      rewrite Hw, Hc. reflexivity.
    + intros Hc.
      assert (Hn : code_is_not e 11000 = true).
      { destruct (code_is_not e 11000) eqn:E; [reflexivity|].
        apply code_is_not_spec in E. contradiction. }
      split; [now apply Hdup|].
      intros rest Hp. unfold Registration.updateWallet. rewrite Hp.
      cbn [for_of]. unfold bind at 1. now rewrite (Hdup Hn).
Qed.

(** C9 on a store with one transaction sent from the address ["0xA1"]:
    the wallet ["w1"] registers the address twice; and a bulk write that
    fails with the code 91 rejects the call. *)
Lemma updateWallet_duplicate_key_is_success_witness :
  let partition (l : list string) (_ : nat) := [l] in
  let params :=
    {| Registration.chain := "ETH"%string; Registration.network := "mainnet"%string;
       Registration.wallet_id := "w1"%string; Registration.addresses := ["0xA1"%string] |} in
  let tx :=
    {| Registration.at_path :=
         fun path =>
           if String.eqb path "chain"%string then ["ETH"%string]
           else if String.eqb path "network"%string then ["mainnet"%string]
           else if String.eqb path "from"%string then ["0xA1"%string]
           else [];
       Registration.wallets := [] |} in
  let s := {| Registration.walletAddresses := []; Registration.transactions := [tx] |} in
  let shutdown := {| message := "interrupted at shutdown"%string; code := Some 91%Z |} in
  (exists s1 s2,
     Registration.updateWallet partition Registration.uniqueBulkWrite params s
     = (Resolved tt, s1)
     /\ Registration.updateWallet partition Registration.uniqueBulkWrite params s1
        = (Resolved tt, s2)
     /\ map Registration.wallets (Registration.transactions s1) = [["w1"%string]]
     /\ map Registration.wallets (Registration.transactions s2) = [["w1"%string]])
  /\ fst (Registration.updateWallet partition (fun _ c => (Rejected shutdown, c))
            params s)
     = Rejected shutdown.
Proof.
  intros partition params tx s shutdown.
  destruct (updateWallet_duplicate_key_is_success partition params s)
    as [(s1 & s2 & E1 & E2 & Et & _) Hany].
  split.
  - exists s1, s2. split; [exact E1|]. split; [exact E2|].
    rewrite Et. vm_compute in E1. injection E1 as <-. split; reflexivity.
  - destruct (Hany (fun _ c => (Rejected shutdown, c)) ["0xA1"%string] shutdown []
                eq_refl) as [_ Hother].
    destruct Hother as [_ Hcall]; [discriminate|].
    now apply (Hcall []).
Defined.

(** * Further properties of the provider *)

(** ** [getTransaction] and [populateReceipt] *)

Section MoreTransactionFacts.
Import Transactions.
#[local] Arguments receipt {Other} _.
#[local] Arguments fee {Other} _.
#[local] Arguments gasPrice {Other} _.
#[local] Arguments txid {Other} _.
#[local] Arguments tx_network {Other} _.
#[local] Arguments _id {Other} _.
Variables Store Other JSONTx Block : Type.
Variable height : Block -> Z.
Variable getLocalTip : option string -> option string -> async Store (option Block).
Variable getReceipt : string -> string -> async Store (option Receipt).
Variable updateOne : string -> Receipt -> number -> async Store unit.
Variable getEffects : Tx Other -> list Effect.t.
Variable _apiTransform : Tx Other -> JSONTx.
Variable findOne : TxQuery -> async Store (option (Tx Other)).

Local Abbreviation getTransaction :=
  (getTransaction Store Other JSONTx Block height getLocalTip getReceipt
                  updateOne getEffects _apiTransform findOne).
Local Abbreviation populateReceipt :=
  (populateReceipt Store Other getReceipt updateOne).

Lemma on_store_console {A : Type} (c : async Store A) (w w' : World Store)
  (r : promise error A) :
  on_store Store c w = (r, w') -> console w' = console w.
Proof.
  unfold on_store. destruct (c (store w)) as [r0 s0].
  intros H. injection H as _ <-. reflexivity.
Qed.

(** X1: [getTransaction] never rejects.  Whatever the stores answer, the
    call resolves; the console is left as it was, or it has received
    one error and the call has resolved to [undefined]. *)
Theorem getTransaction_never_rejects (params : StreamTransactionParams)
  (w : World Store) :
  exists r w',
    getTransaction params w = (Resolved r, w')
    /\ (console w' = console w
        \/ exists e, console w' = console w ++ [e] /\ r = None).
Proof.
  unfold Transactions.getTransaction, try_catch.
  destruct (required params) as [[[c n] id]|].
  - unfold bind at 1.
    destruct (on_store Store (getLocalTip (chain params) (network params)) w)
      as [[tip|e] w1] eqn:E1; pose proof (on_store_console _ _ _ _ E1) as C1.
    + unfold bind at 1.
      destruct (on_store Store
                  (findOne {| q_chain := c; q_network := toLowerCase n;
                              q_txid := id |}) w1)
        as [[[found|]|e] w2] eqn:E2;
        pose proof (on_store_console _ _ _ _ E2) as C2.
      * unfold bind at 1.
        destruct (on_store Store (populateReceipt found) w2)
          as [[found'|e] w3] eqn:E3;
          pose proof (on_store_console _ _ _ _ E3) as C3.
        -- do 2 eexists. split; [reflexivity|]. left. simpl. congruence.
        -- do 2 eexists. split; [reflexivity|]. right. exists e.
           simpl. split; [congruence | reflexivity].
      * do 2 eexists. split; [reflexivity|]. left. simpl. congruence.
      * do 2 eexists. split; [reflexivity|]. right. exists e.
        simpl. split; [congruence | reflexivity].
    + do 2 eexists. split; [reflexivity|]. right. exists e.
      simpl. split; [congruence | reflexivity].
  - do 2 eexists. split; [reflexivity|]. right. eexists. simpl.
    split; reflexivity.
Qed.

(** X2: once [populateReceipt] has resolved to a record that holds a
    receipt, a second call on that record resolves to it again and
    leaves the stores as they are; and a receipt that the first call
    fetched comes with the fee [gasUsed * gasPrice]. *)
Theorem populateReceipt_once (tx tx' : Tx Other) (s s' : Store) :
  populateReceipt tx s = (Resolved tx', s') ->
  receipt tx' <> None ->
  populateReceipt tx' s' = (Resolved tx', s')
  /\ (receipt tx = None ->
      exists r, receipt tx' = Some r
                /\ fee tx' = Some (mul (gasUsed r) (gasPrice tx))).
Proof.
  unfold Transactions.populateReceipt.
  destruct (receipt tx) as [r0|] eqn:Er.
  - intros H _. injection H as <- <-. rewrite Er. split; [reflexivity|].
    discriminate.
  - unfold bind.
    destruct (getReceipt (tx_network tx) (txid tx) s) as [[[r|]|e] s1];
      try discriminate.
    + destruct (updateOne (_id tx) r (mul (gasUsed r) (gasPrice tx)) s1)
        as [[[]|e] s2]; try discriminate.
      intros H _. injection H as <- <-. simpl. split; [reflexivity|].
      intros _. exists r. split; reflexivity.
    + intros H Hn. injection H as <- <-. congruence.
Qed.

End MoreTransactionFacts.

Lemma populateReceipt_once_witness :
  let tx : Transactions.Tx unit :=
    {| Transactions._id := "1"%string; Transactions.txid := "0xaa"%string;
       Transactions.tx_network := "mainnet"%string; Transactions.blockHeight := Some 5%Z;
       Transactions.gasPrice := Num 3; Transactions.receipt := None;
       Transactions.fee := None; Transactions.effects := None;
       Transactions.other := tt |} in
  let getReceipt (_ _ : string) : async nat (option Transactions.Receipt) :=
    fun asked => (Resolved (Some {| Transactions.gasUsed := Num 21000 |}), S asked) in
  let updateOne (_ : string) (_ : Transactions.Receipt) (_ : number) : async nat unit :=
    ret tt in
  exists tx',
    Transactions.populateReceipt nat unit getReceipt updateOne tx 0%nat
    = (Resolved tx', 1%nat)
    /\ Transactions.populateReceipt nat unit getReceipt updateOne tx' 1%nat
       = (Resolved tx', 1%nat)
    /\ exists r, Transactions.receipt unit tx' = Some r
                 /\ Transactions.fee unit tx'
                    = Some (mul (Transactions.gasUsed r) (Num 3)).
Proof.
  intros tx getReceipt updateOne.
  eexists. split; [reflexivity|].
  refine ((fun H => conj (proj1 H) (proj2 H eq_refl))
            (populateReceipt_once nat unit getReceipt updateOne tx _ 0%nat 1%nat
               eq_refl _)).
  discriminate.
Defined.

(** ** [getBlocks] *)

(** X3: when the cursor and the tip are read, [getBlocks] resolves to
    one record per block of the cursor, in the order of the cursor: the
    shaped block, with [tipHeight - height + 1] confirmations for a
    block of positive height and 0 confirmations for the block 0 and for
    a negative height. *)
Theorem getBlocks_shapes_each_block
  (Store Other JSONBlock Params BlockQuery Sort Options Cursor : Type)
  (getBlocksQuery : Params -> BlockQuery * Options)
  (options_sort : Options -> option Sort)
  (find : BlockQuery -> Options -> Cursor)
  (sort : Sort -> Cursor -> Cursor)
  (toArray : Cursor -> async Store (list (Blocks.Block Other)))
  (getLocalTip : Params -> async Store (option (Blocks.Block Other)))
  (_apiTransform : Blocks.Block Other -> JSONBlock)
  (params : Params) (s s1 s2 : Store)
  (blocks : list (Blocks.Block Other)) (tip : option (Blocks.Block Other)) :
  toArray (match options_sort (snd (getBlocksQuery params)) with
           | Some by_ => sort by_ (find (fst (getBlocksQuery params))
                                        (snd (getBlocksQuery params)))
           | None => find (fst (getBlocksQuery params)) (snd (getBlocksQuery params))
           end) s = (Resolved blocks, s1) ->
  getLocalTip params s1 = (Resolved tip, s2) ->
  exists out,
    Blocks.getBlocks Store Other JSONBlock Params BlockQuery Sort Options Cursor
      getBlocksQuery options_sort find sort toArray getLocalTip _apiTransform
      params s = (Resolved out, s2)
    /\ List.length out = List.length blocks
    /\ forall i b,
        nth_error blocks i = Some b ->
        exists o,
          nth_error out i = Some o
          /\ Blocks.convertedBlock o = _apiTransform b
          /\ Blocks.confirmations o
             = if (0 <? Blocks.height b)%Z
               then (match tip with Some t => Blocks.height t | None => 0 end
                     - Blocks.height b + 1)%Z
               else 0%Z.
Proof.
  intros Hc Ht. unfold Blocks.getBlocks.
  destruct (getBlocksQuery params) as [query options]. simpl in Hc.
  unfold bind. rewrite Hc, Ht.
  eexists. split; [reflexivity|]. split; [apply length_map|].
  intros i b Hb. rewrite nth_error_map, Hb. simpl.
  eexists. split; [reflexivity|]. split; [reflexivity|].
  unfold Blocks.blockTransform. simpl.
  destruct (Z.eqb_spec (Blocks.height b) 0), (Z.leb_spec 0 (Blocks.height b)),
    (Z.ltb_spec 0 (Blocks.height b)); simpl; try reflexivity; lia.
Qed.

Lemma getBlocks_shapes_each_block_witness :
  let blocks : list (Blocks.Block unit) :=
    [ {| Blocks.height := 2%Z; Blocks.other := tt |};
      {| Blocks.height := 0%Z; Blocks.other := tt |} ] in
  exists out,
    Blocks.getBlocks unit unit Z unit unit unit unit unit
      (fun _ => (tt, tt)) (fun _ => None) (fun _ _ => tt) (fun _ c => c)
      (fun _ => ret blocks)
      (fun _ => ret (Some {| Blocks.height := 2%Z; Blocks.other := tt |}))
      (fun b => Blocks.height b) tt tt
    = (Resolved out, tt)
    /\ List.length out = 2%nat.
Proof.
  intros blocks.
  destruct (getBlocks_shapes_each_block unit unit Z unit unit unit unit unit
              (fun _ => (tt, tt)) (fun _ => None) (fun _ _ => tt) (fun _ c => c)
              (fun _ => ret blocks)
              (fun _ => ret (Some {| Blocks.height := 2%Z; Blocks.other := tt |}))
              (fun b => Blocks.height b) tt tt tt tt blocks
              (Some {| Blocks.height := 2%Z; Blocks.other := tt |})
              eq_refl eq_refl) as (out & Hout & Hlen & _).
  exists out. split; [exact Hout | exact Hlen].
Defined.

(** ** The token stage over a stream *)

Section PipelineFacts.
Variable Other : Type.
Variable Number : string -> number.

Lemma transform_appends (T : string) (tx : Erc20.Transaction Other)
  (readable : list (Erc20.Transformed Other)) :
  Erc20._transform Number T tx readable
  = readable
    ++ map (Erc20.transferOf Number tx)
           (filter (Erc20.isTokenRelated T) (Erc20.effectsOf tx)).
Proof.
  unfold Erc20._transform, Erc20.effectsOf.
  destruct (Erc20.effects tx) as [[|e es]|]; simpl.
  - now rewrite app_nil_r.
  - apply push_loop.
  - now rewrite app_nil_r.
Qed.

End PipelineFacts.

(** X4: the token stage keeps the order of the stream.  After the
    records [txs] have gone through it, the readable side holds, behind
    what it held, the records emitted for the first record of [txs],
    then those emitted for the second, and so on; each group is what the
    effects of its record ask for, and the number of records is the
    number of effects of the token over the whole stream. *)
Theorem token_stage_keeps_order (Other : Type) (Number : string -> number)
  (T : string) (txs : list (Erc20.Transaction Other))
  (readable : list (Erc20.Transformed Other)) :
  exists groups,
    Pipeline.writeAll Number T txs readable = readable ++ List.concat groups
    /\ Forall2 (fun tx outs => Erc20.Emitted Number T tx (Erc20.effectsOf tx) outs)
               txs groups
    /\ List.length (List.concat groups)
       = list_sum
           (map (fun tx =>
                   List.length (filter (Erc20.isTokenRelated T) (Erc20.effectsOf tx)))
                txs).
Proof.
  revert readable. induction txs as [|tx txs IH]; intros readable.
  - exists []. simpl. split; [now rewrite app_nil_r|]. split; constructor.
  - unfold Pipeline.writeAll in *. simpl.
    destruct (IH (Erc20._transform Number T tx readable)) as (groups & E & F & L).
    exists (map (Erc20.transferOf Number tx)
                (filter (Erc20.isTokenRelated T) (Erc20.effectsOf tx)) :: groups).
    split; [|split].
    + rewrite E, transform_appends. simpl. now rewrite <- app_assoc.
    + constructor; [apply filter_emitted | exact F].
    + simpl. rewrite length_app, length_map, L. reflexivity.
Qed.


(** ** [getWalletTransactionQuery] *)

Section WalletQueryFacts.
Import WalletQuery.
Variable pending : Z.
Variable getTime : string -> option Z.

Local Abbreviation getWalletTransactionQuery :=
  (getWalletTransactionQuery pending getTime).

Lemma of_wallet (id : string) (ws : list string) :
  existsb (String.eqb id) ws && negb (Nat.eqb (List.length ws) 0) = true
  <-> In id ws.
Proof.
  rewrite andb_true_iff, existsb_eqb_In. split; [tauto|].
  intros H. split; [assumption|]. now destruct ws.
Qed.

Lemma inRange_spec (r : BlockRange) (h : Z) :
  inRange r h = true
  <-> (forall a, gte r = Some a -> (a <= h)%Z)
      /\ (forall b, lte r = Some b -> (h <= b)%Z).
Proof.
  unfold inRange. rewrite andb_true_iff.
  destruct (gte r) as [a|], (lte r) as [b|]; rewrite ?Z.leb_le; split;
    try (intros [H1 H2]; split; intros x Hx; inversion Hx; subst; assumption);
    try (intros [H1 H2]; split; auto).
Qed.

Lemma inTime_spec (r : TimeRange) (t : Z) :
  inTime r t = true
  <-> (forall a, t_gte r = Some a -> (a <= t)%Z)
      /\ (forall b, t_lt r = Some b -> (t < b)%Z).
Proof.
  unfold inTime. rewrite andb_true_iff.
  destruct (t_gte r) as [a|], (t_lt r) as [b|];
    rewrite ?Z.leb_le, ?Z.ltb_lt; split;
    try (intros [H1 H2]; split; intros x Hx; inversion Hx; subst; assumption);
    try (intros [H1 H2]; split; auto).
Qed.

Lemma matches_spec (q : Query) (d : Document) :
  wallets_0_exists q = true ->
  (matches q d = true
   <-> d_chain d = chain q /\ d_network d = network q
       /\ In (wallets q) (d_wallets d)
       /\ (forall h, blockHeight_gt q = Some h -> (h < d_blockHeight d)%Z)
       /\ (forall cs, or q = Some cs -> exists c, In c cs /\ holds c d = true)
       /\ (forall r, blockTimeNormalized q = Some r ->
                     inTime r (d_blockTimeNormalized d) = true)).
Proof.
  intros Hw. unfold matches. rewrite Hw.
  rewrite !andb_true_iff, !String.eqb_eq.
  assert (Hin : existsb (String.eqb (wallets q)) (d_wallets d) = true
                /\ negb (Nat.eqb (List.length (d_wallets d)) 0) = true
                <-> In (wallets q) (d_wallets d))
    by (rewrite <- andb_true_iff; apply of_wallet).
  assert (Hh : match blockHeight_gt q with
               | Some h => (h <? d_blockHeight d)%Z
               | None => true
               end = true
               <-> forall h, blockHeight_gt q = Some h -> (h < d_blockHeight d)%Z).
  { destruct (blockHeight_gt q) as [h|].
    - rewrite Z.ltb_lt. split; [intros H x Hx; now inversion Hx; subst | auto].
    - split; [discriminate | reflexivity]. }
  assert (Ho : match or q with
               | Some clauses => existsb (fun c => holds c d) clauses
               | None => true
               end = true
               <-> forall cs, or q = Some cs -> exists c, In c cs /\ holds c d = true).
  { destruct (or q) as [cs|].
    - rewrite existsb_exists.
      split; [intros H x Hx; now inversion Hx; subst | auto].
    - split; [discriminate | reflexivity]. }
  assert (Ht : match blockTimeNormalized q with
               | Some r => inTime r (d_blockTimeNormalized d)
               | None => true
               end = true
               <-> forall r, blockTimeNormalized q = Some r ->
                             inTime r (d_blockTimeNormalized d) = true).
  { destruct (blockTimeNormalized q) as [r|].
    - split; [intros H x Hx; now inversion Hx; subst | auto].
    - split; [discriminate | reflexivity]. }
  rewrite Hh, Ho, Ht. tauto.
Qed.

Lemma block_range_query (chain network id : string)
  (args : StreamWalletTransactionsArgs) :
  truthyZ (startBlock args) || truthyZ (endBlock args) = true ->
  let q := getWalletTransactionQuery chain network id (Some args) in
  WalletQuery.chain q = chain /\ WalletQuery.network q = network
  /\ wallets q = id /\ wallets_0_exists q = true
  /\ blockHeight_gt q
     = (if truthyBool (includeInvalidTxs args) then None else Some (-3)%Z)
  /\ or q
     = Some ((if truthyBool (includeMempool args) then [HeightIs pending] else [])
             ++ [HeightIn
                   {| gte := if truthyZ (startBlock args)
                             then Some (numberOf (startBlock args)) else None;
                      lte := if truthyZ (endBlock args)
                             then Some (numberOf (endBlock args)) else None |}])
  /\ blockTimeNormalized q = None.
Proof.
  intros Hrange. unfold WalletQuery.getWalletTransactionQuery. rewrite Hrange.
  destruct (truthyBool (includeInvalidTxs args)); cbn; repeat split.
Qed.

Lemma in_block_range (args : StreamWalletTransactionsArgs) (h : Z) :
  inRange {| gte := if truthyZ (startBlock args)
                    then Some (numberOf (startBlock args)) else None;
             lte := if truthyZ (endBlock args)
                    then Some (numberOf (endBlock args)) else None |} h = true
  <-> (truthyZ (startBlock args) = true -> (numberOf (startBlock args) <= h)%Z)
      /\ (truthyZ (endBlock args) = true -> (h <= numberOf (endBlock args))%Z).
Proof.
  rewrite inRange_spec. cbn [gte lte].
  destruct (truthyZ (startBlock args)), (truthyZ (endBlock args)); split;
    intros [H1 H2]; split; intros; try discriminate;
    try (apply H1; reflexivity); try (apply H2; reflexivity);
    try (match goal with H : Some _ = Some _ |- _ => injection H as <- end; auto).
Qed.

(** X5: when [args] gives a block range ([startBlock] or [endBlock] is
    a number other than 0), the query finds exactly the transactions of
    the chain and network that belong to the wallet, whose height is
    above -3 unless [includeInvalidTxs] is set, and whose height is in
    the range, or is [pending] when [includeMempool] is set.  The dates
    of [args] play no part. *)
Theorem wallet_query_by_block_range (chain network id : string)
  (args : StreamWalletTransactionsArgs) (d : Document) :
  truthyZ (startBlock args) || truthyZ (endBlock args) = true ->
  (matches (getWalletTransactionQuery chain network id (Some args)) d = true
   <-> d_chain d = chain /\ d_network d = network /\ In id (d_wallets d)
       /\ (truthyBool (includeInvalidTxs args) = true \/ (-3 < d_blockHeight d)%Z)
       /\ ((truthyBool (includeMempool args) = true /\ d_blockHeight d = pending)
           \/ ((truthyZ (startBlock args) = true ->
                (numberOf (startBlock args) <= d_blockHeight d)%Z)
               /\ (truthyZ (endBlock args) = true ->
                   (d_blockHeight d <= numberOf (endBlock args))%Z)))).
Proof.
  intros Hrange.
  destruct (block_range_query chain network id args Hrange)
    as (Ec & En & Ew & E0 & Eh & Eo & Et).
  rewrite (matches_spec _ _ E0), Ec, En, Ew, Eh, Eo, Et.
  assert (Hheight :
            (forall h, (if truthyBool (includeInvalidTxs args)
                        then None else Some (-3)%Z) = Some h ->
                       (h < d_blockHeight d)%Z)
            <-> truthyBool (includeInvalidTxs args) = true
                \/ (-3 < d_blockHeight d)%Z).
  { destruct (truthyBool (includeInvalidTxs args)).
    - split; [now left | discriminate].
    - split.
      + intros H. right. now apply H.
      + intros [H|H] h Hh; [discriminate | now injection Hh as <-]. }
  assert (Hor :
            (forall cs,
                Some ((if truthyBool (includeMempool args)
                       then [HeightIs pending] else [])
                      ++ [HeightIn
                            {| gte := if truthyZ (startBlock args)
                                      then Some (numberOf (startBlock args)) else None;
                               lte := if truthyZ (endBlock args)
                                      then Some (numberOf (endBlock args)) else None |}])
                = Some cs ->
                exists c, In c cs /\ holds c d = true)
            <-> (truthyBool (includeMempool args) = true /\ d_blockHeight d = pending)
                \/ ((truthyZ (startBlock args) = true ->
                     (numberOf (startBlock args) <= d_blockHeight d)%Z)
                    /\ (truthyZ (endBlock args) = true ->
                        (d_blockHeight d <= numberOf (endBlock args))%Z))).
  { rewrite <- in_block_range. split.
    - intros H. destruct (H _ eq_refl) as (c & Hc & Hholds).
      apply in_app_or in Hc. destruct Hc as [Hc|[<-|[]]].
      + destruct (truthyBool (includeMempool args)); [|contradiction].
        destruct Hc as [<-|[]]. left. split; [reflexivity|].
        now apply Z.eqb_eq.
      + right. exact Hholds.
    - intros H cs Hcs. injection Hcs as <-. destruct H as [[Hm Hp]|Hr].
      + exists (HeightIs pending). rewrite Hm. split; [now left|].
        now apply Z.eqb_eq.
      + eexists. split; [apply in_or_app; right; now left | exact Hr]. }
  rewrite Hheight, Hor.
  split.
  - intros (H1 & H2 & H3 & H4 & H5 & _). tauto.
  - intros (H1 & H2 & H3 & H4 & H5). repeat (split; [assumption|]).
    discriminate.
Qed.

Lemma date_query (chain network id : string)
  (args : StreamWalletTransactionsArgs) :
  truthyZ (startBlock args) || truthyZ (endBlock args) = false ->
  let q := getWalletTransactionQuery chain network id (Some args) in
  WalletQuery.chain q = chain /\ WalletQuery.network q = network
  /\ wallets q = id /\ wallets_0_exists q = true
  /\ blockHeight_gt q
     = (if truthyBool (includeInvalidTxs args) then None else Some (-3)%Z)
  /\ or q = None
  /\ blockTimeNormalized q
     = match takenUp getTime (startDate args), takenUp getTime (endDate args) with
       | None, None => None
       | from_, until => Some {| t_gte := from_; t_lt := until |}
       end.
Proof.
  intros Hrange. unfold WalletQuery.getWalletTransactionQuery. rewrite Hrange.
  assert (Et : withEndDate getTime args (withStartDate getTime args None)
               = match takenUp getTime (startDate args),
                       takenUp getTime (endDate args) with
                 | None, None => None
                 | from_, until => Some {| t_gte := from_; t_lt := until |}
                 end).
  { unfold withEndDate, withStartDate, takenUp.
    destruct (startDate args) as [s1|], (endDate args) as [s2|];
      try destruct (truthyString (Some s1));
      try destruct (truthyString (Some s2));
      cbn [andb truthyString];
      try destruct (getTime s1) as [t1|];
      try destruct (getTime s2) as [t2|];
      cbn [truthyZ];
      try destruct (negb (t1 =? 0)%Z);
      try destruct (negb (t2 =? 0)%Z); reflexivity. }
  destruct (truthyBool (includeInvalidTxs args)); cbn; rewrite Et;
    repeat split.
Qed.

(** X6: when [args] gives no block range, the query finds exactly the
    transactions of the chain and network that belong to the wallet,
    whose height is above -3 unless [includeInvalidTxs] is set, and
    whose time is at or after the start date and before the end date,
    for the dates that are taken up.  [includeMempool] plays no part,
    and a date that is empty, not understood, or the epoch itself is
    left out of the query. *)
Theorem wallet_query_by_dates (chain network id : string)
  (args : StreamWalletTransactionsArgs) (d : Document) :
  truthyZ (startBlock args) || truthyZ (endBlock args) = false ->
  (matches (getWalletTransactionQuery chain network id (Some args)) d = true
   <-> d_chain d = chain /\ d_network d = network /\ In id (d_wallets d)
       /\ (truthyBool (includeInvalidTxs args) = true \/ (-3 < d_blockHeight d)%Z)
       /\ (forall t, takenUp getTime (startDate args) = Some t ->
                     (t <= d_blockTimeNormalized d)%Z)
       /\ (forall t, takenUp getTime (endDate args) = Some t ->
                     (d_blockTimeNormalized d < t)%Z)).
Proof.
  intros Hrange.
  destruct (date_query chain network id args Hrange)
    as (Ec & En & Ew & E0 & Eh & Eo & Et).
  rewrite (matches_spec _ _ E0), Ec, En, Ew, Eh, Eo, Et.
  assert (Hheight :
            (forall h, (if truthyBool (includeInvalidTxs args)
                        then None else Some (-3)%Z) = Some h ->
                       (h < d_blockHeight d)%Z)
            <-> truthyBool (includeInvalidTxs args) = true
                \/ (-3 < d_blockHeight d)%Z).
  { destruct (truthyBool (includeInvalidTxs args)).
    - split; [now left | discriminate].
    - split.
      + intros H. right. now apply H.
      + intros [H|H] h Hh; [discriminate | now injection Hh as <-]. }
  assert (Htime :
            (forall r,
                match takenUp getTime (startDate args),
                      takenUp getTime (endDate args) with
                | None, None => None
                | from_, until => Some {| t_gte := from_; t_lt := until |}
                end = Some r ->
                inTime r (d_blockTimeNormalized d) = true)
            <-> (forall t, takenUp getTime (startDate args) = Some t ->
                           (t <= d_blockTimeNormalized d)%Z)
                /\ (forall t, takenUp getTime (endDate args) = Some t ->
                              (d_blockTimeNormalized d < t)%Z)).
  { destruct (takenUp getTime (startDate args)) as [a|],
      (takenUp getTime (endDate args)) as [b|]; split.
    all: try (intros H; specialize (H _ eq_refl);
              apply inTime_spec in H; cbn in H; destruct H as [H1 H2];
              split; intros t Ht; try discriminate;
              injection Ht as <-; auto).
    all: try (intros [H1 H2] r Hr; injection Hr as <-;
              apply inTime_spec; cbn; split; intros t Ht; try discriminate;
              auto).
    - intros _. split; discriminate.
    - intros _ r Hr. discriminate. }
  rewrite Hheight, Htime.
  split.
  - intros (H1 & H2 & H3 & H4 & _ & H6). tauto.
  - intros (H1 & H2 & H3 & H4 & H5). repeat (split; [assumption|]).
    split; [discriminate | tauto].
Qed.

End WalletQueryFacts.

Lemma wallet_query_by_block_range_witness :
  let args :=
    {| WalletQuery.startBlock := Some 10%Z; WalletQuery.endBlock := Some 20%Z;
       WalletQuery.startDate := Some "2020-01-01"%string; WalletQuery.endDate := None;
       WalletQuery.includeMempool := Some true;
       WalletQuery.includeInvalidTxs := None |} in
  let pending_tx :=
    {| WalletQuery.d_chain := "ETH"%string; WalletQuery.d_network := "mainnet"%string;
       WalletQuery.d_wallets := ["w1"%string]; WalletQuery.d_blockHeight := (-1)%Z;
       WalletQuery.d_blockTimeNormalized := 5%Z |} in
  WalletQuery.matches
    (WalletQuery.getWalletTransactionQuery (-1)%Z (fun _ => Some 1000%Z)
       "ETH"%string "mainnet"%string "w1"%string (Some args))
    pending_tx = true.
Proof.
  intros args pending_tx.
  apply (proj2 (wallet_query_by_block_range (-1)%Z (fun _ => Some 1000%Z)
                  "ETH"%string "mainnet"%string "w1"%string args pending_tx eq_refl)).
  repeat split; try reflexivity.
  - now left.
  - right. reflexivity.
  - left. split; reflexivity.
Defined.

Lemma wallet_query_by_dates_witness :
  let args :=
    {| WalletQuery.startBlock := Some 0%Z; WalletQuery.endBlock := None;
       WalletQuery.startDate := Some "2020-01-01"%string; WalletQuery.endDate := Some ""%string;
       WalletQuery.includeMempool := Some true;
       WalletQuery.includeInvalidTxs := None |} in
  let tx :=
    {| WalletQuery.d_chain := "ETH"%string; WalletQuery.d_network := "mainnet"%string;
       WalletQuery.d_wallets := ["w1"%string]; WalletQuery.d_blockHeight := 7%Z;
       WalletQuery.d_blockTimeNormalized := 2000%Z |} in
  WalletQuery.matches
    (WalletQuery.getWalletTransactionQuery (-1)%Z (fun _ => Some 1000%Z)
       "ETH"%string "mainnet"%string "w1"%string (Some args))
    tx = true.
Proof.
  intros args tx.
  apply (proj2 (wallet_query_by_dates (-1)%Z (fun _ => Some 1000%Z)
                  "ETH"%string "mainnet"%string "w1"%string args tx eq_refl)).
  repeat split; try reflexivity.
  - now left.
  - right. reflexivity.
  - intros t Ht. vm_compute in Ht. injection Ht as <-. vm_compute. discriminate.
  - intros t Ht. discriminate Ht.
Defined.

(** ** [broadcastTransaction] *)

Section MoreBroadcastFacts.
Import Broadcast.
Variables Node Web3 : Type.
Variable getWeb3 : string -> async Node Web3.
Variable sendSignedTransaction : Web3 -> string -> async Node string.

Lemma sendAll_stops (web3 : Web3) (sent ids : list string) (n n1 n2 : Node)
  (tx : string) (later : list string) (e : error) :
  Sent sendSignedTransaction web3 n sent ids n1 ->
  sendSignedTransaction web3 tx n1 = (Rejected e, n2) ->
  forall txids,
    sendAll sendSignedTransaction web3 (sent ++ tx :: later) txids n
    = (Rejected e, n2).
Proof.
  induction 1 as [n|n tx0 txid n' txs ids n'' Hsend _ IH]; intros Hrej txids;
    simpl; unfold bind.
  - now rewrite Hrej.
  - rewrite Hsend. now apply IH.
Qed.

End MoreBroadcastFacts.

(** X7: [broadcastTransaction] stops at the first raw transaction the
    node refuses.  The call is rejected with the error of the node; the
    raw transactions before it have been sent, and none of those behind
    it is: the node is left in the state of the refusal. *)
Theorem broadcastTransaction_stops_at_first_error (Node Web3 : Type)
  (getWeb3 : string -> async Node Web3)
  (sendSignedTransaction : Web3 -> string -> async Node string)
  (network : string) (web3 : Web3) (n n0 n1 n2 : Node)
  (sent ids later : list string) (tx : string) (e : error) :
  getWeb3 network n = (Resolved web3, n0) ->
  Broadcast.Sent sendSignedTransaction web3 n0 sent ids n1 ->
  sendSignedTransaction web3 tx n1 = (Rejected e, n2) ->
  Broadcast.broadcastTransaction getWeb3 sendSignedTransaction
    {| Broadcast.network := network;
       Broadcast.rawTx := Broadcast.Many (sent ++ tx :: later) |} n
  = (Rejected e, n2).
Proof.
  intros Hw Hs Hr. unfold Broadcast.broadcastTransaction, bind.
  cbn [Broadcast.rawTx Broadcast.network]. rewrite Hw.
  now rewrite (sendAll_stops _ _ _ _ _ _ _ _ _ _ _ _ Hs Hr).
Qed.

(** X7 on a node that counts the raw transactions it receives and
    refuses ["bad"]. *)
Lemma broadcastTransaction_stops_at_first_error_witness :
  let send (_ : unit) (tx : string) : async nat string :=
    fun received =>
      if String.eqb tx "bad"%string
      then (Rejected (Error "nonce too low"%string), S received)
      else (Resolved (String.append "h:"%string tx), S received) in
  Broadcast.broadcastTransaction (fun _ => ret tt) send
    {| Broadcast.network := "mainnet"%string;
       Broadcast.rawTx := Broadcast.Many ["0x01"%string; "bad"%string; "0x03"%string] |} 0%nat
  = (Rejected (Error "nonce too low"%string), 2%nat).
Proof.
  intros send.
  apply (broadcastTransaction_stops_at_first_error nat unit (fun _ => ret tt) send
           "mainnet"%string tt 0%nat 0%nat 1%nat 2%nat ["0x01"%string] ["h:0x01"%string] ["0x03"%string]
           "bad"%string (Error "nonce too low"%string) eq_refl).
  - econstructor; [reflexivity | constructor].
  - reflexivity.
Defined.

(** ** [getWalletBalance] on whole numbers *)

Section WholeNumbers.
Local Open Scope Z_scope.

(** The iteration of [SpecFloat] is the iteration of [Pos]. *)
Lemma iter_pos_iter {A : Type} (f : A -> A) (n : positive) (x : A) :
  iter_pos f n x = Pos.iter f x n.
Proof.
  revert x. induction n as [n IH|n IH|]; intros x; simpl.
  - rewrite !IH. now rewrite !Pos.iter_swap.
  - now rewrite !IH.
  - reflexivity.
Qed.

(** Shifting [2 * m] once more to the right is shifting [m]: no bit is
    lost. *)
Lemma shr_xO (m : positive) (e n : Z) :
  0 <= n ->
  shr {| shr_m := Z.pos m~0; shr_r := false; shr_s := false |} (e - 1) (n + 1)
  = shr {| shr_m := Z.pos m; shr_r := false; shr_s := false |} e n.
Proof.
  intros Hn. unfold shr.
  destruct n as [|p|p]; [| |lia].
  - simpl. f_equal. lia.
  - replace (Z.pos p + 1) with (Z.pos (Pos.succ p)) by lia.
    rewrite !iter_pos_iter, Pos.iter_succ_r. simpl shr_1. f_equal. lia.
Qed.

(** [2 * m] at the exponent [e - 1] and [m] at the exponent [e] stand
    for one number, and are rounded to one double. *)
Lemma binary_round_xO (s : bool) (m : positive) (e : Z) :
  binary_round Float64.prec Float64.emax s (xO m) (e - 1)
  = binary_round Float64.prec Float64.emax s m e.
Proof.
  unfold binary_round.
  change (digits2_pos m~0) with (Pos.succ (digits2_pos m)).
  replace (Z.pos (Pos.succ (digits2_pos m)) + (e - 1))
    with (Z.pos (digits2_pos m) + e) by lia.
  set (t := fexp Float64.prec Float64.emax (Z.pos (digits2_pos m) + e)).
  unfold shl_align.
  destruct (t - e) as [|p|p] eqn:E.
  - replace (t - (e - 1)) with 1 by lia.
    unfold binary_round_aux, shr_fexp.
    change (Zdigits2 (Z.pos m~0)) with (Z.pos (Pos.succ (digits2_pos m))).
    change (Zdigits2 (Z.pos m)) with (Z.pos (digits2_pos m)).
    replace (Z.pos (Pos.succ (digits2_pos m)) + (e - 1))
      with (Z.pos (digits2_pos m) + e) by lia.
    fold t. cbn [shr_record_of_loc].
    replace (t - (e - 1)) with ((t - e) + 1) by lia.
    rewrite shr_xO by lia. reflexivity.
  - replace (t - (e - 1)) with (Z.pos (Pos.succ p)) by lia.
    unfold binary_round_aux, shr_fexp.
    change (Zdigits2 (Z.pos m~0)) with (Z.pos (Pos.succ (digits2_pos m))).
    change (Zdigits2 (Z.pos m)) with (Z.pos (digits2_pos m)).
    replace (Z.pos (Pos.succ (digits2_pos m)) + (e - 1))
      with (Z.pos (digits2_pos m) + e) by lia.
    fold t. cbn [shr_record_of_loc].
    replace (t - (e - 1)) with ((t - e) + 1) by lia.
    rewrite shr_xO by lia. reflexivity.
  - destruct (Pos.eq_dec p 1) as [->|Hp].
    + replace (t - (e - 1)) with 0 by lia. simpl Pos.iter.
      replace (e - 1) with t by lia. reflexivity.
    + replace (t - (e - 1)) with (Z.neg (Pos.pred p)) by lia.
      replace (Pos.iter xO m p) with (Pos.iter xO (xO m) (Pos.pred p)); [reflexivity|].
      rewrite <- Pos.iter_succ_r. now rewrite Pos.succ_pred.
Qed.

Lemma binary_round_shift (s : bool) (m k : positive) :
  binary_round Float64.prec Float64.emax s (Pos.iter xO m k) (Z.neg k)
  = binary_round Float64.prec Float64.emax s m 0.
Proof.
  induction k as [|k IH] using Pos.peano_ind.
  - exact (binary_round_xO s m 0).
  - rewrite Pos.iter_succ.
    replace (Z.neg (Pos.succ k)) with (Z.neg k - 1) by lia.
    now rewrite binary_round_xO.
Qed.

Lemma iter_xO_value (m d : positive) :
  Z.pos (Pos.iter xO m d) = Z.pos m * 2 ^ Z.pos d.
Proof.
  change (Pos.iter xO m d) with (shift_pos d m).
  rewrite shift_pos_correct. change (2 ^ Z.pos d) with (Z.pow_pos 2 d). lia.
Qed.

Lemma digits2_iter_xO (m d : positive) :
  digits2_pos (Pos.iter xO m d) = (digits2_pos m + d)%positive.
Proof.
  induction d as [|d IH] using Pos.peano_ind.
  - simpl. lia.
  - rewrite Pos.iter_succ. change (digits2_pos (xO ?p)) with (Pos.succ (digits2_pos p)).
    cbn [digits2_pos]. rewrite IH. lia.
Qed.

(** A mantissa of 53 bits at an exponent of the format is a double as
    it stands. *)
Lemma binary_round_aux_53 (s : bool) (m : positive) (e : Z) :
  digits2_pos m = 53%positive -> -1074 <= e <= 971 ->
  binary_round_aux Float64.prec Float64.emax s (Z.pos m) e loc_Exact = S754_finite s m e.
Proof.
  intros Hd He. unfold binary_round_aux, shr_fexp.
  cbn [Zdigits2 shr_record_of_loc]. rewrite Hd.
  assert (Hf : fexp Float64.prec Float64.emax (53 + e) - e = 0)
    by (unfold fexp, SpecFloat.emin, Float64.prec, Float64.emax; lia).
  rewrite Hf. cbn [shr shr_m loc_of_shr_record round_nearest_even Zdigits2].
  rewrite Hd, Hf. cbn [shr shr_m].
  destruct (e <=? Float64.emax - Float64.prec) eqn:E; [reflexivity|].
  apply Z.leb_gt in E. unfold Float64.emax, Float64.prec in E. lia.
Qed.

(** An integer below [2^53] is a double. *)
Lemma of_pos_finite (a : positive) :
  Z.pos (digits2_pos a) <= 53 ->
  exists ma ea,
    binary_round Float64.prec Float64.emax false a 0 = S754_finite false ma ea
    /\ ea <= 0 /\ Z.pos ma = Z.pos a * 2 ^ (- ea).
Proof.
  intros Hd. unfold binary_round.
  assert (Hf : fexp Float64.prec Float64.emax (Z.pos (digits2_pos a) + 0)
               = Z.pos (digits2_pos a) - 53)
    by (unfold fexp, SpecFloat.emin, Float64.prec, Float64.emax; lia).
  rewrite Hf. unfold shl_align.
  destruct (Z.pos (digits2_pos a) - 53 - 0) as [|p|p] eqn:E; [|lia|].
  - exists a, 0. rewrite binary_round_aux_53; [|lia|lia].
    repeat split; lia.
  - exists (Pos.iter xO a p), (Z.pos (digits2_pos a) - 53).
    rewrite binary_round_aux_53; [| rewrite digits2_iter_xO; lia | lia].
    repeat split; [lia|].
    rewrite iter_xO_value. f_equal. f_equal. lia.
Qed.

Lemma shl_align_value (m : positive) (e e' : Z) :
  e' <= e -> Z.pos (fst (shl_align m e e')) = Z.pos m * 2 ^ (e - e').
Proof.
  intros H. unfold shl_align.
  destruct (e' - e) as [|p|p] eqn:E; [|lia|]; cbn [fst].
  - replace (e - e') with 0 by lia. lia.
  - rewrite iter_xO_value. f_equal. f_equal. lia.
Qed.

(** The sum of two integers below [2^53] is the double nearest to their
    exact sum. *)
Lemma add_of_pos (a b : positive) :
  Z.pos (digits2_pos a) <= 53 -> Z.pos (digits2_pos b) <= 53 ->
  Float64.add (Float64.of_Z (Z.pos a)) (Float64.of_Z (Z.pos b))
  = Float64.of_Z (Z.pos (a + b)).
Proof.
  intros Ha Hb. unfold Float64.of_Z, binary_normalize.
  destruct (of_pos_finite a Ha) as (ma & ea & -> & Hea & Hma).
  destruct (of_pos_finite b Hb) as (mb & eb & -> & Heb & Hmb).
  unfold Float64.add, SFadd. cbn [cond_Zopp].
  set (ez := Z.min ea eb).
  rewrite !shl_align_value by (subst ez; lia).
  rewrite Hma, Hmb.
  assert (Hs : Z.pos a * 2 ^ (- ea) * 2 ^ (ea - ez)
               + Z.pos b * 2 ^ (- eb) * 2 ^ (eb - ez)
               = Z.pos (a + b) * 2 ^ (- ez)).
  { rewrite <- !Z.mul_assoc, <- !Z.pow_add_r by (subst ez; lia).
    replace (- ea + (ea - ez)) with (- ez) by lia.
    replace (- eb + (eb - ez)) with (- ez) by lia. lia. }
  rewrite Hs.
  assert (Hez : ez <= 0) by (subst ez; lia).
  destruct ez as [|k|k]; [| lia |].
  - change (- 0) with 0. rewrite Z.pow_0_r, Z.mul_1_r. reflexivity.
  - change (- Z.neg k) with (Z.pos k). rewrite <- iter_xO_value.
    unfold binary_normalize. apply binary_round_shift.
Qed.

(** A number of [d] bits is at least [2^(d - 1)]. *)
Lemma digits2_pos_lower (a : positive) :
  2 ^ (Z.pos (digits2_pos a) - 1) <= Z.pos a.
Proof.
  induction a as [a IH|a IH|]; cbn [digits2_pos].
  - replace (Z.pos (Pos.succ (digits2_pos a)) - 1)
      with (Z.succ (Z.pos (digits2_pos a) - 1)) by lia.
    rewrite Z.pow_succ_r by lia. lia.
  - replace (Z.pos (Pos.succ (digits2_pos a)) - 1)
      with (Z.succ (Z.pos (digits2_pos a) - 1)) by lia.
    rewrite Z.pow_succ_r by lia. lia.
  - simpl. lia.
Qed.

Lemma digits2_pos_53 (a : positive) :
  Z.pos a < 2 ^ 53 -> Z.pos (digits2_pos a) <= 53.
Proof.
  intros H. pose proof (digits2_pos_lower a) as Hl.
  destruct (Z_le_gt_dec (Z.pos (digits2_pos a)) 53) as [|Hgt]; [assumption|].
  assert (2 ^ 53 <= 2 ^ (Z.pos (digits2_pos a) - 1))
    by (apply Z.pow_le_mono_r; lia).
  lia.
Qed.

Lemma add_whole (a b : Z) :
  0 <= a < 2 ^ 53 -> 0 <= b < 2 ^ 53 ->
  Float64.add (Float64.of_Z a) (Float64.of_Z b) = Float64.of_Z (a + b).
Proof.
  intros Ha Hb.
  destruct a as [|a|a]; [| |lia]; destruct b as [|b|b]; try lia.
  - reflexivity.
  - destruct (of_pos_finite b) as (mb & eb & E & _); [apply digits2_pos_53; lia|].
    change (0 + Z.pos b) with (Z.pos b).
    unfold Float64.of_Z, binary_normalize. rewrite E. reflexivity.
  - destruct (of_pos_finite a) as (ma & ea & E & _); [apply digits2_pos_53; lia|].
    change (Z.pos a + 0) with (Z.pos a).
    unfold Float64.of_Z, binary_normalize. rewrite E. reflexivity.
  - apply add_of_pos; apply digits2_pos_53; lia.
Qed.

Lemma total_nonneg (zs : list Z) :
  Forall (fun z => 0 <= z) zs -> 0 <= fold_right Z.add 0 zs.
Proof. induction 1; simpl; lia. Qed.

(** As long as the total stays below [2^53], the sum from the left of
    whole numbers is their exact total. *)
Lemma sum_whole (zs : list Z) (acc : Z) :
  0 <= acc -> Forall (fun z => 0 <= z) zs ->
  acc + fold_right Z.add 0 zs < 2 ^ 53 ->
  fold_left Float64.add (map Float64.of_Z zs) (Float64.of_Z acc)
  = Float64.of_Z (acc + fold_right Z.add 0 zs).
Proof.
  revert acc. induction zs as [|z zs IH]; intros acc Hacc Hzs Hlt.
  - simpl. now rewrite Z.add_0_r.
  - inversion Hzs as [|? ? Hz Hzs']; subst.
    pose proof (total_nonneg zs Hzs') as Ht.
    cbn [map fold_left fold_right] in *.
    rewrite add_whole by lia.
    rewrite IH by (assumption || lia).
    f_equal. lia.
Qed.

Lemma total_perm (l l' : list Z) :
  Permutation l l' -> fold_right Z.add 0 l = fold_right Z.add 0 l'.
Proof. induction 1; simpl; lia. Qed.

Lemma sum_of_zeros {A : Type} (l : list A) :
  fold_left Float64.add (map (fun _ => Float64.zero) l) Float64.zero = Float64.zero.
Proof. induction l as [|x l IH]; [reflexivity | exact IH]. Qed.

(** The balance of a wallet whose addresses hold whole numbers that add
    up to less than [2^53]. *)
Lemma reduce_whole_numbers (held : list Z) :
  Forall (fun z => 0 <= z) held ->
  fold_right Z.add 0 held < 2 ^ 53 ->
  fold_left Wallet.addBalance
    (map (fun z => Wallet.balancesOf (Float64.of_Z z)) held)
    {| Wallet.unconfirmed := Float64.zero; Wallet.confirmed := Float64.zero;
       Wallet.balance := Float64.zero |}
  = Wallet.balancesOf (Float64.of_Z (fold_right Z.add 0 held)).
Proof.
  intros Hnn Hlt.
  assert (Hs : fold_left Float64.add (map Float64.of_Z held) Float64.zero
               = Float64.of_Z (fold_right Z.add 0 held))
    by (apply (sum_whole held 0); assumption || lia).
  rewrite reduce_fields. rewrite !map_map.
  cbn [Wallet.confirmed Wallet.unconfirmed Wallet.balance Wallet.balancesOf].
  change (fun x : Z => Float64.of_Z x) with Float64.of_Z.
  rewrite sum_of_zeros, Hs. reflexivity.
Qed.

End WholeNumbers.

(** X20: when every address of the wallet holds a whole number of base
    units, [{ confirmed: n, unconfirmed: 0, balance: n }] as
    [getBalanceForAddress] builds it, and the numbers add up to less
    than [2^53], no partial sum is rounded: [getWalletBalance] resolves
    to the exact total, and so it does for any other listing of the same
    addresses. *)
Theorem getWalletBalance_exact_below_2_53 (ObjectID Args : Type) (chain : string)
  (getWalletAddresses getWalletAddresses' :
     ObjectID -> promise error (list Wallet.WalletAddress))
  (getBalanceForAddress :
     Wallet.GetBalanceForAddressParams Args -> Wallet.Issued Wallet.Balance)
  (params : Wallet.GetWalletBalanceParams ObjectID Args)
  (id : ObjectID) (addresses addresses' : list Wallet.WalletAddress)
  (held : list Z) :
  Wallet.wallet_id params = Some id ->
  getWalletAddresses id = Resolved addresses ->
  getWalletAddresses' id = Resolved addresses' ->
  Permutation addresses addresses' ->
  map (fun a => Wallet.outcome
                  (Wallet.lookupFor chain getBalanceForAddress params a))
      addresses
  = map (fun z => Resolved (Wallet.balancesOf (Float64.of_Z z))) held ->
  Forall (fun z => (0 <= z)%Z) held ->
  (fold_right Z.add 0 held < 2 ^ 53)%Z ->
  Wallet.getWalletBalance chain getWalletAddresses getBalanceForAddress params
  = Resolved (Wallet.balancesOf (Float64.of_Z (fold_right Z.add 0%Z held)))
  /\ Wallet.getWalletBalance chain getWalletAddresses' getBalanceForAddress params
     = Resolved (Wallet.balancesOf (Float64.of_Z (fold_right Z.add 0%Z held))).
Proof.
  intros Hid Ha Ha' Hp Hheld Hnn Hlt.
  assert (Hone : forall gwa l h,
             gwa id = Resolved l ->
             map (fun a => Wallet.outcome
                             (Wallet.lookupFor chain getBalanceForAddress params a)) l
             = map (fun z => Resolved (Wallet.balancesOf (Float64.of_Z z))) h ->
             Forall (fun z => (0 <= z)%Z) h ->
             (fold_right Z.add 0 h < 2 ^ 53)%Z ->
             Wallet.getWalletBalance chain gwa getBalanceForAddress params
             = Resolved (Wallet.balancesOf (Float64.of_Z (fold_right Z.add 0%Z h)))).
  { intros gwa l h Hl Hh Hn Ht.
    unfold Wallet.getWalletBalance. rewrite Hid, Hl.
    rewrite <- (map_map (Wallet.lookupFor chain getBalanceForAddress params)
                  Wallet.outcome) in Hh.
    rewrite <- (map_map (fun z => Wallet.balancesOf (Float64.of_Z z)) Resolved) in Hh.
    apply all_fulfilled in Hh. destruct Hh as [Hr Hv].
    unfold Wallet.Promise_all. rewrite Hr, Hv.
    now rewrite reduce_whole_numbers. }
  split; [now apply (Hone getWalletAddresses addresses held)|].
  assert (Hp' : Permutation
                  (map (fun a => Wallet.outcome
                                   (Wallet.lookupFor chain getBalanceForAddress params a))
                       addresses')
                  (map (fun z => Resolved (Wallet.balancesOf (Float64.of_Z z))) held)).
  { rewrite <- Hheld. apply Permutation_map. now apply Permutation_sym. }
  apply Permutation_map_inv in Hp'. destruct Hp' as (held' & Hheld' & Hperm).
  rewrite (total_perm held held' Hperm) in Hlt |- *.
  apply (Hone getWalletAddresses' addresses' held' Ha' Hheld').
  - exact (Permutation_Forall Hperm Hnn).
  - exact Hlt.
Qed.

(** X20 on two addresses that hold 10 and 5 base units. *)
Lemma getWalletBalance_exact_below_2_53_witness :
  let a := {| Wallet.address := "0xa"%string |} in
  let b := {| Wallet.address := "0xb"%string |} in
  let getBalanceForAddress (p : Wallet.GetBalanceForAddressParams unit) :=
    {| Wallet.settledAt := 1;
       Wallet.outcome :=
         Resolved (Wallet.balancesOf
                     (if String.eqb (Wallet.b_address unit p) "0xa"%string
                      then Float64.of_Z 10 else Float64.of_Z 5)) |} in
  let params :=
    {| Wallet.network := "mainnet"%string; Wallet.wallet_id := Some 7%nat;
       Wallet.args := tt |} in
  Wallet.getWalletBalance "ETH"%string (fun _ => Resolved [a; b]) getBalanceForAddress
    params
  = Resolved (Wallet.balancesOf (Float64.of_Z 15))
  /\ Wallet.getWalletBalance "ETH"%string (fun _ => Resolved [b; a])
       getBalanceForAddress params
     = Resolved (Wallet.balancesOf (Float64.of_Z 15)).
Proof.
  intros a b getBalanceForAddress params.
  apply (getWalletBalance_exact_below_2_53 nat unit "ETH"%string
           (fun _ => Resolved [a; b]) (fun _ => Resolved [b; a])
           getBalanceForAddress params 7%nat [a; b] [b; a] [10; 5]%Z
           eq_refl eq_refl eq_refl (perm_swap b a []) eq_refl).
  - repeat constructor; discriminate.
  - reflexivity.
Defined.

(** ** [updateWallet] *)

Section MoreRegistrationFacts.
Import Registration.
Variable partition : list string -> nat -> list (list string).
Variable bulkWrite : list WalletAddress -> async (list WalletAddress) unit.
Variable params : UpdateWalletParams.

(** A batch either goes through and tags the transactions, or stops at
    the bulk write with an error that is not a duplicate key error and
    leaves the transactions alone. *)
Lemma registerBatch_cases (b : list string) (s : Store) :
  (fst (registerBatch bulkWrite params b s) = Resolved tt
   /\ transactions (snd (registerBatch bulkWrite params b s))
      = map (tag (relatedTransactions params b) (wallet_id params))
            (transactions s))
  \/ (exists e,
         fst (registerBatch bulkWrite params b s) = Rejected e
         /\ code_is_not e 11000 = true
         /\ transactions (snd (registerBatch bulkWrite params b s))
            = transactions s).
Proof.
  unfold registerBatch, bind, try_catch, on_walletAddresses.
  destruct (bulkWrite (walletAddressInserts params b) (walletAddresses s))
    as [[[]|e] c]; simpl.
  - now left.
  - destruct (code_is_not e 11000) eqn:E; simpl.
    + right. exists e. now repeat split.
    + now left.
Qed.

Lemma batches_cases (batches : list (list string)) (s : Store) :
  exists done rest,
    batches = done ++ rest
    /\ transactions (snd (for_of batches (registerBatch bulkWrite params) s))
       = map (tagAll params done) (transactions s)
    /\ (fst (for_of batches (registerBatch bulkWrite params) s) = Resolved tt
        -> rest = [])
    /\ (forall e,
           fst (for_of batches (registerBatch bulkWrite params) s) = Rejected e
           -> rest <> [] /\ code_is_not e 11000 = true).
Proof.
  revert s. induction batches as [|b bs IH]; intros s.
  - exists [], []. simpl. repeat split; try discriminate.
    now rewrite map_id.
  - cbn [for_of]. unfold bind at 1 2 3.
    destruct (registerBatch_cases b s) as [[Hr Ht]|(e & Hr & Hc & Ht)];
      destruct (registerBatch bulkWrite params b s) as [r s1];
      cbn [fst snd] in Hr, Ht; subst r.
    + destruct (IH s1) as (done & rest & -> & Htx & Hok & Hko).
      exists (b :: done), rest. split; [reflexivity|]. split; [|split].
      * rewrite Htx, Ht, map_map. reflexivity.
      * exact Hok.
      * exact Hko.
    + exists [], (b :: bs). cbn [fst snd]. split; [reflexivity|].
      split; [|split].
      * rewrite Ht. simpl. now rewrite map_id.
      * discriminate.
      * intros e' He'. injection He' as <-. split; [discriminate | assumption].
Qed.

Lemma tagAll_only_adds (batches : list (list string)) (d : Transaction)
  (x : ObjectID) :
  In x (wallets (tagAll params batches d)) ->
  In x (wallets d) \/ x = wallet_id params.
Proof.
  revert d. induction batches as [|b bs IH]; intros d H; [now left|].
  unfold tagAll in *. simpl in H. apply IH in H. destruct H as [H|H]; [|now right].
  unfold tag, addToSet in H.
  destruct (matches (relatedTransactions params b) d); [|now left].
  destruct (existsb (String.eqb (wallet_id params)) (wallets d)); simpl in H;
    [now left|].
  apply in_app_or in H. destruct H as [H|[H|[]]]; [now left | now right].
Qed.

End MoreRegistrationFacts.

Lemma updateWallet_tags_a_prefix_aux
  (partition : list string -> nat -> list (list string))
  (bulkWrite : list Registration.WalletAddress ->
               async (list Registration.WalletAddress) unit)
  (params : Registration.UpdateWalletParams) (s : Registration.Store) :
  exists done,
    Registration.transactions
      (snd (Registration.updateWallet partition bulkWrite params s))
    = map (Registration.tagAll params done) (Registration.transactions s).
Proof.
  unfold Registration.updateWallet.
  destruct (batches_cases bulkWrite params
              (partition (Registration.addresses params) 500%nat) s)
    as (done & rest & _ & Ht & _).
  now exists done.
Qed.

Section RegisteredFacts.
Import Registration.
Variable bulkWrite : list WalletAddress -> async (list WalletAddress) unit.
Variable params : UpdateWalletParams.

(** A batch whose bulk write goes through, or fails with the code
    11000, is followed by its two [updateMany] calls. *)
Lemma registerBatch_done (b : list string) (s : Store)
  (written : promise error unit) (collection : list WalletAddress) :
  bulkWrite (walletAddressInserts params b) (walletAddresses s)
  = (written, collection) ->
  (forall err, written = Rejected err -> code err = Some 11000%Z) ->
  registerBatch bulkWrite params b s
  = (Resolved tt, batchDone params b collection s).
Proof.
  intros Hw Hdup.
  unfold registerBatch, bind, try_catch, on_walletAddresses. rewrite Hw.
  destruct written as [[]|err]; [reflexivity|].
  assert (Hc : code_is_not err 11000 = false)
    by (apply code_is_not_spec; now apply Hdup).
  rewrite Hc. reflexivity.
Qed.

(** A batch whose bulk write fails with another error stops there. *)
Lemma registerBatch_failed (b : list string) (s : Store) (err : error)
  (collection : list WalletAddress) :
  bulkWrite (walletAddressInserts params b) (walletAddresses s)
  = (Rejected err, collection) ->
  code err <> Some 11000%Z ->
  registerBatch bulkWrite params b s
  = (Rejected err,
     {| walletAddresses := collection; transactions := transactions s |}).
Proof.
  intros Hw Hc.
  unfold registerBatch, bind, try_catch, on_walletAddresses. rewrite Hw.
  destruct (code_is_not err 11000) eqn:E; [reflexivity|].
  apply code_is_not_spec in E. contradiction.
Qed.

Lemma Registered_transactions (s s' : Store) (batches : list (list string)) :
  Registered bulkWrite params s batches s' ->
  transactions s' = map (tagAll params batches) (transactions s).
Proof.
  induction 1 as [s|s b written collection batches s' Hw Hdup _ IH].
  - simpl. now rewrite map_id.
  - rewrite IH. cbn [batchDone transactions]. rewrite map_map. reflexivity.
Qed.

Lemma for_of_registered (s s' : Store) (done rest : list (list string)) :
  Registered bulkWrite params s done s' ->
  for_of (done ++ rest) (registerBatch bulkWrite params) s
  = for_of rest (registerBatch bulkWrite params) s'.
Proof.
  induction 1 as [s|s b written collection batches s' Hw Hdup _ IH].
  - reflexivity.
  - cbn [app for_of]. unfold bind at 1.
    rewrite (registerBatch_done b s written collection Hw Hdup). exact IH.
Qed.

(** The batches split into those that are registered and the rest,
    which is empty or starts with a batch whose bulk write fails with an
    error other than the duplicate key error. *)
Lemma registered_split (batches : list (list string)) (s : Store) :
  exists done rest s',
    batches = done ++ rest
    /\ Registered bulkWrite params s done s'
    /\ (rest = []
        \/ exists b later err collection,
             rest = b :: later
             /\ bulkWrite (walletAddressInserts params b) (walletAddresses s')
                = (Rejected err, collection)
             /\ code err <> Some 11000%Z).
Proof.
  revert s. induction batches as [|b bs IH]; intros s.
  - exists [], [], s. repeat split; [constructor | now left].
  - destruct (bulkWrite (walletAddressInserts params b) (walletAddresses s))
      as [written collection] eqn:Hw.
    assert (Hgo : (forall err, written = Rejected err -> code err = Some 11000%Z) ->
                  exists done rest s',
                    b :: bs = done ++ rest
                    /\ Registered bulkWrite params s done s'
                    /\ (rest = []
                        \/ exists b' later err collection',
                             rest = b' :: later
                             /\ bulkWrite (walletAddressInserts params b')
                                  (walletAddresses s')
                                = (Rejected err, collection')
                             /\ code err <> Some 11000%Z)).
    { intros Hdup.
      destruct (IH (batchDone params b collection s))
        as (done & rest & s' & -> & Hr & Hrest).
      exists (b :: done), rest, s'. split; [reflexivity|]. split; [|exact Hrest].
      now apply (Registered_batch bulkWrite params s b written collection). }
    destruct written as [[]|err]; [apply Hgo; discriminate|].
    destruct (code_is_not err 11000) eqn:Hc.
    + exists [], (b :: bs), s. split; [reflexivity|]. split; [constructor|].
      right. exists b, bs, err, collection. repeat split; [exact Hw|].
      intros H. apply code_is_not_spec in H. congruence.
    + apply Hgo. intros err' H. injection H as <-. now apply code_is_not_spec.
Qed.

End RegisteredFacts.

(** X9: [updateWallet] works through the batches in order and stops at
    the first batch whose bulk write fails with an error other than the
    duplicate key error (the two [updateMany] calls of a batch are taken
    to succeed).
    - When the bulk write of every batch goes through or fails with the
      code 11000, the call resolves, and the transactions have been
      tagged for every batch.
    - When that holds of the batches [done] and the bulk write of the
      next batch fails with an error [err] of another code, the call is
      rejected with [err]; the transactions have been tagged for [done]
      and for no other batch, and the wallet addresses are those the
      failed bulk write has left behind: no later batch is written.
    - Every call is one of the two. *)
Theorem updateWallet_tags_a_prefix
  (partition : list string -> nat -> list (list string))
  (bulkWrite : list Registration.WalletAddress ->
               async (list Registration.WalletAddress) unit)
  (params : Registration.UpdateWalletParams) (s : Registration.Store) :
  (forall s',
      Registration.Registered bulkWrite params s
        (partition (Registration.addresses params) 500%nat) s' ->
      Registration.updateWallet partition bulkWrite params s = (Resolved tt, s')
      /\ Registration.transactions s'
         = map (Registration.tagAll params
                  (partition (Registration.addresses params) 500%nat))
               (Registration.transactions s))
  /\ (forall done addressBatch later s' err collection,
         partition (Registration.addresses params) 500%nat
         = done ++ addressBatch :: later ->
         Registration.Registered bulkWrite params s done s' ->
         bulkWrite (Registration.walletAddressInserts params addressBatch)
           (Registration.walletAddresses s')
         = (Rejected err, collection) ->
         code err <> Some 11000%Z ->
         Registration.updateWallet partition bulkWrite params s
         = (Rejected err,
            {| Registration.walletAddresses := collection;
               Registration.transactions :=
                 map (Registration.tagAll params done)
                     (Registration.transactions s) |}))
  /\ (exists done rest s',
         partition (Registration.addresses params) 500%nat = done ++ rest
         /\ Registration.Registered bulkWrite params s done s'
         /\ (rest = []
             \/ exists addressBatch later err collection,
                  rest = addressBatch :: later
                  /\ bulkWrite
                       (Registration.walletAddressInserts params addressBatch)
                       (Registration.walletAddresses s')
                     = (Rejected err, collection)
                  /\ code err <> Some 11000%Z)).
Proof.
  split; [|split; [|apply registered_split]].
  - intros s' Hr. split; [|now apply (Registered_transactions bulkWrite)].
    unfold Registration.updateWallet.
    rewrite <- (app_nil_r (partition (Registration.addresses params) 500%nat)).
    now rewrite (for_of_registered bulkWrite params s s' _ [] Hr).
  - intros done b later s' err collection Hp Hr Hw Hc.
    unfold Registration.updateWallet. rewrite Hp.
    rewrite (for_of_registered bulkWrite params s s' done (b :: later) Hr).
    cbn [for_of]. unfold bind at 1.
    rewrite (registerBatch_failed bulkWrite params b s' err collection Hw Hc).
    now rewrite (Registered_transactions bulkWrite params s s' done Hr).
Qed.

(** X9 on batches of one address each, with a bulk write that answers
    the duplicate key error for the address ["dup"] and refuses the
    address ["bad"].  With ["dup"] in the middle the call resolves and
    both transactions are tagged; with ["bad"] in the middle the
    transaction of the first address is tagged, the one of the third
    address is not, and the third address is not written. *)
Lemma updateWallet_tags_a_prefix_witness :
  let partition (l : list string) (_ : nat) := map (fun a => [a]) l in
  let bulkWrite (docs : list Registration.WalletAddress) :
    async (list Registration.WalletAddress) unit :=
    fun collection =>
      if existsb (fun d => String.eqb (Registration.wa_address d) "bad"%string) docs
      then (Rejected (Error "not primary"%string), collection)
      else if existsb (fun d => String.eqb (Registration.wa_address d) "dup"%string) docs
      then (Rejected Registration.duplicateKey, collection)
      else (Resolved tt, collection ++ docs) in
  let params (middle : string) :=
    {| Registration.chain := "ETH"%string; Registration.network := "mainnet"%string;
       Registration.wallet_id := "w1"%string;
       Registration.addresses := ["0xa"%string; middle; "0xc"%string] |} in
  let sentBy (a : string) :=
    {| Registration.at_path :=
         fun path =>
           if String.eqb path "chain"%string then ["ETH"%string]
           else if String.eqb path "network"%string then ["mainnet"%string]
           else if String.eqb path "from"%string then [a]
           else [];
       Registration.wallets := [] |} in
  let s :=
    {| Registration.walletAddresses := [];
       Registration.transactions := [sentBy "0xa"%string; sentBy "0xc"%string] |} in
  (fst (Registration.updateWallet partition bulkWrite (params "dup"%string) s)
   = Resolved tt
   /\ map Registration.wallets
          (Registration.transactions
             (snd (Registration.updateWallet partition bulkWrite
                     (params "dup"%string) s)))
      = [["w1"%string]; ["w1"%string]])
  /\ (fst (Registration.updateWallet partition bulkWrite (params "bad"%string) s)
      = Rejected (Error "not primary"%string)
      /\ map Registration.wallets
             (Registration.transactions
                (snd (Registration.updateWallet partition bulkWrite
                        (params "bad"%string) s)))
         = [["w1"%string]; []]
      /\ map Registration.wa_address
             (Registration.walletAddresses
                (snd (Registration.updateWallet partition bulkWrite
                        (params "bad"%string) s)))
         = ["0xa"%string]).
Proof.
  intros partition bulkWrite params sentBy s. split.
  - edestruct (proj1 (updateWallet_tags_a_prefix partition bulkWrite
                        (params "dup"%string) s)) as [Hres Htx].
    + eapply Registration.Registered_batch; [reflexivity | discriminate |].
      eapply Registration.Registered_batch;
        [reflexivity | intros err H; now injection H as <- |].
      eapply Registration.Registered_batch; [reflexivity | discriminate |].
      apply Registration.Registered_none.
    + rewrite Hres. cbn [fst snd]. split; [reflexivity|].
      rewrite Htx. reflexivity.
  - rewrite (proj1 (proj2 (updateWallet_tags_a_prefix partition bulkWrite
                             (params "bad"%string) s))
               [["0xa"%string]] ["bad"%string] [["0xc"%string]]
               (Registration.batchDone (params "bad"%string) ["0xa"%string]
                  [ {| Registration.wa_chain := "ETH"%string;
                       Registration.wa_network := "mainnet"%string;
                       Registration.wa_wallet := "w1"%string;
                       Registration.wa_address := "0xa"%string;
                       Registration.processed := false |} ] s)
               (Error "not primary"%string)
               [ {| Registration.wa_chain := "ETH"%string;
                    Registration.wa_network := "mainnet"%string;
                    Registration.wa_wallet := "w1"%string;
                    Registration.wa_address := "0xa"%string;
                    Registration.processed := true |} ]).
    + repeat split; reflexivity.
    + reflexivity.
    + eapply Registration.Registered_batch;
        [reflexivity | discriminate | apply Registration.Registered_none].
    + reflexivity.
    + discriminate.
Defined.

(** X10: whatever the outcome, [updateWallet] only adds the id of the
    wallet to the [wallets] of a transaction: every record keeps its
    place and its other properties, every id it held is still there, and
    an id that is there afterwards was there before or is the id of the
    wallet. *)
Theorem updateWallet_only_adds_the_wallet
  (partition : list string -> nat -> list (list string))
  (bulkWrite : list Registration.WalletAddress ->
               async (list Registration.WalletAddress) unit)
  (params : Registration.UpdateWalletParams) (s : Registration.Store) :
  Forall2
    (fun d d' =>
       Registration.at_path d' = Registration.at_path d
       /\ (forall x, In x (Registration.wallets d) -> In x (Registration.wallets d'))
       /\ (forall x, In x (Registration.wallets d') ->
                     In x (Registration.wallets d)
                     \/ x = Registration.wallet_id params))
    (Registration.transactions s)
    (Registration.transactions
       (snd (Registration.updateWallet partition bulkWrite params s))).
Proof.
  destruct (updateWallet_tags_a_prefix_aux partition bulkWrite params s)
    as (done & ->).
  apply Forall2_map_r. intros d. split; [|split].
  - apply tagAll_at_path.
  - intros x. apply tagAll_keeps.
  - intros x. apply tagAll_only_adds.
Qed.

(** ** [getWalletTokenTransactions] *)

Section SortByKey.
Context {A : Type} (compare : A -> A -> number).

Lemma insert_perm (x : A) (l : list A) :
  Permutation (insert compare x l) (x :: l).
Proof.
  induction l as [|y l IH]; simpl; [apply Permutation_refl|].
  destruct (is_positive (compare x y)); [|apply Permutation_refl].
  eapply Permutation_trans; [apply perm_skip, IH | apply perm_swap].
Qed.

Lemma sort_perm (l : list A) : Permutation (sort compare l) l.
Proof.
  induction l as [|x l IH]; simpl; [constructor|].
  eapply Permutation_trans; [apply insert_perm | now apply perm_skip].
Qed.

End SortByKey.

Section SortAscending.
Context {A : Type} (key : A -> number).

Let compare (a b : A) : number := sub (key a) (key b).
Let ascending (a b : A) : Prop := val (key a) <= val (key b).

Lemma insert_ascending (x : A) (l : list A) :
  is_num (key x) -> Forall (fun a => is_num (key a)) l ->
  StronglySorted ascending l -> StronglySorted ascending (insert compare x l).
Proof.
  intros Hx Hl Hs. induction Hs as [|y l Hs IH Hy]; simpl.
  - repeat constructor.
  - inversion Hl as [|? ? Hny Hnl]; subst.
    assert (Hcmp : is_positive (compare x y) = negb (Qle_bool (val (key x)) (val (key y)))).
    { unfold compare. destruct (key x) as [|a]; [contradiction|].
      destruct (key y) as [|b]; [contradiction|]. simpl.
      f_equal. apply eq_true_iff_eq. rewrite !Qle_bool_iff. split; intros; lra. }
    rewrite Hcmp.
    destruct (Qle_bool (val (key x)) (val (key y))) eqn:E; simpl.
    + apply Qle_bool_iff in E.
      constructor; [now constructor|].
      constructor; [exact E|].
      eapply Forall_impl; [|exact Hy].
      intros z Hz. unfold ascending in *. lra.
    + assert (Hyx : ascending y x).
      { unfold ascending.
        destruct (Qlt_le_dec (val (key y)) (val (key x))) as [H|H]; [lra|].
        apply Qle_bool_iff in H. congruence. }
      constructor; [now apply IH|].
      eapply Permutation_Forall;
        [apply Permutation_sym, insert_perm | now constructor].
Qed.

Lemma sort_ascending (l : list A) :
  Forall (fun a => is_num (key a)) l -> StronglySorted ascending (sort compare l).
Proof.
  induction 1 as [|x l Hx Hl IH]; simpl; [constructor|].
  apply insert_ascending; [assumption | | assumption].
  eapply Permutation_Forall; [apply Permutation_sym, sort_perm | assumption].
Qed.

End SortAscending.

Lemma concat_batches {A : Type} (batches : list (list A)) (batch : list A) :
  fold_left (fun agg b => agg ++ b) batches batch = batch ++ List.concat batches.
Proof.
  revert batch. induction batches as [|b bs IH]; intros batch; simpl.
  - now rewrite app_nil_r.
  - rewrite IH. now rewrite app_assoc.
Qed.

(** X11: [getWalletTokenTransactions] is rejected with a [TypeError]
    for a wallet without addresses: [reduce] has no initial value.  For
    a wallet with addresses whose transfer lookups are all fulfilled, it
    resolves to the transfers of all the addresses, each as many times
    as the lookups report it, in ascending order of block number when
    every transfer has one. *)
Theorem getWalletTokenTransactions_sorted (Token ObjectID : Type)
  (erc20For : string -> string -> promise error Token)
  (getPastEvents :
     Token -> TokenTransfers.EventOptions -> Wallet.Issued (list Event.t))
  (getWalletAddresses : ObjectID -> promise error (list Wallet.WalletAddress))
  (settles : string -> nat)
  (network : string) (walletId : ObjectID) (tokenAddress : string)
  (args : WalletQuery.StreamWalletTransactionsArgs)
  (addresses : list Wallet.WalletAddress) :
  getWalletAddresses walletId = Resolved addresses ->
  (addresses = [] ->
   TokenTransfers.getWalletTokenTransactions Token ObjectID erc20For getPastEvents
     getWalletAddresses settles network walletId tokenAddress args
   = Rejected (TokenTransfers.TypeError "Reduce of empty array with no initial value"))
  /\ (forall batches,
        addresses <> [] ->
        map (fun a =>
               TokenTransfers.getErc20Transfers Token erc20For getPastEvents network
                 (Wallet.address a) tokenAddress (Some args))
            addresses
        = map Resolved batches ->
        exists txs,
          TokenTransfers.getWalletTokenTransactions Token ObjectID erc20For
            getPastEvents getWalletAddresses settles network walletId tokenAddress
            args = Resolved txs
          /\ Permutation txs (List.concat batches)
          /\ (Forall (fun tx => is_num (TokenTransfers.blockNumber tx))
                     (List.concat batches) ->
              StronglySorted
                (fun a b => val (TokenTransfers.blockNumber a)
                            <= val (TokenTransfers.blockNumber b))
                txs)).
Proof.
  intros Ha. split.
  - intros ->. unfold TokenTransfers.getWalletTokenTransactions.
    now rewrite Ha.
  - intros batches Hne Hb.
    unfold TokenTransfers.getWalletTokenTransactions. rewrite Ha.
    set (queries := map _ addresses).
    assert (Hq : map Wallet.outcome queries = map Resolved batches).
    { subst queries. rewrite map_map. exact Hb. }
    apply all_fulfilled in Hq. destruct Hq as [Hr Hv].
    unfold Wallet.Promise_all. rewrite Hr, Hv.
    destruct batches as [|batch batches].
    { destruct addresses; [contradiction | discriminate]. }
    cbn [TokenTransfers.concatBatches]. rewrite concat_batches.
    eexists. split; [reflexivity|]. split.
    + apply sort_perm.
    + intros Hn. apply (sort_ascending TokenTransfers.blockNumber).
      exact Hn.
Qed.

Lemma getWalletTokenTransactions_sorted_witness :
  let transfer (n : Q) (h : string) : Event.t :=
    {| Event.blockHash := "0xb"%string; Event.blockNumber := Num n;
       Event.transactionHash := h; Event.transactionIndex := Num 0;
       Event.returnValues := fun _ => None |} in
  let getPastEvents (_ : unit) (o : TokenTransfers.EventOptions) :=
    {| Wallet.settledAt := 1%nat;
       Wallet.outcome :=
         Resolved match TokenTransfers.filter o with
                  | TokenTransfers.Sender _ => [transfer 9 "0x09"%string; transfer 3 "0x03"%string]
                  | TokenTransfers.Recipient _ => [transfer 5 "0x05"%string]
                  end |} in
  let args :=
    {| WalletQuery.startBlock := None; WalletQuery.endBlock := None;
       WalletQuery.startDate := None; WalletQuery.endDate := None;
       WalletQuery.includeMempool := None;
       WalletQuery.includeInvalidTxs := None |} in
  exists txs,
    TokenTransfers.getWalletTokenTransactions unit nat (fun _ _ => Resolved tt)
      getPastEvents (fun _ => Resolved [ {| Wallet.address := "0xa"%string |} ])
      (fun _ => 2%nat) "mainnet"%string 7%nat "0xT"%string args
    = Resolved txs
    /\ map TokenTransfers.hash txs = ["0x03"%string; "0x05"%string; "0x09"%string].
Proof.
  intros transfer getPastEvents args.
  destruct (getWalletTokenTransactions_sorted unit nat (fun _ _ => Resolved tt)
              getPastEvents (fun _ => Resolved [ {| Wallet.address := "0xa"%string |} ])
              (fun _ => 2%nat) "mainnet"%string 7%nat "0xT"%string args
              [ {| Wallet.address := "0xa"%string |} ] eq_refl) as [_ H].
  destruct (H [ TokenTransfers.convertTokenTransfers
                  [transfer 9 "0x09"%string; transfer 3 "0x03"%string; transfer 5 "0x05"%string] ])
    as (txs & Ht & _).
  - discriminate.
  - reflexivity.
  - exists txs. split; [exact Ht|].
    vm_compute in Ht. injection Ht as <-. reflexivity.
Defined.

(** ** [getWeb3] *)

Section ConnectionFacts.
Import Connection.
Variables Handle Provider Node : Type.
Variable chain : string.
Variable config : string -> option (NetworkConfig Provider).
Variable threadId : nat.
Variable getBlockNumber : Handle -> async Node nat.
Variable newRpc : option Provider -> string -> async Node Handle.

Local Abbreviation getWeb3 :=
  (getWeb3 Handle Provider Node chain config threadId getBlockNumber newRpc).
Local Abbreviation store := (Connection.store Handle).
Local Abbreviation delete := (Connection.delete Handle).

Lemma cached_store (r : Rpcs Handle) (network : string) (h : Handle) :
  cached (store r chain network h) chain network = Some h.
Proof. unfold cached, Connection.store. now rewrite !String.eqb_refl. Qed.

Lemma cached_store_other (r : Rpcs Handle) (network c n : string) (h : Handle) :
  c <> chain \/ n <> network ->
  cached (store r chain network h) c n = cached r c n.
Proof.
  intros H. unfold cached, Connection.store.
  destruct (String.eqb_spec c chain) as [->|Hc]; [|reflexivity].
  destruct (String.eqb_spec n network) as [->|Hn]; [|reflexivity].
  destruct H; contradiction.
Qed.

Lemma cached_delete (r : Rpcs Handle) (network : string) :
  cached (delete r chain network) chain network = None.
Proof.
  unfold cached, Connection.delete. rewrite String.eqb_refl.
  destruct (r chain); [now rewrite String.eqb_refl | reflexivity].
Qed.

Lemma cached_delete_other (r : Rpcs Handle) (network c n : string) :
  c <> chain \/ n <> network ->
  cached (delete r chain network) c n = cached r c n.
Proof.
  intros H. unfold cached, Connection.delete.
  destruct (String.eqb_spec c chain) as [->|Hc]; [|reflexivity].
  destruct (r chain); [|reflexivity].
  destruct (String.eqb_spec n network) as [->|Hn]; [|reflexivity].
  destruct H; contradiction.
Qed.

(** X12: a connection that answers the probe is used again.  The call
    resolves to the connection that is cached, builds no connection and
    writes no line; only the probe has reached the node. *)
Theorem getWeb3_reuses_live_connection (network : string)
  (w : World Handle Node) (h : Handle) (height : nat) (n1 : Node) :
  cached (rpcs w) chain network = Some h ->
  getBlockNumber h (node w) = (Resolved height, n1) ->
  getWeb3 network w
  = (Resolved (Some h), {| rpcs := rpcs w; node := n1; info := info w |}).
Proof.
  intros Hc Hp.
  unfold Connection.getWeb3, bind, try_catch, get_rpcs, on_node, ret.
  cbn. rewrite Hc, Hp. cbn. rewrite Hc. cbn. now rewrite Hc.
Qed.

(** The second half of the method: from a state with or without a
    connection. *)
Lemma connect_or_keep (network : string) (w : World Handle Node)
  (r : option Handle) (w' : World Handle Node) :
  (x <- get_rpcs Handle Node ;;
   match cached x chain network with
   | Some _ => ret tt
   | None =>
       logger_info Handle Node
         ("Making a new connection for " ++ chain ++ ":" ++ network) ;;;
       match providerConfigOf Provider config threadId network with
       | Rejected e => throw e
       | Resolved providerConfig =>
           rpc <- on_node Handle Node (newRpc providerConfig chain) ;;
           set_rpcs Handle Node (fun r => store r chain network rpc)
       end
   end ;;;
   x <- get_rpcs Handle Node ;;
   ret (cached x chain network))%async w = (Resolved r, w') ->
  exists h,
    r = Some h /\ cached (rpcs w') chain network = Some h
    /\ (forall c n, c <> chain \/ n <> network ->
                    cached (rpcs w') c n = cached (rpcs w) c n).
Proof.
  unfold bind, get_rpcs, ret, logger_info, throw, on_node, set_rpcs. cbn.
  destruct (cached (rpcs w) chain network) as [h|] eqn:Hc; cbn.
  - rewrite Hc. intros H. injection H as <- <-. exists h. auto.
  - destruct (providerConfigOf Provider config threadId network) as [p|e];
      cbn; [|discriminate].
    destruct (newRpc p chain (node w)) as [[h|e] n1]; cbn; [|discriminate].
    rewrite cached_store. intros H. injection H as <- <-. exists h.
    split; [reflexivity|]. split; [apply cached_store|].
    intros c n Hcn. cbn. now apply cached_store_other.
Qed.

(** X13: whenever [getWeb3] resolves, it resolves to a connection, never
    to [undefined]; this connection is the one that is cached for the
    chain and network afterwards, and the connections of the other
    chains and networks are the ones that were cached before. *)
Theorem getWeb3_returns_what_it_caches (network : string)
  (w w' : World Handle Node) (r : option Handle) :
  getWeb3 network w = (Resolved r, w') ->
  exists h,
    r = Some h /\ cached (rpcs w') chain network = Some h
    /\ (forall c n, c <> chain \/ n <> network ->
                    cached (rpcs w') c n = cached (rpcs w) c n).
Proof.
  unfold Connection.getWeb3. unfold bind at 1.
  destruct (try_catch _ _ w) as [[[]|e] w1] eqn:Et.
  - intros H. apply connect_or_keep in H. destruct H as (h & -> & Hh & Ho).
    exists h. split; [reflexivity|]. split; [assumption|].
    intros c n Hcn. rewrite (Ho c n Hcn).
    revert Et. unfold try_catch, bind, get_rpcs, on_node, ret, set_rpcs. cbn.
    destruct (cached (rpcs w) chain network) as [h0|]; cbn.
    + destruct (getBlockNumber h0 (node w)) as [[k|e] n1]; cbn;
        intros H; injection H as <-; cbn; [reflexivity|].
      now apply cached_delete_other.
    + intros H. now injection H as <-.
  - revert Et. unfold try_catch, bind, get_rpcs, on_node, ret, set_rpcs. cbn.
    destruct (cached (rpcs w) chain network) as [h0|]; cbn;
      [destruct (getBlockNumber h0 (node w)) as [[k|e0] n1]; cbn|];
      discriminate.
Qed.

(** X14: a connection that fails the probe is dropped and replaced.
    With [n] endpoints and no single [provider] in the configuration,
    the worker connects to the endpoint number [threadId mod n], which
    is always one of them; when the new connection cannot be built, the
    call is rejected with that error and no connection is cached. *)
Theorem getWeb3_replaces_dead_connection (network : string)
  (w : World Handle Node) (h : Handle) (e : error) (n1 : Node)
  (ps : list Provider) :
  cached (rpcs w) chain network = Some h ->
  getBlockNumber h (node w) = (Rejected e, n1) ->
  config network = Some {| provider := None; providers := Some ps |} ->
  ps <> [] ->
  exists p,
    nth_error ps (threadId mod List.length ps) = Some p
    /\ (forall h' n2,
           newRpc (Some p) chain n1 = (Resolved h', n2) ->
           exists w',
             getWeb3 network w = (Resolved (Some h'), w')
             /\ cached (rpcs w') chain network = Some h'
             /\ node w' = n2)
    /\ (forall e' n2,
           newRpc (Some p) chain n1 = (Rejected e', n2) ->
           exists w',
             getWeb3 network w = (Rejected e', w')
             /\ cached (rpcs w') chain network = None).
Proof.
  intros Hc Hp Hcfg Hne.
  assert (Hlt : (threadId mod List.length ps < List.length ps)%nat).
  { apply Nat.mod_upper_bound. destruct ps; [contradiction | discriminate]. }
  destruct (nth_error ps (threadId mod List.length ps)) as [p|] eqn:En;
    [|apply nth_error_None in En; lia].
  assert (Hsel : providerConfigOf Provider config threadId network
                 = Resolved (Some p)).
  { unfold providerConfigOf. rewrite Hcfg. cbn.
    destruct ps; [contradiction|]. now rewrite En. }
  exists p. split; [reflexivity|]. split.
  - intros h' n2 Hn. eexists. split; [|split].
    + unfold Connection.getWeb3, bind, try_catch, get_rpcs, on_node, ret,
        set_rpcs, logger_info, throw.
      cbn. rewrite Hc, Hp. cbn. rewrite cached_delete, Hsel. cbn.
      rewrite Hn. cbn. rewrite cached_store. reflexivity.
    + cbn. apply cached_store.
    + reflexivity.
  - intros e' n2 Hn. eexists. split.
    + unfold Connection.getWeb3, bind, try_catch, get_rpcs, on_node, ret,
        set_rpcs, logger_info, throw.
      cbn. rewrite Hc, Hp. cbn. rewrite cached_delete, Hsel. cbn.
      rewrite Hn. cbn. reflexivity.
    + cbn. apply cached_delete.
Qed.

End ConnectionFacts.

Lemma getWeb3_reuses_live_connection_witness :
  let config (_ : string) : option (Connection.NetworkConfig string) :=
    Some {| Connection.provider := None;
            Connection.providers := Some ["a"%string; "b"%string; "c"%string] |} in
  let getBlockNumber (h : nat) : async nat nat :=
    fun asked =>
      if Nat.eqb h 0 then (Rejected (Error "down"%string), S asked)
      else (Resolved 100%nat, S asked) in
  let newRpc (_ : option string) (_ : string) : async nat nat :=
    fun asked => (Resolved 7%nat, S asked) in
  let rpcs : Connection.Rpcs nat :=
    fun c => if String.eqb c "ETH"%string
             then Some (fun n => if String.eqb n "mainnet"%string then Some 5%nat else None)
             else None in
  let w := {| Connection.rpcs := rpcs; Connection.node := 0%nat;
              Connection.info := [] |} in
  Connection.getWeb3 nat string nat "ETH"%string config 4%nat getBlockNumber newRpc
    "mainnet"%string w
  = (Resolved (Some 5%nat),
     {| Connection.rpcs := rpcs; Connection.node := 1%nat; Connection.info := [] |}).
Proof.
  intros config getBlockNumber newRpc rpcs w.
  exact (getWeb3_reuses_live_connection nat string nat "ETH"%string config 4%nat
           getBlockNumber newRpc "mainnet"%string w 5%nat 100%nat 1%nat eq_refl eq_refl).
Defined.

Lemma getWeb3_returns_what_it_caches_witness :
  let config (_ : string) : option (Connection.NetworkConfig string) :=
    Some {| Connection.provider := Some "single"%string; Connection.providers := None |} in
  let getBlockNumber (h : nat) : async nat nat :=
    fun asked => (Resolved 100%nat, S asked) in
  let newRpc (_ : option string) (_ : string) : async nat nat :=
    fun asked => (Resolved 7%nat, S asked) in
  let w := {| Connection.rpcs := fun _ => None; Connection.node := 0%nat;
              Connection.info := [] |} in
  exists w',
    Connection.getWeb3 nat string nat "ETH"%string config 4%nat getBlockNumber newRpc
      "mainnet"%string w = (Resolved (Some 7%nat), w')
    /\ Connection.cached (Connection.rpcs w') "ETH"%string "mainnet"%string = Some 7%nat
    /\ Connection.cached (Connection.rpcs w') "ETH"%string "testnet"%string = None.
Proof.
  intros config getBlockNumber newRpc w.
  eexists. split; [reflexivity|].
  destruct (getWeb3_returns_what_it_caches nat string nat "ETH"%string config 4%nat
              getBlockNumber newRpc "mainnet"%string w _ (Some 7%nat) eq_refl)
    as (h & Eh & Hc & Ho).
  injection Eh as <-. split; [exact Hc|].
  rewrite (Ho "ETH"%string "testnet"%string); [reflexivity|].
  right. discriminate.
Defined.

Lemma getWeb3_replaces_dead_connection_witness :
  let config (_ : string) : option (Connection.NetworkConfig string) :=
    Some {| Connection.provider := None;
            Connection.providers := Some ["a"%string; "b"%string; "c"%string] |} in
  let getBlockNumber (h : nat) : async nat nat :=
    fun asked => (Rejected (Error "down"%string), S asked) in
  let newRpc (p : option string) (_ : string) : async nat nat :=
    fun asked =>
      match p with
      | Some "b"%string => (Resolved 7%nat, S asked)
      | _ => (Rejected (Error "no such endpoint"%string), S asked)
      end in
  let rpcs : Connection.Rpcs nat :=
    fun c => if String.eqb c "ETH"%string
             then Some (fun n => if String.eqb n "mainnet"%string then Some 5%nat else None)
             else None in
  let w := {| Connection.rpcs := rpcs; Connection.node := 0%nat;
              Connection.info := [] |} in
  exists w',
    Connection.getWeb3 nat string nat "ETH"%string config 4%nat getBlockNumber newRpc
      "mainnet"%string w = (Resolved (Some 7%nat), w')
    /\ Connection.cached (Connection.rpcs w') "ETH"%string "mainnet"%string = Some 7%nat.
Proof.
  intros config getBlockNumber newRpc rpcs w.
  destruct (getWeb3_replaces_dead_connection nat string nat "ETH"%string config 4%nat
              getBlockNumber newRpc "mainnet"%string w 5%nat (Error "down"%string) 1%nat
              ["a"%string; "b"%string; "c"%string] eq_refl eq_refl eq_refl)
    as (p & Hp & Hok & _).
  - discriminate.
  - injection Hp as <-.
    destruct (Hok 7%nat 2%nat eq_refl) as (w' & Hw & Hc & _).
    exists w'. split; assumption.
Defined.

(** ** [estimateGas] *)

Lemma lower_ascii_idempotent (c : Ascii.ascii) :
  lower_ascii (lower_ascii c) = lower_ascii c.
Proof. destruct c as [[] [] [] [] [] [] [] []]; reflexivity. Qed.

Lemma toLowerCase_idempotent (s : string) :
  toLowerCase (toLowerCase s) = toLowerCase s.
Proof.
  induction s as [|c s IH]; simpl; [reflexivity|].
  now rewrite lower_ascii_idempotent, IH.
Qed.

Section GasEstimateFacts.
Import GasEstimate.
Variables V Web3 Contract Method Decoded Node : Type.
Variable getWeb3 : string -> async Node Web3.
Variable abiDecode : Data -> promise error (option (DecodedCall V)).
Variable getMultisendContract : string -> option string -> async Node Contract.
Variable decodeParameter : Web3 -> string -> string -> promise error Decoded.
Variable sendErc20 : Contract -> string -> Decoded -> Decoded -> option Method.
Variable sendEth : Contract -> Decoded -> Decoded -> option Method.
Variable estimateGasOf : Method -> CallOptions V -> async Node number.
Variable toHex : Web3 -> V -> promise error string.
Variable send : Web3 -> Request -> Node -> Sent * Node.
Variable Number : string -> number.
Variable now : string.

Local Abbreviation estimateGas :=
  (estimateGas V Web3 Contract Method Decoded Node getWeb3 abiDecode
               getMultisendContract decodeParameter sendErc20 sendEth
               estimateGasOf toHex send Number now).
Local Abbreviation request := (request V Web3 Node toHex send Number now).

(** X15: a call without [data] is a blind estimate: [params.value] has
    no influence on it.  For [data] that is missing or the empty string,
    two calls that differ in [value] only settle alike and leave the
    node alike. *)
Theorem estimateGas_without_data_ignores_value (params : Params V) (v' : V)
  (n : Node) :
  truthyData (data V params) = false ->
  estimateGas params n
  = estimateGas {| network := network V params; value := v';
                   from := from V params; data := data V params;
                   to := to V params |} n.
Proof.
  intros Hd. unfold GasEstimate.estimateGas. cbn [network data].
  destruct (getWeb3 (network V params) n) as [[web3|e] n1]; [|reflexivity].
  destruct (abiDecode (data V params)) as [dataDecoded|e]; [|reflexivity].
  assert (Hreq : forall v w,
             request web3 params v n1
             = request web3 {| network := network V params; value := v';
                               from := from V params; data := data V params;
                               to := to V params |} w n1).
  { intros v w. unfold GasEstimate.request. cbn [data to from].
    now rewrite Hd. }
  destruct (isInvoicePay V dataDecoded).
  - destruct dataDecoded as [[ty name [|v0 ps]]|];
      first [reflexivity | apply Hreq].
  - revert Hreq Hd. destruct (data V params) as [|s|m]; intros Hreq Hd;
      first [apply Hreq | discriminate Hd].
Qed.

(** X16: outside a multisend call, the letter case of [to] and [from]
    has no influence on the estimate: the call settles as the call with
    both addresses in lower case does. *)
Theorem estimateGas_lowers_addresses (params : Params V) (n : Node) :
  (forall m, data V params <> Multisend m) ->
  estimateGas params n
  = estimateGas {| network := network V params; value := value V params;
                   from := option_map toLowerCase (from V params);
                   data := data V params;
                   to := option_map toLowerCase (to V params) |} n.
Proof.
  intros Hd. unfold GasEstimate.estimateGas. cbn [network data value].
  destruct (getWeb3 (network V params) n) as [[web3|e] n1]; [|reflexivity].
  destruct (abiDecode (data V params)) as [dataDecoded|e]; [|reflexivity].
  assert (Hreq : forall v,
             request web3 params v n1
             = request web3 {| network := network V params; value := value V params;
                               from := option_map toLowerCase (from V params);
                               data := data V params;
                               to := option_map toLowerCase (to V params) |} v n1).
  { intros v. unfold GasEstimate.request. cbn [data to from].
    assert (Hl : forall a : option string,
               option_map toLowerCase (option_map toLowerCase a)
               = option_map toLowerCase a).
    { intros [a|]; simpl; [now rewrite toLowerCase_idempotent | reflexivity]. }
    now rewrite !Hl. }
  destruct (isInvoicePay V dataDecoded).
  - destruct dataDecoded as [[ty name [|v0 ps]]|];
      first [reflexivity | apply Hreq].
  - revert Hreq Hd. destruct (data V params) as [|s|m]; intros Hreq Hd;
      first [apply Hreq | now destruct (Hd m)].
Qed.

(** X17: a multisend call whose [method] is neither ['sendErc20'] nor
    ['sendEth'] resolves to [NaN]: once the contract is opened and the
    two arrays are decoded, no estimate is asked of the node. *)
Theorem estimateGas_unknown_multisend_method (params : Params V)
  (m : MultisendData) (n n1 n2 : Node) (web3 : Web3)
  (dataDecoded : option (DecodedCall V)) (contract : Contract)
  (addresses amounts : Decoded) :
  data V params = Multisend m ->
  method m <> "sendErc20"%string -> method m <> "sendEth"%string ->
  getWeb3 (network V params) n = (Resolved web3, n1) ->
  abiDecode (Multisend m) = Resolved dataDecoded ->
  isInvoicePay V dataDecoded = false ->
  getMultisendContract (network V params) (to V params) n1
  = (Resolved contract, n2) ->
  decodeParameter web3 "address[]"%string (GasEstimate.addresses m)
  = Resolved addresses ->
  decodeParameter web3 "uint256[]"%string (GasEstimate.amounts m)
  = Resolved amounts ->
  estimateGas params n = (Resolve NaN, n2).
Proof.
  intros Hd H1 H2 Hw Ha Hi Hc Hda Hdm.
  unfold GasEstimate.estimateGas. rewrite Hw, Hd, Ha, Hi.
  unfold GasEstimate.multisend. rewrite Hc, Hda, Hdm.
  apply String.eqb_neq in H1, H2. now rewrite H1, H2.
Qed.

End GasEstimateFacts.

Lemma estimateGas_without_data_ignores_value_witness :
  let send (_ : unit) (r : GasEstimate.Request) (asked : nat) :=
    (GasEstimate.Answered
       {| GasEstimate.result :=
            match GasEstimate.r_value r with
            | Some _ => Some "0x7530"%string
            | None => Some "0x5208"%string
            end;
          GasEstimate.error_ := None |}, S asked) in
  let estimateGas :=
    GasEstimate.estimateGas Z unit unit unit unit nat (fun _ => ret tt)
      (fun _ => Resolved None) (fun _ _ => ret tt) (fun _ _ _ => Resolved tt)
      (fun _ _ _ _ => None) (fun _ _ _ => None) (fun _ _ => ret NaN)
      (fun _ _ => Resolved "0x1"%string) send
      (fun s => if String.eqb s "0x5208"%string then Num 21000 else Num 30000) "0"%string in
  let params (v : Z) :=
    {| GasEstimate.network := "mainnet"%string; GasEstimate.value := v;
       GasEstimate.from := Some "0xAb"%string; GasEstimate.data := GasEstimate.NoData;
       GasEstimate.to := Some "0xCd"%string |} in
  estimateGas (params 5%Z) 0%nat = estimateGas (params 900%Z) 0%nat.
Proof.
  intros send estimateGas params.
  exact (estimateGas_without_data_ignores_value Z unit unit unit unit nat
           (fun _ => ret tt) (fun _ => Resolved None) (fun _ _ => ret tt)
           (fun _ _ _ => Resolved tt) (fun _ _ _ _ => None) (fun _ _ _ => None)
           (fun _ _ => ret NaN) (fun _ _ => Resolved "0x1"%string) send
           (fun s => if String.eqb s "0x5208"%string then Num 21000 else Num 30000) "0"%string
           (params 5%Z) 900%Z 0%nat eq_refl).
Defined.

Lemma estimateGas_lowers_addresses_witness :
  let send (_ : unit) (r : GasEstimate.Request) (asked : nat) :=
    (GasEstimate.Answered
       {| GasEstimate.result := GasEstimate.r_to r;
          GasEstimate.error_ := None |}, S asked) in
  let estimateGas :=
    GasEstimate.estimateGas Z unit unit unit unit nat (fun _ => ret tt)
      (fun _ => Resolved None) (fun _ _ => ret tt) (fun _ _ _ => Resolved tt)
      (fun _ _ _ _ => None) (fun _ _ _ => None) (fun _ _ => ret NaN)
      (fun _ _ => Resolved "0x1"%string) send (fun _ => Num 21000) "0"%string in
  estimateGas
    {| GasEstimate.network := "mainnet"%string; GasEstimate.value := 5%Z;
       GasEstimate.from := Some "0xAb"%string; GasEstimate.data := GasEstimate.Hex "0xa9"%string;
       GasEstimate.to := Some "0xCd"%string |} 0%nat
  = estimateGas
      {| GasEstimate.network := "mainnet"%string; GasEstimate.value := 5%Z;
         GasEstimate.from := Some "0xab"%string; GasEstimate.data := GasEstimate.Hex "0xa9"%string;
         GasEstimate.to := Some "0xcd"%string |} 0%nat.
Proof.
  intros send estimateGas.
  apply (estimateGas_lowers_addresses Z unit unit unit unit nat
           (fun _ => ret tt) (fun _ => Resolved None) (fun _ _ => ret tt)
           (fun _ _ _ => Resolved tt) (fun _ _ _ _ => None) (fun _ _ _ => None)
           (fun _ _ => ret NaN) (fun _ _ => Resolved "0x1"%string) send
           (fun _ => Num 21000) "0"%string
           {| GasEstimate.network := "mainnet"%string; GasEstimate.value := 5%Z;
              GasEstimate.from := Some "0xAb"%string;
              GasEstimate.data := GasEstimate.Hex "0xa9"%string;
              GasEstimate.to := Some "0xCd"%string |} 0%nat).
  intros m. discriminate.
Defined.

Lemma estimateGas_unknown_multisend_method_witness :
  let m := {| GasEstimate.method := "sendTokens"%string; GasEstimate.tokenAddress := "0xT"%string;
              GasEstimate.addresses := "0x01"%string; GasEstimate.amounts := "0x02"%string |} in
  GasEstimate.estimateGas Z unit unit unit unit nat (fun _ => ret tt)
    (fun _ => Resolved None) (fun _ _ => fun opened => (Resolved tt, S opened))
    (fun _ _ _ => Resolved tt) (fun _ _ _ _ => Some tt) (fun _ _ _ => Some tt)
    (fun _ _ => ret (Num 50000)) (fun _ _ => Resolved "0x1"%string)
    (fun _ _ asked => (GasEstimate.Failed (Error "unused"%string), asked))
    (fun _ => Num 21000) "0"%string
    {| GasEstimate.network := "mainnet"%string; GasEstimate.value := 5%Z;
       GasEstimate.from := Some "0xAb"%string; GasEstimate.data := GasEstimate.Multisend m;
       GasEstimate.to := Some "0xCd"%string |} 0%nat
  = (GasEstimate.Resolve NaN, 1%nat).
Proof.
  intros m.
  apply (estimateGas_unknown_multisend_method Z unit unit unit unit nat
           (fun _ => ret tt) (fun _ => Resolved None)
           (fun _ _ => fun opened => (Resolved tt, S opened))
           (fun _ _ _ => Resolved tt) (fun _ _ _ _ => Some tt) (fun _ _ _ => Some tt)
           (fun _ _ => ret (Num 50000)) (fun _ _ => Resolved "0x1"%string)
           (fun _ _ asked => (GasEstimate.Failed (Error "unused"%string), asked))
           (fun _ => Num 21000) "0"%string _ m 0%nat 0%nat 1%nat tt None tt tt tt);
    try reflexivity; discriminate.
Defined.

(** ** [getTransaction], for a record that is found or not *)

(** X18: when the tip and the transaction collection are read,
    [getTransaction] writes nothing to the console.  For a transaction
    that is not stored it resolves to [undefined]; for a stored record
    it resolves, once [populateReceipt] has resolved, to the shaped
    record, after the back-fill of its receipt and effects, with the
    confirmations of the height that was stored.  The collection is asked for the network
    in lower case. *)
Theorem getTransaction_found_or_not (Store Other JSONTx Block : Type)
  (height : Block -> Z)
  (getLocalTip : option string -> option string -> async Store (option Block))
  (getReceipt : string -> string -> async Store (option Transactions.Receipt))
  (updateOne : string -> Transactions.Receipt -> number -> async Store unit)
  (getEffects : Transactions.Tx Other -> list Effect.t)
  (_apiTransform : Transactions.Tx Other -> JSONTx)
  (findOne : Transactions.TxQuery -> async Store (option (Transactions.Tx Other)))
  (params : Transactions.StreamTransactionParams)
  (w : Transactions.World Store) (c n id : string) (tip : option Block)
  (s1 s2 : Store) (stored : option (Transactions.Tx Other)) :
  Transactions.required params = Some (c, n, id) ->
  getLocalTip (Transactions.chain params) (Transactions.network params)
              (Transactions.store w) = (Resolved tip, s1) ->
  findOne {| Transactions.q_chain := c; Transactions.q_network := toLowerCase n;
             Transactions.q_txid := id |} s1 = (Resolved stored, s2) ->
  match stored with
  | None =>
      Transactions.getTransaction Store Other JSONTx Block height getLocalTip
        getReceipt updateOne getEffects _apiTransform findOne params w
      = (Resolved None,
         {| Transactions.console := Transactions.console w;
            Transactions.store := s2 |})
  | Some found =>
      forall found' s3,
        Transactions.populateReceipt Store Other getReceipt updateOne found s2
        = (Resolved found', s3) ->
        Transactions.getTransaction Store Other JSONTx Block height getLocalTip
          getReceipt updateOne getEffects _apiTransform findOne params w
        = (Resolved
             (Some {| Transactions.convertedTx :=
                        _apiTransform
                          (Transactions.populateEffects Other getEffects found');
                      Transactions.confirmations :=
                        Transactions.confirmationsOfFound
                          (Transactions.tipHeightOf Block height tip) found |}),
           {| Transactions.console := Transactions.console w;
              Transactions.store := s3 |})
  end.
Proof.
  intros Hr Ht Hf. destruct stored as [found|].
  - intros found' s3 Hp.
    now apply (getTransaction_found _ _ _ _ _ _ _ _ _ _ _ _ _ c n id tip found
                 found' s1 s2 s3).
  - unfold Transactions.getTransaction, try_catch, bind, Transactions.on_store.
    rewrite Hr. cbn. rewrite Ht. cbn. now rewrite Hf.
Qed.

Lemma getTransaction_found_or_not_witness :
  let record (r : option Transactions.Receipt) : Transactions.Tx unit :=
    {| Transactions._id := "1"%string; Transactions.txid := "0xaa"%string;
       Transactions.tx_network := "mainnet"%string; Transactions.blockHeight := Some 95%Z;
       Transactions.gasPrice := Num 1; Transactions.receipt := r;
       Transactions.fee := None; Transactions.effects := None;
       Transactions.other := tt |} in
  let receipt := {| Transactions.gasUsed := Num 21000 |} in
  let params :=
    {| Transactions.chain := Some "ETH"%string; Transactions.network := Some "MainNet"%string;
       Transactions.txId := Str "0xaa"%string |} in
  exists t,
    Transactions.getTransaction nat unit (Transactions.Tx unit) Z (fun b => b)
      (fun _ _ => ret (Some 100%Z)) (fun _ _ => ret None) (fun _ _ _ => ret tt)
      (fun _ => []) (fun t => t)
      (fun q => if String.eqb (Transactions.q_network q) "mainnet"%string
                then ret (Some (record (Some receipt))) else ret None)
      params {| Transactions.console := []; Transactions.store := 0%nat |}
    = (Resolved (Some {| Transactions.convertedTx := t;
                         Transactions.confirmations := 6%Z |}),
       {| Transactions.console := []; Transactions.store := 0%nat |}).
Proof.
  intros record receipt params. eexists.
  exact (getTransaction_found_or_not nat unit (Transactions.Tx unit) Z (fun b => b)
           (fun _ _ => ret (Some 100%Z)) (fun _ _ => ret None) (fun _ _ _ => ret tt)
           (fun _ => []) (fun t => t)
           (fun q => if String.eqb (Transactions.q_network q) "mainnet"%string
                     then ret (Some (record (Some receipt))) else ret None)
           params {| Transactions.console := []; Transactions.store := 0%nat |}
           "ETH"%string "MainNet"%string "0xaa"%string (Some 100%Z) 0%nat 0%nat
           (Some (record (Some receipt)))
           eq_refl eq_refl eq_refl (record (Some receipt)) 0%nat eq_refl).
Defined.

(** ** [streamAddressTransactions] *)

Lemma addressQuery_matches (chain network address : string)
  (d : Registration.Transaction) :
  Registration.matches (AddressStream.addressQuery chain network address) d = true
  <-> In chain (Registration.at_path d "chain")
      /\ In network (Registration.at_path d "network")
      /\ (In address (Registration.at_path d "from")
          \/ In address (Registration.at_path d "to")
          \/ In address (Registration.at_path d "internal.action.to")
          \/ In address (Registration.at_path d "effects.to")).
Proof.
  unfold Registration.matches, AddressStream.addressQuery.
  cbn [existsb forallb Registration.holds].
  rewrite !orb_true_iff, !andb_true_iff, !existsb_eqb_In.
  intuition congruence.
Qed.

(** X19: [streamAddressTransactions] never rejects, and does one thing.
    Without a token address it starts one streaming find, for the
    transactions of the chain and network that have the address as
    [from], [to], [internal.action.to] or [effects.to], and writes
    nothing to the response.  With a token address it starts no find and
    writes one answer: the transfers of the token as JSON, or the status
    500 with the error when the lookup of the transfers fails. *)
Theorem streamAddressTransactions_answers_once (Token : Type)
  (erc20For : string -> string -> promise error Token)
  (getPastEvents :
     Token -> TokenTransfers.EventOptions -> Wallet.Issued (list Event.t))
  (params : AddressStream.Params) (w : AddressStream.World) :
  exists w',
    AddressStream.streamAddressTransactions Token erc20For getPastEvents params w
    = (Resolved tt, w')
    /\ (if WalletQuery.truthyString
             (AddressStream.tokenAddress (AddressStream.args params))
        then
          AddressStream.started w' = AddressStream.started w
          /\ exists tokenAddress,
              AddressStream.tokenAddress (AddressStream.args params)
              = Some tokenAddress
              /\ AddressStream.response w'
                 = AddressStream.response w
                   ++ [match
                         TokenTransfers.getErc20Transfers Token erc20For
                           getPastEvents (AddressStream.network params)
                           (AddressStream.address params) tokenAddress
                           (Some (AddressStream.range (AddressStream.args params)))
                       with
                       | Resolved ts => AddressStream.Json ts
                       | Rejected e => AddressStream.Status500 e
                       end]
        else
          AddressStream.response w' = AddressStream.response w
          /\ exists q,
              AddressStream.started w'
              = AddressStream.started w
                ++ [(q, AddressStream.limit (AddressStream.args params))]
              /\ forall d,
                  Registration.matches q d = true
                  <-> In (AddressStream.chain params) (Registration.at_path d "chain")
                      /\ In (AddressStream.network params)
                            (Registration.at_path d "network")
                      /\ (In (AddressStream.address params)
                             (Registration.at_path d "from")
                          \/ In (AddressStream.address params)
                                (Registration.at_path d "to")
                          \/ In (AddressStream.address params)
                                (Registration.at_path d "internal.action.to")
                          \/ In (AddressStream.address params)
                                (Registration.at_path d "effects.to"))).
Proof.
  unfold AddressStream.streamAddressTransactions.
  destruct (AddressStream.tokenAddress (AddressStream.args params))
    as [[|c s]|] eqn:Et; cbn [WalletQuery.truthyString].
  - eexists. split; [reflexivity|]. cbn. split; [reflexivity|].
    eexists. split; [reflexivity|]. apply addressQuery_matches.
  - destruct (TokenTransfers.getErc20Transfers _ _ _ _ _ _ _) as [ts|e] eqn:Eg;
      eexists; (split; [reflexivity|]); cbn; (split; [reflexivity|]);
      eexists; (split; [reflexivity|]); now rewrite Eg.
  - eexists. split; [reflexivity|]. cbn. split; [reflexivity|].
    eexists. split; [reflexivity|]. apply addressQuery_matches.
Qed.
